(** * A byte-level model of the free-list allocator

    The development embeds [Allocator.h], [FreeListAllocatorCustom.h] and
    [STLAdaptor.h].  The allocator keeps its bookkeeping records inside the
    memory it manages, so the model has a flat byte-addressed memory and the
    records are read and written through it, field by field, at the offsets
    a 64-bit data model gives them (LP64 and LLP64 agree here):

      struct FreeBlock        { int size;  FreeBlock* next;  FreeBlock* prev; }
                                offset 0   offset 8          offset 16   sizeof 24
      struct AllocationHeader { int size;  uintptr_t adjustment; }
                                offset 0   offset 8                      sizeof 16

    [std::size_t] and [std::uintptr_t] are 64-bit unsigned integers, [int]
    is a 32-bit two's complement integer, values are stored little-endian.
    Every field access of the source is a load or a store on the memory as
    it is at that point of the statement order, so that records which
    overlap in memory (a [FreeBlock] written over an [AllocationHeader], a
    record longer than the block that hosts it) behave as they do in the
    program. *)

From Stdlib Require Import ZArith Lia List Bool.
Import ListNotations.
Local Open Scope Z_scope.

(** ** Machine integers *)

Definition wrap64 (z : Z) : Z := z mod 2 ^ 64.

(** Conversion of an integer value to [int]. *)
Definition to_int (z : Z) : Z :=
  let u := z mod 2 ^ 32 in if u <? 2 ^ 31 then u else u - 2 ^ 32.

(** Conversion of an [int] to [std::size_t] / [std::uintptr_t], as the usual
    arithmetic conversions do when an [int] meets a 64-bit unsigned operand. *)
Definition int_to_size_t (z : Z) : Z := wrap64 z.

(** Bitwise complement of a 64-bit unsigned value. *)
Definition not64 (z : Z) : Z := wrap64 (Z.lnot z).

Definition sizeof_AllocationHeader : Z := 16.
Definition sizeof_FreeBlock : Z := 24.
Definition nullptr : Z := 0.

(** ** Memory *)

Definition memory := Z -> Z.

Fixpoint load_le (n : nat) (m : memory) (a : Z) : Z :=
  match n with
  | O => 0
  | S k => (m a) mod 256 + 256 * load_le k m (a + 1)
  end.

Definition store_le (n : nat) (m : memory) (a v : Z) : memory :=
  fun x =>
    if (a <=? x) && (x <? a + Z.of_nat n)
    then (v / 256 ^ (x - a)) mod 256
    else m x.

Definition load_u64 (m : memory) (a : Z) : Z := load_le 8 m a.
Definition store_u64 (m : memory) (a v : Z) : memory := store_le 8 m a v.
Definition load_int (m : memory) (a : Z) : Z := to_int (load_le 4 m a).
Definition store_int (m : memory) (a v : Z) : memory := store_le 4 m a v.
Definition load_u8 (m : memory) (a : Z) : Z := load_le 1 m a.
Definition store_u8 (m : memory) (a v : Z) : memory := store_le 1 m a v.

(** Field accessors of the two records. *)
Module FreeBlock.
Definition size (m : memory) (p : Z) : Z := load_int m p.
Definition next (m : memory) (p : Z) : Z := load_u64 m (p + 8).
Definition prev (m : memory) (p : Z) : Z := load_u64 m (p + 16).
Definition set_size (m : memory) (p v : Z) : memory := store_int m p v.
Definition set_next (m : memory) (p v : Z) : memory := store_u64 m (p + 8) v.
Definition set_prev (m : memory) (p v : Z) : memory := store_u64 m (p + 16) v.
End FreeBlock.

Module AllocationHeader.
Definition size (m : memory) (p : Z) : Z := load_int m p.
Definition adjustment (m : memory) (p : Z) : Z := load_u64 m (p + 8).
Definition set_size (m : memory) (p v : Z) : memory := store_int m p v.
Definition set_adjustment (m : memory) (p v : Z) : memory :=
  store_u64 m (p + 8) v.
End AllocationHeader.

(** ** Pointer helpers and the header/alignment function *)

Definition ptr_add (p amount : Z) : Z := wrap64 (p + amount).
Definition ptr_sub (ptr sizeHeader : Z) : Z := wrap64 (ptr - sizeHeader).

(** [align_forward_adjustment_with_header<T>], with [required = sizeof(T)]. *)
Definition align_forward_adjustment_with_header
    (required : Z) (ptr alignment : Z) : Z :=
  let iptr := ptr in
  let aligned :=
    Z.land (wrap64 (iptr + wrap64 (alignment - 1)))
           (not64 (wrap64 (alignment - 1))) in
  let adjustment := wrap64 (aligned - iptr) in
  if adjustment <? required then
    let neededSpace := wrap64 (required - adjustment) in
    wrap64 (adjustment +
            wrap64 (alignment *
                    (wrap64 (wrap64 (neededSpace + alignment) - 1) / alignment)))
  else adjustment.

(** ** The allocator objects *)

(** Result of a call: a value, the exception [std::bad_alloc], or a failed
    [assert]. *)
Inductive outcome (A : Type) : Type :=
| Returned (a : A)
| bad_alloc
| assertion_failure.
Arguments Returned {A} a.
Arguments bad_alloc {A}.
Arguments assertion_failure {A}.

(** [class Allocator]. *)
Record Allocator : Type := mkAllocator {
  m_size : Z;
  m_usedBytes : Z;
  m_numAllocations : Z;
  m_start : Z
}.

Definition GetSize (a : Allocator) : Z := m_size a.
Definition GetUsed (a : Allocator) : Z := m_usedBytes a.
Definition GetNumAllocation (a : Allocator) : Z := m_numAllocations a.
Definition GetStart (a : Allocator) : Z := m_start a.

(** [Allocator::Allocator(sizeBytes, start)]. *)
Definition Allocator_ctor (sizeBytes start : Z) : outcome Allocator :=
  if 0 <? sizeBytes
  then Returned (mkAllocator sizeBytes 0 0 start)
  else assertion_failure.

(** [class FreeListAllocator : public FixedAllocator]; [FixedAllocator] adds
    nothing to [Allocator]. *)
Record FreeListAllocator : Type := mkFreeListAllocator {
  base : Allocator;
  m_freeBlocks : Z
}.

Definition with_counters (self : FreeListAllocator) (used num : Z)
    : FreeListAllocator :=
  mkFreeListAllocator
    (mkAllocator (m_size (base self)) used num (m_start (base self)))
    (m_freeBlocks self).

Definition with_freeBlocks (self : FreeListAllocator) (p : Z)
    : FreeListAllocator :=
  mkFreeListAllocator (base self) p.

(** [FreeListAllocator::FreeListAllocator(sizeBytes, start)]. *)
Definition FreeListAllocator_ctor (sizeBytes start : Z) (m : memory)
    : outcome (FreeListAllocator * memory) :=
  match Allocator_ctor sizeBytes start with
  | Returned b =>
      let m_freeBlocks := start in
      if sizeof_FreeBlock <? sizeBytes then
        let m := FreeBlock.set_size m m_freeBlocks sizeBytes in
        let m := FreeBlock.set_next m m_freeBlocks nullptr in
        let m := FreeBlock.set_prev m m_freeBlocks nullptr in
        Returned (mkFreeListAllocator b m_freeBlocks, m)
      else assertion_failure
  | bad_alloc => bad_alloc
  | assertion_failure => assertion_failure
  end.

(** *** Allocate *)

(** The [while (freeBlock != nullptr)] loop of [Allocate].  The loop follows
    [next] pointers stored in memory, so the model takes fuel; [None] means
    the fuel ran out. *)
Fixpoint Allocate_search (fuel : nat) (size alignment : Z) (m : memory)
    (freeBlock bestFit bestFitTotalSize bestFitAdjustment : Z)
    : option (memory * Z * Z * Z) :=
  match fuel with
  | O => None
  | S k =>
    if freeBlock =? nullptr
    then Some (m, bestFit, bestFitTotalSize, bestFitAdjustment)
    else
      let adjustment :=
        align_forward_adjustment_with_header
          sizeof_AllocationHeader freeBlock alignment in
      let totalSize :=
        wrap64 (wrap64 (size + adjustment) + sizeof_AllocationHeader) in
      if (totalSize <? int_to_size_t (FreeBlock.size m freeBlock))
         && ((bestFit =? nullptr)
             || (FreeBlock.size m freeBlock <? FreeBlock.size m bestFit))
      then
        let m :=
          if negb (FreeBlock.next m freeBlock =? nullptr)
          then FreeBlock.set_prev m (FreeBlock.next m freeBlock) freeBlock
          else m in
        let m :=
          if negb (FreeBlock.prev m freeBlock =? nullptr)
          then FreeBlock.set_next m (FreeBlock.prev m freeBlock) freeBlock
          else m in
        Allocate_search k size alignment m
          (FreeBlock.next m freeBlock) freeBlock totalSize adjustment
      else
        Allocate_search k size alignment m
          (FreeBlock.next m freeBlock)
          bestFit bestFitTotalSize bestFitAdjustment
  end.

(** The part of [Allocate] after the search, for a non-null [bestFit]. *)
Definition Allocate_carve (self : FreeListAllocator) (m : memory)
    (bestFit bestFitTotalSize bestFitAdjustment : Z)
    : Z * FreeListAllocator * memory :=
  let '(bestFitTotalSize, self, m) :=
    if int_to_size_t (FreeBlock.size m bestFit)
       <=? wrap64 (bestFitTotalSize + sizeof_AllocationHeader)
    then
      let bestFitTotalSize := int_to_size_t (FreeBlock.size m bestFit) in
      let '(self, m) :=
        if negb (FreeBlock.prev m bestFit =? nullptr)
        then (self, FreeBlock.set_next m (FreeBlock.prev m bestFit)
                      (FreeBlock.next m bestFit))
        else (with_freeBlocks self (FreeBlock.next m bestFit), m) in
      let m :=
        if negb (FreeBlock.next m bestFit =? nullptr)
        then FreeBlock.set_prev m (FreeBlock.next m bestFit)
               (FreeBlock.prev m bestFit)
        else m in
      (bestFitTotalSize, self, m)
    else
      let newBlock := ptr_add bestFit bestFitTotalSize in
      let m := FreeBlock.set_size m newBlock
                 (wrap64 (int_to_size_t (FreeBlock.size m bestFit)
                          - bestFitTotalSize)) in
      let m := FreeBlock.set_next m newBlock (FreeBlock.next m bestFit) in
      let m := FreeBlock.set_prev m newBlock (FreeBlock.prev m bestFit) in
      let m :=
        if negb (FreeBlock.next m bestFit =? nullptr)
        then FreeBlock.set_prev m (FreeBlock.next m bestFit) newBlock
        else m in
      let '(self, m) :=
        if negb (FreeBlock.prev m bestFit =? nullptr)
        then (self, FreeBlock.set_next m (FreeBlock.prev m bestFit) newBlock)
        else (with_freeBlocks self newBlock, m) in
      (bestFitTotalSize, self, m) in
  let alignedAddr := wrap64 (bestFit + bestFitAdjustment) in
  let header := wrap64 (alignedAddr - sizeof_AllocationHeader) in
  let m := AllocationHeader.set_adjustment m header bestFitAdjustment in
  let m := AllocationHeader.set_size m header bestFitTotalSize in
  let self :=
    with_counters self
      (wrap64 (m_usedBytes (base self) + bestFitTotalSize))
      (wrap64 (m_numAllocations (base self) + 1)) in
  (alignedAddr, self, m).

(** [FreeListAllocator::Allocate(size, alignment)]. *)
Definition Allocate (fuel : nat) (self : FreeListAllocator) (m : memory)
    (size alignment : Z) : option (outcome Z * FreeListAllocator * memory) :=
  match Allocate_search fuel size alignment m
          (m_freeBlocks self) nullptr 0 0 with
  | None => None
  | Some (m, bestFit, bestFitTotalSize, bestFitAdjustment) =>
    if bestFit =? nullptr
    then Some (bad_alloc, self, m)
    else
      let '(p, self, m) :=
        Allocate_carve self m bestFit bestFitTotalSize bestFitAdjustment in
      Some (Returned p, self, m)
  end.

(** *** Free *)

(** [ZeroedAddresses]: the loop runs once per byte of [ptr_addr, zero_addr). *)
Fixpoint ZeroedAddresses_loop (n : nat) (m : memory) (ptr_addr zero_addr : Z)
    : memory :=
  match n with
  | O => m
  | S k =>
    if ptr_addr <? zero_addr
    then ZeroedAddresses_loop k (store_u8 m ptr_addr 0) (ptr_addr + 1) zero_addr
    else m
  end.

Definition ZeroedAddresses (m : memory) (ptr_addr zero_addr : Z) : memory :=
  ZeroedAddresses_loop (Z.to_nat (zero_addr - ptr_addr)) m ptr_addr zero_addr.

(** The scan of [Free] for the insertion point. *)
Fixpoint Free_scan (fuel : nat) (m : memory) (blockStart : Z)
    (prevFreeBlock freeBlock : Z) : option (Z * Z) :=
  match fuel with
  | O => None
  | S k =>
    if negb (freeBlock =? nullptr) && (freeBlock <? blockStart)
    then Free_scan k m blockStart freeBlock (FreeBlock.next m freeBlock)
    else Some (prevFreeBlock, freeBlock)
  end.

(** The parts of [Free], in source order.  First the new [FreeBlock] is
    written at [blockStart] (lines 179-182). *)
Definition Free_insert (m : memory)
    (blockStart blockSize prevFreeBlock freeBlock : Z) : memory :=
  let newBlock := blockStart in
  let m := FreeBlock.set_size m newBlock blockSize in
  let m := FreeBlock.set_next m newBlock freeBlock in
  let m := FreeBlock.set_prev m newBlock prevFreeBlock in
  m.

(** Backward coalescing (lines 184-196); returns the memory and the new
    value of [newBlock]. *)
Definition Free_coalesce_backward (m : memory) (newBlock : Z) : memory * Z :=
  if negb (FreeBlock.prev m newBlock =? nullptr)
     && (wrap64 (FreeBlock.prev m newBlock
                 + int_to_size_t
                     (FreeBlock.size m (FreeBlock.prev m newBlock)))
         =? newBlock)
  then
    let m := FreeBlock.set_size m (FreeBlock.prev m newBlock)
               (FreeBlock.size m (FreeBlock.prev m newBlock)
                + FreeBlock.size m newBlock) in
    let m := FreeBlock.set_next m (FreeBlock.prev m newBlock)
               (FreeBlock.next m newBlock) in
    let m :=
      if negb (FreeBlock.next m newBlock =? nullptr)
      then FreeBlock.set_prev m (FreeBlock.next m newBlock)
             (FreeBlock.prev m newBlock)
      else m in
    (m, FreeBlock.prev m newBlock)
  else (m, newBlock).

(** Forward coalescing (lines 198-208). *)
Definition Free_coalesce_forward (m : memory) (newBlock : Z) : memory :=
  if negb (FreeBlock.next m newBlock =? nullptr)
     && (wrap64 (newBlock + int_to_size_t (FreeBlock.size m newBlock))
         =? FreeBlock.next m newBlock)
  then
    let m := FreeBlock.set_size m newBlock
               (FreeBlock.size m newBlock
                + FreeBlock.size m (FreeBlock.next m newBlock)) in
    let m := FreeBlock.set_next m newBlock
               (FreeBlock.next m (FreeBlock.next m newBlock)) in
    if negb (FreeBlock.prev m newBlock =? nullptr)
    then FreeBlock.set_next m (FreeBlock.prev m newBlock) newBlock
    else m
  else m.

(** Re-linking of the neighbours and of the list head (lines 210-215). *)
Definition Free_relink (self : FreeListAllocator) (m : memory) (newBlock : Z)
    : FreeListAllocator * memory :=
  let m :=
    if negb (FreeBlock.next m newBlock =? nullptr)
    then FreeBlock.set_prev m (FreeBlock.next m newBlock) newBlock
    else m in
  if negb (FreeBlock.prev m newBlock =? nullptr)
  then (self, FreeBlock.set_next m (FreeBlock.prev m newBlock) newBlock)
  else (with_freeBlocks self newBlock, m).

(** [FreeListAllocator::Free(ptr)].  Every field access goes through the
    memory as it is at that point of the body.  In particular [header] and
    [newBlock] are the same address whenever the adjustment equals
    [sizeof(AllocationHeader)]: then [header->adjustment], read again for
    the zero-fill (line 217), occupies the bytes of [newBlock->next]. *)
Definition Free (fuel : nat) (self : FreeListAllocator) (m : memory) (ptr : Z)
    : option (outcome unit * FreeListAllocator * memory) :=
  if ptr =? nullptr then Some (assertion_failure, self, m) else
  let header := ptr_sub ptr sizeof_AllocationHeader in
  let blockStart := wrap64 (ptr - AllocationHeader.adjustment m header) in
  let blockSize := int_to_size_t (AllocationHeader.size m header) in
  match Free_scan fuel m blockStart nullptr (m_freeBlocks self) with
  | None => None
  | Some (prevFreeBlock, freeBlock) =>
    let m := Free_insert m blockStart blockSize prevFreeBlock freeBlock in
    let '(m, newBlock) := Free_coalesce_backward m blockStart in
    let m := Free_coalesce_forward m newBlock in
    let '(self, m) := Free_relink self m newBlock in
    let start := wrap64 (blockStart + AllocationHeader.adjustment m header) in
    let end_ := wrap64 (blockStart + blockSize) in
    let m := ZeroedAddresses m start end_ in
    let self :=
      with_counters self
        (wrap64 (m_usedBytes (base self) - blockSize))
        (wrap64 (m_numAllocations (base self) - 1)) in
    Some (Returned tt, self, m)
  end.

(** [Allocate] with the default argument [alignment = sizeof(std::intptr_t)]. *)
Definition Allocate_default (fuel : nat) (self : FreeListAllocator)
    (m : memory) (size : Z) :=
  Allocate fuel self m size 8.

(** ** The adaptor *)

(** [class DynamicAllocator : public Allocator]; [BlockDesc] has the single
    field [prevBlock] at offset 0. *)
Record DynamicAllocator : Type := mkDynamicAllocator {
  dyn_base : Allocator;
  m_currentBlock : Z
}.

Module BlockDesc.
Definition prevBlock (m : memory) (p : Z) : Z := load_u64 m p.
End BlockDesc.

(** What [STLAdaptor<T, Alloc>] needs to know about its parameter [Alloc]:
    the [Allocator] base sub-object, whether [FixedAllocator] is a base of
    [Alloc] ([std::is_base_of_v]), and the result of the [dynamic_cast] to
    [DynamicAllocator]. *)
Class AllocatorClass (Alloc : Type) : Type := {
  as_Allocator : Alloc -> Allocator;
  is_base_of_FixedAllocator : bool;
  dynamic_cast_DynamicAllocator : Alloc -> option DynamicAllocator
}.

#[export] Instance FreeListAllocator_class : AllocatorClass FreeListAllocator := {
  as_Allocator := base;
  is_base_of_FixedAllocator := true;
  dynamic_cast_DynamicAllocator := fun _ => None
}.

#[export] Instance DynamicAllocator_class : AllocatorClass DynamicAllocator := {
  as_Allocator := dyn_base;
  is_base_of_FixedAllocator := false;
  dynamic_cast_DynamicAllocator := fun d => Some d
}.

(** The adaptor holds a reference to the allocator; two adaptors bound to
    the same allocator object see the same value. *)
Record STLAdaptor (Alloc : Type) : Type := mkSTLAdaptor {
  m_allocator : Alloc
}.
Arguments mkSTLAdaptor {Alloc} m_allocator.
Arguments m_allocator {Alloc} s.

(** [while (a->prevBlock != nullptr) a = a->prevBlock;] *)
Fixpoint root_block (fuel : nat) (m : memory) (a : Z) : option Z :=
  match fuel with
  | O => None
  | S k =>
    if negb (BlockDesc.prevBlock m a =? nullptr)
    then root_block k m (BlockDesc.prevBlock m a)
    else Some a
  end.

(** [STLAdaptor::operator==]. *)
Definition STLAdaptor_eq {Alloc : Type} `{AllocatorClass Alloc}
    (fuel : nat) (m : memory) (lhs rhs : STLAdaptor Alloc) : option bool :=
  if is_base_of_FixedAllocator
  then Some (GetStart (as_Allocator (m_allocator lhs))
             =? GetStart (as_Allocator (m_allocator rhs)))
  else
    match dynamic_cast_DynamicAllocator (m_allocator lhs),
          dynamic_cast_DynamicAllocator (m_allocator rhs) with
    | Some left_, Some right_ =>
      match root_block fuel m (m_currentBlock left_) with
      | None => None
      | Some a =>
        match root_block fuel m (m_currentBlock right_) with
        | None => None
        | Some b => Some (a =? b)
        end
      end
    | _, _ => Some false
    end.

(** [STLAdaptor::operator!=]. *)
Definition STLAdaptor_neq {Alloc : Type} `{AllocatorClass Alloc}
    (fuel : nat) (m : memory) (lhs rhs : STLAdaptor Alloc) : option bool :=
  option_map negb (STLAdaptor_eq fuel m lhs rhs).

(** ** Free lists as seen by the proofs *)

(** A free list is described by the addresses and sizes of its blocks, in
    traversal order.  [lseg m prv p l q] reads the records from memory:
    starting at pointer [p], whose predecessor is [prv], the blocks of [l]
    follow each other through their [next] fields, each [prev] field points
    back, and the last [next] field is [q]. *)
Fixpoint lseg (m : memory) (prv p : Z) (l : list (Z * Z)) (q : Z) : Prop :=
  match l with
  | [] => p = q
  | (a, s) :: l' =>
      p = a /\ a <> nullptr /\ FreeBlock.size m a = s /\
      FreeBlock.prev m a = prv /\ lseg m a (FreeBlock.next m a) l' q
  end.

Definition linked (m : memory) (head : Z) (l : list (Z * Z)) : Prop :=
  lseg m nullptr head l nullptr.

(** Address order.  Every block is larger than an allocation header (what a
    split leaves behind) and its size is a positive [int]; blocks lie in the
    address space in ascending order, and two consecutive free blocks are
    separated by at least a header's worth of bytes, because a live
    allocation lies between them (adjacent free blocks are coalesced). *)
Fixpoint ascending (lo : Z) (l : list (Z * Z)) : Prop :=
  match l with
  | [] => True
  | (a, s) :: l' =>
      lo <= a /\ sizeof_AllocationHeader < s < 2 ^ 31 /\ a + s <= 2 ^ 64 /\
      ascending (a + s + sizeof_AllocationHeader) l'
  end.

Definition well_formed (self : FreeListAllocator) (m : memory)
    (l : list (Z * Z)) : Prop :=
  linked m (m_freeBlocks self) l /\ ascending 1 l.

(** The footprint [totalSize] the search computes for a candidate block at
    address [a], and the test [freeBlock->size > totalSize]. *)
Definition adjustment_for (alignment a : Z) : Z :=
  align_forward_adjustment_with_header sizeof_AllocationHeader a alignment.

Definition totalSize_for (size alignment a : Z) : Z :=
  wrap64 (wrap64 (size + adjustment_for alignment a) + sizeof_AllocationHeader).

Definition qualifies (size alignment : Z) (b : Z * Z) : Prop :=
  totalSize_for size alignment (fst b) < int_to_size_t (snd b).

(** Best fit, as a property of a position [i] of the list: the block there
    qualifies, no qualifying block is smaller, and every qualifying block
    met earlier in the traversal is strictly larger. *)
Definition best_fit_at (size alignment : Z) (l : list (Z * Z)) (i : nat)
    (b : Z * Z) : Prop :=
  nth_error l i = Some b /\
  qualifies size alignment b /\
  forall j b', nth_error l j = Some b' -> qualifies size alignment b' ->
    snd b <= snd b' /\ ((j < i)%nat -> snd b < snd b').

(** Requests the allocator is meant for: the alignment is a power of two,
    and size and alignment are small enough for the footprint
    [size + adjustment + sizeof(AllocationHeader)] not to wrap around. *)
Definition valid_request (size alignment : Z) : Prop :=
  0 <= size < 2 ^ 62 /\ exists k, 0 <= k <= 62 /\ alignment = 2 ^ k.

(** Equal memories, byte for byte. *)
Definition same_bytes (m m' : memory) : Prop :=
  forall x, m' x mod 256 = m x mod 256.

(** The padding up to the next multiple of [a], the first value the
    header/alignment function computes. *)
Definition padding (p a : Z) : Z :=
  wrap64 (Z.land (wrap64 (p + wrap64 (a - 1))) (not64 (wrap64 (a - 1))) - p).

(** Summary of one iteration of the search loop on the description of a
    block: [best] is the description of [bestFit], if any. *)
Definition pick (size alignment : Z) (best : option (Z * Z)) (b : Z * Z)
    : option (Z * Z) :=
  if (totalSize_for size alignment (fst b) <? int_to_size_t (snd b))
     && match best with None => true | Some b' => snd b <? snd b' end
  then Some b else best.

Definition bestFit_of (best : option (Z * Z)) : Z :=
  match best with None => nullptr | Some b => fst b end.

Definition bestFitTotalSize_of (size alignment : Z) (best : option (Z * Z))
    : Z :=
  match best with
  | None => 0
  | Some b => totalSize_for size alignment (fst b)
  end.

Definition bestFitAdjustment_of (alignment : Z) (best : option (Z * Z)) : Z :=
  match best with None => 0 | Some b => adjustment_for alignment (fst b) end.

(** Address of the last block of a list ([prv] for the empty list) and of
    its first block ([q] for the empty list). *)
Fixpoint last_addr (l : list (Z * Z)) (prv : Z) : Z :=
  match l with
  | [] => prv
  | (x, _) :: l' => last_addr l' x
  end.

Definition head_addr (l : list (Z * Z)) (q : Z) : Z :=
  match l with
  | [] => q
  | (x, _) :: _ => x
  end.

(** The record at [x] reads the same in [m'] as in [m]. *)
Definition untouched (m m' : memory) (x : Z) : Prop :=
  FreeBlock.size m' x = FreeBlock.size m x /\
  FreeBlock.next m' x = FreeBlock.next m x /\
  FreeBlock.prev m' x = FreeBlock.prev m x.

(** ** Clients *)

(** A client is a sequence of calls on one allocator.  [CallFree i] frees the
    [i]-th pointer the client obtained, [CallFill i n byte] writes [n] bytes
    of value [byte] into the payload of that pointer. *)
Inductive call : Type :=
| CallAllocate (size alignment : Z)
| CallFill (i : nat) (n : nat) (byte : Z)
| CallFree (i : nat).

Fixpoint fill (n : nat) (m : memory) (p byte : Z) : memory :=
  match n with
  | O => m
  | S k => fill k (store_u8 m p byte) (p + 1) byte
  end.

(** Runs the calls in order; an exception or failed assertion ends the run,
    [None] means that a loop ran out of fuel. *)
Fixpoint run (fuel : nat) (calls : list call) (self : FreeListAllocator)
    (m : memory) (ptrs : list Z)
    : option (outcome (list Z) * FreeListAllocator * memory) :=
  match calls with
  | [] => Some (Returned ptrs, self, m)
  | CallAllocate size alignment :: rest =>
    match Allocate fuel self m size alignment with
    | None => None
    | Some (Returned p, self, m) => run fuel rest self m (ptrs ++ [p])
    | Some (bad_alloc, self, m) => Some (bad_alloc, self, m)
    | Some (assertion_failure, self, m) => Some (assertion_failure, self, m)
    end
  | CallFill i n byte :: rest =>
    run fuel rest self (fill n m (nth i ptrs nullptr) byte) ptrs
  | CallFree i :: rest =>
    match Free fuel self m (nth i ptrs nullptr) with
    | None => None
    | Some (Returned _, self, m) => run fuel rest self m ptrs
    | Some (bad_alloc, self, m) => Some (bad_alloc, self, m)
    | Some (assertion_failure, self, m) => Some (assertion_failure, self, m)
    end
  end.

(** Constructs the allocator over [sizeBytes] bytes at [start] and runs the
    calls on it. *)
Definition session (sizeBytes start : Z) (m0 : memory) (fuel : nat)
    (calls : list call)
    : option (outcome (list Z) * FreeListAllocator * memory) :=
  match FreeListAllocator_ctor sizeBytes start m0 with
  | Returned (self, m) => run fuel calls self m []
  | bad_alloc => Some (bad_alloc, mkFreeListAllocator
                         (mkAllocator 0 0 0 nullptr) nullptr, m0)
  | assertion_failure =>
      Some (assertion_failure,
            mkFreeListAllocator (mkAllocator 0 0 0 nullptr) nullptr, m0)
  end.

(** The blocks of the free list, read from memory by following [next]. *)
Fixpoint free_list (fuel : nat) (m : memory) (p : Z) : list (Z * Z) :=
  match fuel with
  | O => []
  | S k =>
    if p =? nullptr then []
    else (p, FreeBlock.size m p) :: free_list k m (FreeBlock.next m p)
  end.

(** What a client can observe at the end of a run: the outcome, [GetUsed()],
    [GetNumAllocation()] and the free list. *)
Definition report
    (r : option (outcome (list Z) * FreeListAllocator * memory))
    : option (outcome (list Z) * Z * Z * list (Z * Z)) :=
  match r with
  | Some (o, self, m) =>
      Some (o, GetUsed (base self), GetNumAllocation (base self),
            free_list 16 m (m_freeBlocks self))
  | None => None
  end.

(** The first [n] bytes of the payload of the [i]-th pointer. *)
Definition payload (n : nat)
    (r : option (outcome (list Z) * FreeListAllocator * memory)) (i : nat)
    : list Z :=
  match r with
  | Some (Returned ps, _, m) =>
      map (fun k => load_u8 m (nth i ps nullptr + Z.of_nat k)) (seq 0 n)
  | _ => []
  end.

(** A free list with blocks of 50, 200 and 100 bytes, written into an
    otherwise zeroed memory. *)
Definition example_blocks : list (Z * Z) :=
  [(4096, 50); (4256, 200); (4608, 100)].

Definition write_block (m : memory) (a s nxt prv : Z) : memory :=
  FreeBlock.set_prev (FreeBlock.set_next (FreeBlock.set_size m a s) a nxt) a prv.

Definition example_memory : memory :=
  write_block
    (write_block
       (write_block (fun _ => 0) 4096 50 4256 nullptr)
       4256 200 4608 4096)
    4608 100 nullptr 4256.

Definition example_allocator : FreeListAllocator :=
  mkFreeListAllocator (mkAllocator 1024 0 0 4096) 4096.

(** Components of the result of a call. *)
Definition returned_pointer
    (r : option (outcome Z * FreeListAllocator * memory)) : Z :=
  match r with
  | Some (Returned p, _, _) => p
  | _ => nullptr
  end.

Definition has_returned
    (r : option (outcome Z * FreeListAllocator * memory)) : bool :=
  match r with
  | Some (Returned _, _, _) => true
  | _ => false
  end.

Definition allocator_after {A : Type}
    (r : option (outcome A * FreeListAllocator * memory))
    : FreeListAllocator :=
  match r with
  | Some (_, self, _) => self
  | None => mkFreeListAllocator (mkAllocator 0 0 0 nullptr) nullptr
  end.

Definition memory_after {A : Type}
    (r : option (outcome A * FreeListAllocator * memory)) : memory :=
  match r with
  | Some (_, _, m) => m
  | None => fun _ => 0
  end.

(** Two allocators over two different arenas. *)
Definition arena_one : FreeListAllocator :=
  mkFreeListAllocator (mkAllocator 300 0 0 4096) 4096.
Definition arena_two : FreeListAllocator :=
  mkFreeListAllocator (mkAllocator 300 0 0 8192) 8192.

(** ** Moves and destruction *)

(** The state in which a move leaves its source: [m_start = nullptr] and the
    size and both counters 0. *)
Definition moved_from : Allocator := mkAllocator 0 0 0 nullptr.

(** [Allocator::Allocator(Allocator&& other)]: the new object, and [other]
    after the call. *)
Definition Allocator_move_ctor (other : Allocator) : Allocator * Allocator :=
  (mkAllocator (m_size other) (m_usedBytes other) (m_numAllocations other)
     (m_start other),
   moved_from).

(** The two operands of an assignment are two objects, or one and the same
    object ([this == &rhs]). *)
Inductive operands (T : Type) : Type :=
| Distinct (this rhs : T)
| Same (object : T).
Arguments Distinct {T} this rhs.
Arguments Same {T} object.

(** [Allocator::operator=(Allocator&& rhs)].  There is no test for
    self-assignment: with one object, the fields are copied onto themselves
    and then reset. *)
Definition Allocator_move_assign (ops : operands Allocator)
    : operands Allocator :=
  match ops with
  | Distinct this rhs =>
      Distinct
        (mkAllocator (m_size rhs) (m_usedBytes rhs) (m_numAllocations rhs)
           (m_start rhs))
        moved_from
  | Same _ => Same moved_from
  end.

(** [FreeListAllocator::FreeListAllocator(FreeListAllocator&& other)]. *)
Definition FreeListAllocator_move_ctor (other : FreeListAllocator)
    : FreeListAllocator * FreeListAllocator :=
  let '(b, other_base) := Allocator_move_ctor (base other) in
  (mkFreeListAllocator b (m_freeBlocks other),
   mkFreeListAllocator other_base nullptr).

(** [FreeListAllocator::operator=(FreeListAllocator&& rhs)], with its test
    [this != &rhs]. *)
Definition FreeListAllocator_move_assign (ops : operands FreeListAllocator)
    : operands FreeListAllocator :=
  match ops with
  | Distinct this rhs =>
      match Allocator_move_assign (Distinct (base this) (base rhs)) with
      | Distinct this_base rhs_base =>
          Distinct (mkFreeListAllocator this_base (m_freeBlocks rhs))
                   (mkFreeListAllocator rhs_base nullptr)
      | Same b => Same (mkFreeListAllocator b nullptr)
      end
  | Same object => Same object
  end.

(** [Allocator::~Allocator()]. *)
Definition Allocator_dtor (a : Allocator) : outcome unit :=
  if (m_numAllocations a =? 0) && (m_usedBytes a =? 0)
  then Returned tt
  else assertion_failure.

(** [FreeListAllocator::~FreeListAllocator()]: its own assertion, then the
    destructor of the base class. *)
Definition FreeListAllocator_dtor (self : FreeListAllocator) : outcome unit :=
  if (m_numAllocations (base self) =? 0) && (m_usedBytes (base self) =? 0)
  then Allocator_dtor (base self)
  else assertion_failure.

(** ** The adaptor's forwarding functions *)

(** The element type [T] of an adaptor, as far as the adaptor uses it. *)
Record element_type : Type := mkElementType {
  sizeof_T : Z;
  alignof_T : Z
}.

(** [STLAdaptor<T, FreeListAllocator>::allocate(n)]; the allocator behind
    the reference is returned with the pointer. *)
Definition STLAdaptor_allocate (T : element_type) (fuel : nat)
    (self : STLAdaptor FreeListAllocator) (m : memory) (n : Z)
    : option (outcome Z * STLAdaptor FreeListAllocator * memory) :=
  match Allocate fuel (m_allocator self) m (wrap64 (n * sizeof_T T))
          (alignof_T T) with
  | None => None
  | Some (o, a, m) => Some (o, mkSTLAdaptor a, m)
  end.

(** [STLAdaptor<T, FreeListAllocator>::deallocate(p, n)]. *)
Definition STLAdaptor_deallocate (fuel : nat)
    (self : STLAdaptor FreeListAllocator) (m : memory) (p n : Z)
    : option (outcome unit * STLAdaptor FreeListAllocator * memory) :=
  match Free fuel (m_allocator self) m p with
  | None => None
  | Some (o, a, m) => Some (o, mkSTLAdaptor a, m)
  end.

(** [STLAdaptor::MaxAllocationSize()]. *)
Definition MaxAllocationSize {Alloc : Type} `{AllocatorClass Alloc}
    (self : STLAdaptor Alloc) : Z :=
  GetSize (as_Allocator (m_allocator self)).

(** [DynamicAllocator::DynamicAllocator(sizeBytes, start)]. *)
Definition DynamicAllocator_ctor (sizeBytes start : Z) (m : memory)
    : outcome (DynamicAllocator * memory) :=
  match Allocator_ctor sizeBytes start with
  | Returned b =>
      let m_currentBlock := start in
      let m := store_u64 m m_currentBlock nullptr in
      Returned (mkDynamicAllocator b m_currentBlock, m)
  | bad_alloc => bad_alloc
  | assertion_failure => assertion_failure
  end.

(** ** Chains of block descriptors *)

(** A chain of [BlockDesc] records: from [p] the [prevBlock] pointers lead
    through the blocks of [chain] to the root [r], whose [prevBlock] is
    null. *)
Fixpoint block_chain (m : memory) (p : Z) (chain : list Z) (r : Z) : Prop :=
  match chain with
  | [] => p = r /\ BlockDesc.prevBlock m r = nullptr
  | b :: chain' =>
      p = b /\ BlockDesc.prevBlock m b <> nullptr /\
      block_chain m (BlockDesc.prevBlock m b) chain' r
  end.

(** Lines 179-215 of [Free]: the new record, the two coalescing steps and
    the re-linking, from the insertion point the scan found. *)
Definition Free_link (self : FreeListAllocator) (m : memory)
    (blockStart blockSize prevFreeBlock freeBlock : Z)
    : FreeListAllocator * memory * Z :=
  let m := Free_insert m blockStart blockSize prevFreeBlock freeBlock in
  let '(m, newBlock) := Free_coalesce_backward m blockStart in
  let m := Free_coalesce_forward m newBlock in
  let '(self, m) := Free_relink self m newBlock in
  (self, m, newBlock).

(** ** The free list after a [Free], as a list of blocks *)

(** A block [(b, bs)] put in front of the blocks [l]: it takes up the first
    block of [l] when that block starts where [(b, bs)] ends. *)
Definition absorb (b bs : Z) (l : list (Z * Z)) : list (Z * Z) :=
  match l with
  | (n, ns) :: l' => if b + bs =? n then (b, bs + ns) :: l' else (b, bs) :: l
  | [] => [(b, bs)]
  end.

(** The block [(b, bs)] returned to an address-ordered list: it goes before
    the first block with a higher address, joined to the block before it
    when that one ends at [b], and to the block after it when that one
    starts at [b + bs]. *)
Fixpoint release (b bs : Z) (l : list (Z * Z)) : list (Z * Z) :=
  match l with
  | [] => [(b, bs)]
  | (x, sx) :: l' =>
      if b <? x then absorb b bs l
      else if x + sx =? b then absorb x (sx + bs) l'
      else (x, sx) :: release b bs l'
  end.

(** A live allocation, as [Free] expects to find it: the block [(b, bs)]
    was taken from the free list [l], the user pointer is [b + adj], and
    the header before the pointer records [bs] and [adj].  The block
    overlaps no free block; a free block next to it touches it or is a
    header's worth of bytes away, and a free block before it has room for
    its own record. *)
Definition allocated (m : memory) (l : list (Z * Z)) (b bs adj : Z) : Prop :=
  1 <= b /\ b + bs <= 2 ^ 64 /\
  sizeof_AllocationHeader <= adj /\ adj + sizeof_AllocationHeader <= bs /\
  AllocationHeader.size m (b + adj - sizeof_AllocationHeader) = bs /\
  AllocationHeader.adjustment m (b + adj - sizeof_AllocationHeader) = adj /\
  forall x sx, In (x, sx) l ->
    (x + sizeof_FreeBlock <= b /\
     (x + sx = b \/ x + sx + sizeof_AllocationHeader <= b)) \/
    (b + bs = x \/ b + bs + sizeof_AllocationHeader <= x).

(** Whether a call of [Free] returned. *)
Definition has_freed
    (r : option (outcome unit * FreeListAllocator * memory)) : bool :=
  match r with
  | Some (Returned _, _, _) => true
  | _ => false
  end.

(** Two [BlockDesc] records in an otherwise zeroed memory: the block at 200
    follows the root block at 100. *)
Definition example_chain : memory :=
  store_u64 (store_u64 (fun _ => 0) 100 nullptr) 200 100.

(** [STLAdaptor<T, Allocator>] bound to a [FreeListAllocator] object: the
    adaptor holds a reference to the abstract base class.  [FixedAllocator]
    is not a base of [Allocator], and the object is not a
    [DynamicAllocator]. *)
Definition through_Allocator : AllocatorClass FreeListAllocator := {|
  as_Allocator := base;
  is_base_of_FixedAllocator := false;
  dynamic_cast_DynamicAllocator := fun _ => None
|}.

(** * Proofs *)

(** ** Machine arithmetic and the header/alignment function *)

Lemma wrap64_small z : 0 <= z < 2 ^ 64 -> wrap64 z = z.
Proof. intros; unfold wrap64; apply Z.mod_small; assumption. Qed.

Lemma wrap64_range z : 0 <= wrap64 z < 2 ^ 64.
Proof. unfold wrap64; apply Z.mod_pos_bound; lia. Qed.

Lemma pow2_divides_word k : 0 <= k <= 64 -> 2 ^ 64 = 2 ^ k * 2 ^ (64 - k).
Proof. intros; rewrite <- Z.pow_add_r by lia; f_equal; lia. Qed.

Lemma wrap64_mod_pow2 z k : 0 <= k <= 64 -> (wrap64 z) mod 2 ^ k = z mod 2 ^ k.
Proof.
  intros Hk. unfold wrap64.
  apply Z.mod_mod_divide.
  exists (2 ^ (64 - k)). rewrite (pow2_divides_word k Hk). lia.
Qed.

Lemma land_not_mask x k :
  0 <= k < 64 -> 0 <= x < 2 ^ 64 ->
  Z.land x (not64 (wrap64 (2 ^ k - 1))) = x - x mod 2 ^ k.
Proof.
  intros Hk Hx.
  assert (Hp : 0 < 2 ^ k < 2 ^ 64).
  { split; [lia|]. apply Z.pow_lt_mono_r; lia. }
  rewrite wrap64_small by lia.
  replace (x - x mod 2 ^ k) with (Z.shiftl (Z.shiftr x k) k).
  2:{ rewrite Z.shiftl_mul_pow2, Z.shiftr_div_pow2 by lia.
      pose proof (Z.div_mod x (2 ^ k)); lia. }
  apply Z.bits_inj'. intros n Hn.
  rewrite Z.land_spec. unfold not64, wrap64.
  rewrite Z.testbit_mod_pow2 by lia.
  rewrite Z.lnot_spec by lia.
  change (2 ^ k - 1) with (Z.pred (2 ^ k)). rewrite <- Z.ones_equiv.
  destruct (Z.ltb_spec n 64) as [Hlt|Hge]; cbn [andb].
  - destruct (Z.ltb_spec n k) as [Hlk|Hgk].
    + rewrite Z.ones_spec_low by lia. rewrite Z.shiftl_spec_low by lia.
      cbn. apply andb_false_r.
    + rewrite Z.ones_spec_high by lia. rewrite Z.shiftl_spec by lia.
      rewrite Z.shiftr_spec by lia. cbn. rewrite andb_true_r. f_equal. lia.
  - rewrite andb_false_r.
    rewrite Z.shiftl_spec by lia. rewrite Z.shiftr_spec by lia.
    replace (n - k + k) with n by lia.
    rewrite <- (Z.mod_small x (2 ^ 64)) by lia.
    symmetry. apply Z.mod_pow2_bits_high. lia.
Qed.

Lemma pow2_bounds k : 0 <= k < 64 -> 0 < 2 ^ k <= 2 ^ 63.
Proof. intros; split; [lia|apply Z.pow_le_mono_r; lia]. Qed.

Lemma padding_congr p k :
  0 <= k < 64 -> (p + padding p (2 ^ k)) mod 2 ^ k = 0.
Proof.
  intros Hk. unfold padding.
  rewrite land_not_mask by (auto using wrap64_range).
  rewrite Z.add_mod by lia.
  rewrite wrap64_mod_pow2 by lia.
  rewrite <- Z.add_mod by lia.
  set (y := wrap64 _).
  replace (p + (y - y mod 2 ^ k - p)) with (y - y mod 2 ^ k) by lia.
  rewrite Zminus_mod, Z.mod_mod, Z.sub_diag by lia. reflexivity.
Qed.

Lemma padding_range p k :
  0 <= k < 64 -> 0 <= p < 2 ^ 64 -> 0 <= padding p (2 ^ k) < 2 ^ k.
Proof.
  intros Hk Hp. pose proof (pow2_bounds k Hk) as Ha.
  unfold padding.
  rewrite land_not_mask by (auto using wrap64_range).
  rewrite (wrap64_small (2 ^ k - 1)) by lia.
  assert (H63 : 2 ^ 64 = 2 * 2 ^ 63) by reflexivity.
  destruct (Z_lt_ge_dec (p + (2 ^ k - 1)) (2 ^ 64)) as [Hlt|Hge].
  - rewrite (wrap64_small (p + _)) by lia.
    pose proof (Z.mod_pos_bound (p + (2 ^ k - 1)) (2 ^ k) ltac:(lia)).
    rewrite wrap64_small by lia. lia.
  - assert (Hy : wrap64 (p + (2 ^ k - 1)) = p + (2 ^ k - 1) - 2 ^ 64).
    { unfold wrap64. symmetry. apply Z.mod_unique with (q := 1); lia. }
    rewrite Hy.
    pose proof (Z.mod_pos_bound (p + (2 ^ k - 1) - 2 ^ 64) (2 ^ k) ltac:(lia)).
    set (r := (p + (2 ^ k - 1) - 2 ^ 64) mod 2 ^ k) in *.
    assert (Hw : wrap64 (p + (2 ^ k - 1) - 2 ^ 64 - r - p) = 2 ^ k - 1 - r).
    { unfold wrap64. symmetry. apply Z.mod_unique with (q := -1); lia. }
    rewrite Hw. lia.
Qed.

Lemma align_unfold p a :
  align_forward_adjustment_with_header sizeof_AllocationHeader p a =
  let adjustment := padding p a in
  if adjustment <? sizeof_AllocationHeader then
    wrap64 (adjustment + wrap64 (a * (wrap64 (wrap64 (wrap64
      (sizeof_AllocationHeader - adjustment) + a) - 1) / a)))
  else adjustment.
Proof. reflexivity. Qed.

Lemma align_congr p k :
  0 <= k < 64 ->
  (p + align_forward_adjustment_with_header sizeof_AllocationHeader p (2 ^ k))
    mod 2 ^ k = 0.
Proof.
  intros Hk. rewrite align_unfold. cbv zeta.
  pose proof (padding_congr p k Hk) as Hc.
  destruct (_ <? _); [|exact Hc].
  rewrite Z.add_mod by lia. rewrite wrap64_mod_pow2 by lia.
  rewrite <- Z.add_mod by lia.
  rewrite Z.add_assoc, Z.add_mod by lia.
  rewrite Hc, Z.add_0_l, Z.mod_mod by lia.
  rewrite wrap64_mod_pow2 by lia.
  rewrite Z.mul_comm. apply Z.mod_mul. lia.
Qed.

Lemma align_value p k :
  0 <= k < 64 -> 0 <= p < 2 ^ 64 ->
  let a := 2 ^ k in
  let pad := padding p a in
  align_forward_adjustment_with_header sizeof_AllocationHeader p a =
  if pad <? 16 then pad + a * ((16 - pad + a - 1) / a) else pad.
Proof.
  intros Hk Hp a pad. rewrite align_unfold. cbv zeta. fold a. fold pad.
  pose proof (pow2_bounds k Hk) as Ha. fold a in Ha.
  pose proof (padding_range p k Hk Hp) as Hr. fold a in Hr. fold pad in Hr.
  unfold sizeof_AllocationHeader.
  assert (H63 : 2 ^ 63 = 9223372036854775808) by reflexivity.
  assert (H64 : 2 ^ 64 = 18446744073709551616) by reflexivity.
  destruct (Z.ltb_spec pad 16) as [Hlt|Hge]; [|reflexivity].
  rewrite (wrap64_small (16 - pad)) by lia.
  rewrite (wrap64_small (16 - pad + a)) by lia.
  rewrite (wrap64_small (16 - pad + a - 1)) by lia.
  assert (Hq : 0 <= a * ((16 - pad + a - 1) / a) <= 16 - pad + a - 1).
  { split.
    - apply Z.mul_nonneg_nonneg; [lia|]. apply Z.div_pos; lia.
    - apply Z.mul_div_le. lia. }
  rewrite (wrap64_small (a * _)) by lia.
  rewrite wrap64_small by lia. reflexivity.
Qed.

Lemma align_ge_header p k :
  0 <= k < 64 -> 0 <= p < 2 ^ 64 ->
  sizeof_AllocationHeader <=
  align_forward_adjustment_with_header sizeof_AllocationHeader p (2 ^ k).
Proof.
  intros Hk Hp. rewrite (align_value p k Hk Hp). cbv zeta.
  pose proof (pow2_bounds k Hk) as Ha.
  pose proof (padding_range p k Hk Hp) as Hr.
  set (a := 2 ^ k) in *. set (pad := padding p a) in *.
  unfold sizeof_AllocationHeader.
  destruct (Z.ltb_spec pad 16) as [Hlt|Hge]; [|lia].
  pose proof (Z.div_mod (16 - pad + a - 1) a ltac:(lia)).
  pose proof (Z.mod_pos_bound (16 - pad + a - 1) a ltac:(lia)).
  lia.
Qed.

Lemma align_minimal p k adj' :
  0 <= k < 64 -> 0 <= p < 2 ^ 64 ->
  sizeof_AllocationHeader <= adj' ->
  (p + adj') mod 2 ^ k = 0 ->
  align_forward_adjustment_with_header sizeof_AllocationHeader p (2 ^ k)
    <= adj'.
Proof.
  intros Hk Hp Hadj Hmod. rewrite (align_value p k Hk Hp). cbv zeta.
  pose proof (pow2_bounds k Hk) as Ha.
  pose proof (padding_range p k Hk Hp) as Hr.
  pose proof (padding_congr p k Hk) as Hc.
  set (a := 2 ^ k) in *. set (pad := padding p a) in *.
  unfold sizeof_AllocationHeader in *.
  (* adj' is pad plus a multiple of a *)
  assert (Hj : exists j, adj' = pad + a * j).
  { apply Z.mod_divide in Hmod; [|lia]. apply Z.mod_divide in Hc; [|lia].
    destruct Hmod as [u Hu]. destruct Hc as [v Hv].
    exists (u - v). lia. }
  destruct Hj as [j Hj].
  assert (Hj0 : 0 <= j) by nia.
  destruct (Z.ltb_spec pad 16) as [Hlt|Hge]; [|nia].
  pose proof (Z.div_mod (16 - pad + a - 1) a ltac:(lia)) as Hd.
  pose proof (Z.mod_pos_bound (16 - pad + a - 1) a ltac:(lia)) as Hb.
  set (q := (16 - pad + a - 1) / a) in *.
  destruct (Z_lt_ge_dec j q) as [Hjq|Hjq]; [|nia].
  exfalso. assert (a * j <= a * (q - 1)) by nia. nia.
Qed.

(** ** Loads and stores *)


Lemma pow256_pos n : 0 < 256 ^ Z.of_nat n.
Proof. apply Z.pow_pos_nonneg; lia. Qed.

Lemma pow256_succ n : 256 ^ Z.of_nat (S n) = 256 * 256 ^ Z.of_nat n.
Proof. rewrite Nat2Z.inj_succ, Z.pow_succ_r by lia. reflexivity. Qed.

Lemma load_le_range n m a : 0 <= load_le n m a < 256 ^ Z.of_nat n.
Proof.
  revert a. induction n as [|n IH]; intros a.
  - cbn. lia.
  - cbn [load_le]. rewrite pow256_succ.
    pose proof (IH (a + 1)). pose proof (Z.mod_pos_bound (m a) 256 ltac:(lia)).
    lia.
Qed.

Lemma load_le_ext n m m' a :
  (forall x, a <= x < a + Z.of_nat n -> m' x mod 256 = m x mod 256) ->
  load_le n m' a = load_le n m a.
Proof.
  revert a. induction n as [|n IH]; intros a H; cbn [load_le]; [reflexivity|].
  rewrite H by lia. rewrite IH; [reflexivity|].
  intros x Hx. apply H. lia.
Qed.

Lemma store_le_inside n m a v x :
  a <= x < a + Z.of_nat n ->
  store_le n m a v x = (v / 256 ^ (x - a)) mod 256.
Proof.
  intros H. unfold store_le.
  destruct (Z.leb_spec a x); [|lia].
  destruct (Z.ltb_spec x (a + Z.of_nat n)); [|lia]. reflexivity.
Qed.

Lemma store_le_outside n m a v x :
  x < a \/ a + Z.of_nat n <= x -> store_le n m a v x = m x.
Proof.
  intros H. unfold store_le.
  destruct (Z.leb_spec a x); [|reflexivity].
  destruct (Z.ltb_spec x (a + Z.of_nat n)); [lia|reflexivity].
Qed.

Lemma load_le_bytes n : forall a m v,
  (forall x, a <= x < a + Z.of_nat n ->
     m x mod 256 = (v / 256 ^ (x - a)) mod 256) ->
  load_le n m a = v mod 256 ^ Z.of_nat n.
Proof.
  induction n as [|n IH]; intros a m v H.
  - cbn. rewrite Z.mod_1_r. reflexivity.
  - cbn [load_le]. rewrite pow256_succ.
    rewrite (IH (a + 1) m (v / 256)).
    + rewrite (H a) by lia. rewrite Z.sub_diag, Z.pow_0_r, Z.div_1_r.
      rewrite Z.rem_mul_r by (pose proof (pow256_pos n); lia). reflexivity.
    + intros x Hx. rewrite H by lia.
      rewrite Z.div_div by (try apply Z.pow_pos_nonneg; lia).
      replace (x - a) with (Z.succ (x - (a + 1))) by lia.
      rewrite Z.pow_succ_r by lia. reflexivity.
Qed.

Lemma load_le_store_le_same n m a v :
  load_le n (store_le n m a v) a = v mod 256 ^ Z.of_nat n.
Proof.
  apply load_le_bytes. intros x Hx.
  rewrite store_le_inside by lia. apply Z.mod_mod. lia.
Qed.

Lemma load_le_store_le_other k n m a v b :
  b + Z.of_nat k <= a \/ a + Z.of_nat n <= b ->
  load_le k (store_le n m a v) b = load_le k m b.
Proof.
  intros H. apply load_le_ext. intros x Hx.
  rewrite store_le_outside by lia. reflexivity.
Qed.

Lemma byte_of_mod n v i :
  0 <= i < Z.of_nat n ->
  ((v mod 256 ^ Z.of_nat n) / 256 ^ i) mod 256 = (v / 256 ^ i) mod 256.
Proof.
  intros Hi.
  replace (Z.of_nat n) with (i + (1 + (Z.of_nat n - i - 1))) by lia.
  rewrite !Z.pow_add_r by lia. rewrite Z.pow_1_r.
  assert (HA : 0 < 256 ^ i) by (apply Z.pow_pos_nonneg; lia).
  assert (HB : 0 < 256 ^ (Z.of_nat n - i - 1)) by (apply Z.pow_pos_nonneg; lia).
  set (A := 256 ^ i) in *. set (B := 256 ^ (Z.of_nat n - i - 1)) in *.
  pose proof (Z.div_mod v (A * (256 * B)) ltac:(lia)) as Hv.
  set (r := v mod (A * (256 * B))) in *.
  set (q := v / (A * (256 * B))) in *.
  rewrite Hv at 1.
  replace (A * (256 * B) * q + r) with ((256 * B * q) * A + r) by ring.
  rewrite Z.div_add_l by lia.
  replace (256 * B * q + r / A) with (r / A + (B * q) * 256) by ring.
  rewrite Z.mod_add by lia. reflexivity.
Qed.

(** Storing the value a location already holds changes no byte. *)
Lemma store_le_same_value n m a v :
  load_le n m a = v mod 256 ^ Z.of_nat n ->
  same_bytes m (store_le n m a v).
Proof.
  revert a v m. induction n as [|n IH]; intros a v m H x.
  - rewrite store_le_outside by lia. reflexivity.
  - destruct (Z_lt_ge_dec x a) as [Hlo|Hlo];
      [rewrite store_le_outside by lia; reflexivity|].
    destruct (Z_lt_ge_dec x (a + Z.of_nat (S n))) as [Hhi|Hhi];
      [|rewrite store_le_outside by lia; reflexivity].
    rewrite store_le_inside by lia. rewrite Z.mod_mod by lia.
    rewrite <- (byte_of_mod (S n)) by lia. rewrite <- H.
    clear H IH. revert a x Hlo Hhi. generalize (S n). clear n.
    induction n as [|n IH]; intros a x Hlo Hhi; [lia|].
    cbn [load_le].
    destruct (Z.eq_dec x a) as [->|Hne].
    + rewrite Z.sub_diag, Z.pow_0_r, Z.div_1_r.
      replace (m a mod 256 + 256 * load_le n m (a + 1))
        with (m a mod 256 + load_le n m (a + 1) * 256) by ring.
      rewrite Z.mod_add by lia. apply Z.mod_mod. lia.
    + replace (x - a) with (Z.succ (x - (a + 1))) by lia.
      rewrite Z.pow_succ_r by lia.
      rewrite <- Z.div_div by (try apply Z.pow_pos_nonneg; lia).
      replace (m a mod 256 + 256 * load_le n m (a + 1))
        with (load_le n m (a + 1) * 256 + m a mod 256) by ring.
      rewrite Z.div_add_l by lia.
      rewrite (Z.div_small (m a mod 256)) by (apply Z.mod_pos_bound; lia).
      rewrite Z.add_0_r. apply IH; lia.
Qed.


(** ** The search loop on a linked list *)

Lemma same_bytes_refl m : same_bytes m m.
Proof. intros x; reflexivity. Qed.

Lemma same_bytes_trans m1 m2 m3 :
  same_bytes m1 m2 -> same_bytes m2 m3 -> same_bytes m1 m3.
Proof. intros H1 H2 x. rewrite H2. apply H1. Qed.

Lemma load_le_same_bytes n m m' a :
  same_bytes m m' -> load_le n m' a = load_le n m a.
Proof. intros H. apply load_le_ext. intros x _. apply H. Qed.

Lemma FreeBlock_size_same_bytes m m' p :
  same_bytes m m' -> FreeBlock.size m' p = FreeBlock.size m p.
Proof.
  intros H. unfold FreeBlock.size, load_int.
  rewrite (load_le_same_bytes _ _ _ _ H). reflexivity.
Qed.

Lemma FreeBlock_next_same_bytes m m' p :
  same_bytes m m' -> FreeBlock.next m' p = FreeBlock.next m p.
Proof. intros H. apply load_le_same_bytes, H. Qed.

Lemma FreeBlock_prev_same_bytes m m' p :
  same_bytes m m' -> FreeBlock.prev m' p = FreeBlock.prev m p.
Proof. intros H. apply load_le_same_bytes, H. Qed.

Lemma store_u64_same_value m a v :
  load_u64 m a = v -> same_bytes m (store_u64 m a v).
Proof.
  intros H. apply store_le_same_value. fold (load_u64 m a). rewrite H.
  symmetry. apply Z.mod_small. rewrite <- H. apply load_le_range.
Qed.

Lemma lseg_same_bytes m m' :
  same_bytes m m' ->
  forall l prv p q, lseg m prv p l q -> lseg m' prv p l q.
Proof.
  intros H. induction l as [|[a s] l IH]; intros prv p q Hl; cbn [lseg] in *.
  - exact Hl.
  - destruct Hl as (-> & Ha & Hs & Hp & Hl).
    rewrite (FreeBlock_size_same_bytes _ _ _ H).
    rewrite (FreeBlock_prev_same_bytes _ _ _ H).
    rewrite (FreeBlock_next_same_bytes _ _ _ H).
    repeat split; auto.
Qed.

Section Search.
Variables size alignment : Z.

Lemma Allocate_search_lseg :
  forall l m prv p best fuel,
  lseg m prv p l nullptr ->
  prv = nullptr \/ FreeBlock.next m prv = p ->
  (length l < fuel)%nat ->
  (forall b, best = Some b -> fst b <> nullptr /\ FreeBlock.size m (fst b) = snd b) ->
  exists m',
    same_bytes m m' /\
    Allocate_search fuel size alignment m p
      (bestFit_of best) (bestFitTotalSize_of size alignment best) (bestFitAdjustment_of alignment best)
    = Some (m', bestFit_of (fold_left (pick size alignment) l best),
            bestFitTotalSize_of size alignment (fold_left (pick size alignment) l best),
            bestFitAdjustment_of alignment (fold_left (pick size alignment) l best)).
Proof.
  induction l as [|[a s] l IH]; intros m prv p best fuel Hl Hprv Hfuel Hbest.
  - cbn [lseg] in Hl. subst p. destruct fuel as [|fuel]; [cbn in Hfuel; lia|].
    exists m. split; [apply same_bytes_refl|]. reflexivity.
  - destruct fuel as [|fuel]; [cbn in Hfuel; lia|].
    cbn [lseg] in Hl. destruct Hl as (-> & Ha & Hs & Hp & Hl).
    cbn [Allocate_search fold_left].
    destruct (Z.eqb_spec a nullptr) as [|_]; [contradiction|].
    fold (adjustment_for alignment a). fold (totalSize_for size alignment a).
    assert (Hcond :
      (totalSize_for size alignment a <? int_to_size_t (FreeBlock.size m a))
      && ((bestFit_of best =? nullptr)
          || (FreeBlock.size m a <? FreeBlock.size m (bestFit_of best)))
      = (totalSize_for size alignment a <? int_to_size_t s)
        && match best with None => true | Some b' => s <? snd b' end).
    { rewrite Hs. f_equal. destruct best as [b'|]; cbn.
      - destruct (Hbest b' eq_refl) as [Hn Hsz]. rewrite Hsz.
        destruct (Z.eqb_spec (fst b') nullptr); [contradiction|reflexivity].
      - reflexivity. }
    rewrite Hcond. clear Hcond. unfold pick at 2 4 6. cbn [fst snd].
    destruct (_ && _).
    + (* the block becomes the best fit: the two stores change no byte *)
      set (m1 := if negb (FreeBlock.next m a =? nullptr)
                 then FreeBlock.set_prev m (FreeBlock.next m a) a else m).
      assert (H1 : same_bytes m m1).
      { subst m1. destruct l as [|[a' s'] l].
        - cbn [lseg] in Hl. rewrite Hl. rewrite Z.eqb_refl. apply same_bytes_refl.
        - cbn [lseg] in Hl. destruct Hl as (Ha' & Hn' & _ & Hp' & _).
          rewrite Ha'.
          destruct (Z.eqb_spec a' nullptr); [contradiction|]. cbn [negb].
          apply store_u64_same_value. exact Hp'. }
      set (m2 := if negb (FreeBlock.prev m1 a =? nullptr)
                 then FreeBlock.set_next m1 (FreeBlock.prev m1 a) a else m1).
      assert (H2 : same_bytes m1 m2).
      { subst m2. rewrite (FreeBlock_prev_same_bytes _ _ _ H1), Hp.
        destruct (Z.eqb_spec prv nullptr); cbn [negb];
          [apply same_bytes_refl|].
        apply store_u64_same_value.
        fold (FreeBlock.next m1 prv).
        rewrite (FreeBlock_next_same_bytes _ _ _ H1).
        destruct Hprv; [contradiction|assumption]. }
      pose proof (same_bytes_trans _ _ _ H1 H2) as H12.
      destruct (IH m2 a (FreeBlock.next m2 a) (Some (a, s)) fuel)
        as (m' & Hm' & Hrun).
      * rewrite (FreeBlock_next_same_bytes _ _ _ H12).
        apply (lseg_same_bytes _ _ H12). exact Hl.
      * right. reflexivity.
      * cbn in Hfuel. lia.
      * intros b Hb. injection Hb as <-. cbn. split; [assumption|].
        rewrite (FreeBlock_size_same_bytes _ _ _ H12). exact Hs.
      * exists m'. split; [eapply same_bytes_trans; eassumption|].
        exact Hrun.
    + destruct (IH m a (FreeBlock.next m a) best fuel) as (m' & Hm' & Hrun);
        auto.
      * cbn in Hfuel. lia.
      * exists m'. split; assumption.
Qed.


Lemma Allocate_search_none :
  forall l m prv p fuel,
  lseg m prv p l nullptr ->
  (length l < fuel)%nat ->
  (forall b, In b l -> ~ qualifies size alignment b) ->
  Allocate_search fuel size alignment m p nullptr 0 0
  = Some (m, nullptr, 0, 0).
Proof.
  induction l as [|[a s] l IH]; intros m prv p fuel Hl Hfuel Hq;
    (destruct fuel as [|fuel]; [cbn in Hfuel; lia|]);
    cbn [lseg] in Hl.
  - subst p. reflexivity.
  - destruct Hl as (-> & Ha & Hs & Hp & Hl).
    cbn [Allocate_search].
    destruct (Z.eqb_spec a nullptr) as [|_]; [contradiction|].
    fold (adjustment_for alignment a). fold (totalSize_for size alignment a).
    rewrite Hs.
    destruct (Z.ltb_spec (totalSize_for size alignment a) (int_to_size_t s))
      as [Hlt|Hge].
    + exfalso. apply (Hq (a, s)); [left; reflexivity|exact Hlt].
    + cbn [andb]. apply (IH m a); auto.
      * cbn in Hfuel. lia.
      * intros b Hb. apply Hq. right. exact Hb.
Qed.

Lemma pick_snoc l x best :
  fold_left (pick size alignment) (l ++ [x]) best = pick size alignment (fold_left (pick size alignment) l best) x.
Proof. rewrite fold_left_app. reflexivity. Qed.

Lemma fold_left_pick_spec l :
  match fold_left (pick size alignment) l None with
  | None => forall b, In b l -> ~ qualifies size alignment b
  | Some b => exists i, best_fit_at size alignment l i b
  end.
Proof.
  unfold best_fit_at.
  pattern l. apply rev_ind; clear l; [|intros x l IH].
  - cbn [fold_left]. intros b Hb. destruct Hb.
  - rewrite pick_snoc. generalize dependent (fold_left (pick size alignment) l None).
    intros best IH. unfold pick.
    destruct (Z.ltb_spec (totalSize_for size alignment (fst x))
                         (int_to_size_t (snd x))) as [Hqx|Hqx]; cbn [andb].
    + destruct best as [b|].
      * destruct IH as (i & Hi & Hqb & Hmin).
        assert (Hil : (i < length l)%nat)
          by (apply nth_error_Some; congruence).
        destruct (Z.ltb_spec (snd x) (snd b)) as [Hlt|Hge]; cbn [andb].
        -- exists (length l). split; [|split].
           ++ rewrite nth_error_app2, Nat.sub_diag by lia. reflexivity.
           ++ exact Hqx.
           ++ intros j b' Hj Hq'.
              destruct (Nat.lt_ge_cases j (length l)) as [Hjl|Hjl].
              ** rewrite nth_error_app1 in Hj by lia.
                 destruct (Hmin j b' Hj Hq') as [Hle _]. lia.
              ** assert (j = length l).
                 { assert (j < length (l ++ [x]))%nat
                     by (apply nth_error_Some; congruence).
                   rewrite length_app in *. cbn in *. lia. }
                 subst j.
                 rewrite nth_error_app2, Nat.sub_diag in Hj by lia.
                 injection Hj as <-. lia.
        -- exists i. split; [|split].
           ++ rewrite nth_error_app1 by lia. exact Hi.
           ++ exact Hqb.
           ++ intros j b' Hj Hq'.
              destruct (Nat.lt_ge_cases j (length l)) as [Hjl|Hjl].
              ** rewrite nth_error_app1 in Hj by lia. apply Hmin; assumption.
              ** assert (j = length l).
                 { assert (j < length (l ++ [x]))%nat
                     by (apply nth_error_Some; congruence).
                   rewrite length_app in *. cbn in *. lia. }
                 subst j.
                 rewrite nth_error_app2, Nat.sub_diag in Hj by lia.
                 injection Hj as <-. lia.
      * cbn [andb]. exists (length l). split; [|split].
        -- rewrite nth_error_app2, Nat.sub_diag by lia. reflexivity.
        -- exact Hqx.
        -- intros j b' Hj Hq'.
           destruct (Nat.lt_ge_cases j (length l)) as [Hjl|Hjl].
           ++ rewrite nth_error_app1 in Hj by lia.
              exfalso. apply (IH b'); [eapply nth_error_In; eassumption|exact Hq'].
           ++ assert (j = length l).
              { assert (j < length (l ++ [x]))%nat
                  by (apply nth_error_Some; congruence).
                rewrite length_app in *. cbn in *. lia. }
              subst j.
              rewrite nth_error_app2, Nat.sub_diag in Hj by lia.
              injection Hj as <-. lia.
    + destruct best as [b|].
      * destruct IH as (i & Hi & Hqb & Hmin).
        assert (Hil : (i < length l)%nat)
          by (apply nth_error_Some; congruence).
        exists i. split; [|split].
        -- rewrite nth_error_app1 by lia. exact Hi.
        -- exact Hqb.
        -- intros j b' Hj Hq'.
           destruct (Nat.lt_ge_cases j (length l)) as [Hjl|Hjl].
           ++ rewrite nth_error_app1 in Hj by lia. apply Hmin; assumption.
           ++ assert (j = length l).
              { assert (j < length (l ++ [x]))%nat
                  by (apply nth_error_Some; congruence).
                rewrite length_app in *. cbn in *. lia. }
              subst j.
              rewrite nth_error_app2, Nat.sub_diag in Hj by lia.
              injection Hj as <-. unfold qualifies in Hq'. lia.
      * intros b Hb Hq'. apply in_app_or in Hb. destruct Hb as [Hb|[<-|[]]].
        -- exact (IH b Hb Hq').
        -- unfold qualifies in Hq'. lia.
Qed.

End Search.

(** ** Best fit and out of memory *)

Lemma lseg_In_nonnull m : forall l prv p q b,
  lseg m prv p l q -> In b l -> fst b <> nullptr.
Proof.
  induction l as [|[a s] l IH]; intros prv p q b Hl Hb; [destruct Hb|].
  cbn [lseg] in Hl. destruct Hl as (_ & Ha & _ & _ & Hl).
  destruct Hb as [<-|Hb]; [exact Ha|]. eapply IH; eassumption.
Qed.

Lemma Allocate_carve_pointer self m bestFit total adj :
  fst (fst (Allocate_carve self m bestFit total adj)) = wrap64 (bestFit + adj).
Proof.
  unfold Allocate_carve.
  repeat match goal with
         | |- context [if ?c then _ else _] => destruct c
         end; reflexivity.
Qed.

Lemma Allocate_carve_header_adjustment self m bestFit total adj :
  AllocationHeader.adjustment
    (snd (Allocate_carve self m bestFit total adj))
    (wrap64 (wrap64 (bestFit + adj) - sizeof_AllocationHeader))
  = wrap64 adj.
Proof.
  unfold Allocate_carve.
  repeat match goal with
         | |- context [if ?c then _ else _] => destruct c
         end; cbn [snd];
  unfold AllocationHeader.adjustment, AllocationHeader.set_size,
    AllocationHeader.set_adjustment, store_int, store_u64, load_u64;
  rewrite load_le_store_le_other by lia;
  rewrite load_le_store_le_same; reflexivity.
Qed.

Lemma adjustment_for_range alignment a :
  0 <= adjustment_for alignment a < 2 ^ 64.
Proof.
  unfold adjustment_for, align_forward_adjustment_with_header.
  destruct (_ <? _); apply wrap64_range.
Qed.

(** C1.  On a well-formed free list in which some block qualifies, [Allocate]
    (given fuel for the traversal) returns a pointer into the block chosen by
    best fit: the block at the position [i] where [best_fit_at] holds, that
    is, a qualifying block such that no qualifying block has a smaller size
    field and every qualifying block met earlier in the traversal is strictly
    larger.  The returned pointer is that block's address plus the
    adjustment computed for it, and the header written before the pointer
    records that adjustment.  With blocks of sizes 50, 200 and 100 and a
    request that only the last two can hold, this is the 100-byte block
    ([best_fit_50_200_100] below). *)
Theorem Allocate_best_fit self m l size alignment fuel :
  well_formed self m l ->
  (length l < fuel)%nat ->
  (exists b, In b l /\ qualifies size alignment b) ->
  exists i a s self' m',
    best_fit_at size alignment l i (a, s) /\
    Allocate fuel self m size alignment
    = Some (Returned (wrap64 (a + adjustment_for alignment a)), self', m') /\
    AllocationHeader.adjustment m'
      (wrap64 (wrap64 (a + adjustment_for alignment a)
               - sizeof_AllocationHeader))
    = adjustment_for alignment a.
Proof.
  intros [Hl _] Hfuel (b0 & Hb0 & Hq0).
  destruct (Allocate_search_lseg size alignment l m nullptr
              (m_freeBlocks self) None fuel Hl)
    as (m1 & Hm1 & Hrun); [left; reflexivity|assumption|discriminate|].
  pose proof (fold_left_pick_spec size alignment l) as Hspec.
  destruct (fold_left (pick size alignment) l None) as [[a s]|].
  2:{ exfalso. exact (Hspec b0 Hb0 Hq0). }
  destruct Hspec as (i & Hi).
  assert (Ha : a <> nullptr).
  { destruct Hi as (Hn & _).
    apply (lseg_In_nonnull m l _ _ _ (a, s) Hl).
    eapply nth_error_In; eassumption. }
  cbn [bestFit_of bestFitTotalSize_of bestFitAdjustment_of fst] in Hrun.
  unfold Allocate. cbn [bestFit_of bestFitTotalSize_of bestFitAdjustment_of] in *.
  rewrite Hrun.
  destruct (Z.eqb_spec a nullptr) as [|_]; [contradiction|].
  pose proof (Allocate_carve_pointer self m1 a
                (totalSize_for size alignment a) (adjustment_for alignment a)) as Hp.
  pose proof (Allocate_carve_header_adjustment self m1 a
                (totalSize_for size alignment a) (adjustment_for alignment a)) as Hh.
  destruct (Allocate_carve _ _ _ _ _) as [[p self'] m'].
  cbn [fst snd] in Hp, Hh. subst p.
  exists i, a, s, self', m'. split; [exact Hi|]. split; [reflexivity|].
  rewrite Hh. apply wrap64_small. apply adjustment_for_range.
Qed.

(** Whatever the memory holds: when the search ends without a best fit, it
    has stored nothing. *)
Lemma Allocate_search_null_unchanged size alignment :
  forall fuel m p bf t adj m' t' adj',
  Allocate_search fuel size alignment m p bf t adj
  = Some (m', nullptr, t', adj') ->
  bf = nullptr /\ m' = m.
Proof.
  induction fuel as [|fuel IH]; intros m p bf t adj m' t' adj' Hrun;
    cbn [Allocate_search] in Hrun; [discriminate|].
  destruct (Z.eqb_spec p nullptr) as [Hp|Hp].
  - injection Hrun as <- <- _ _. split; reflexivity.
  - destruct (_ && _).
    + apply IH in Hrun. destruct Hrun as [Hnull _]. contradiction.
    + apply IH in Hrun. exact Hrun.
Qed.

Lemma Allocate_bad_alloc_unchanged fuel self m size alignment self' m' :
  Allocate fuel self m size alignment = Some (bad_alloc, self', m') ->
  self' = self /\ m' = m.
Proof.
  unfold Allocate. intros Hrun.
  destruct (Allocate_search fuel size alignment m (m_freeBlocks self)
              nullptr 0 0) as [[[[m1 bf] t] adj]|] eqn:Hs; [|discriminate].
  destruct (Z.eqb_spec bf nullptr) as [->|Hnz].
  - apply Allocate_search_null_unchanged in Hs. destruct Hs as [_ ->].
    injection Hrun as <- <-. split; reflexivity.
  - destruct (Allocate_carve _ _ _ _ _) as [[p self1] m2]. discriminate.
Qed.

(** C2.  On a well-formed free list in which no block qualifies, [Allocate]
    ends with [std::bad_alloc], an outcome different from every returned
    pointer (the null pointer included), and hands back the allocator
    object and the memory it was given, unchanged: [GetUsed()],
    [GetNumAllocation()] and every record of the free list are as before. *)
Theorem Allocate_out_of_memory self m l size alignment fuel :
  well_formed self m l ->
  (length l < fuel)%nat ->
  (forall b, In b l -> ~ qualifies size alignment b) ->
  Allocate fuel self m size alignment = Some (bad_alloc, self, m) /\
  forall p : Z, bad_alloc <> Returned p.
Proof.
  intros [Hl _] Hfuel Hq. split; [|discriminate].
  unfold Allocate.
  rewrite (Allocate_search_none size alignment l m nullptr
             (m_freeBlocks self) fuel Hl Hfuel Hq).
  reflexivity.
Qed.

(** ** Address-ordered lists *)

Lemma lseg_head m : forall l prv p q, lseg m prv p l q -> p = head_addr l q.
Proof.
  destruct l as [|[a s] l]; intros prv p q H; cbn [lseg] in H.
  - exact H.
  - destruct H as [H _]. exact H.
Qed.

Lemma lseg_app m : forall l1 l2 prv p q,
  lseg m prv p (l1 ++ l2) q <->
  lseg m prv p l1 (head_addr l2 q) /\
  lseg m (last_addr l1 prv) (head_addr l2 q) l2 q.
Proof.
  induction l1 as [|[a s] l1 IH]; intros l2 prv p q; cbn [app lseg last_addr].
  - split.
    + intros H. pose proof (lseg_head _ _ _ _ _ H) as ->. split; [reflexivity|exact H].
    + intros [-> H]. exact H.
  - rewrite IH. tauto.
Qed.

Lemma lseg_last_next m : forall l prv p q,
  lseg m prv p l q -> l <> [] -> FreeBlock.next m (last_addr l prv) = q.
Proof.
  induction l as [|[a s] l IH]; intros prv p q H Hne; [contradiction|].
  cbn [lseg last_addr] in *. destruct H as (_ & _ & _ & _ & H).
  destruct l as [|b l].
  - cbn [lseg last_addr] in *. exact H.
  - eapply IH; [exact H|discriminate].
Qed.

Lemma ascending_weaken : forall l lo lo',
  lo' <= lo -> ascending lo l -> ascending lo' l.
Proof.
  destruct l as [|[a s] l]; intros lo lo' Hle H; cbn [ascending] in *; [exact I|].
  destruct H as (H1 & H2 & H3 & H4). repeat split; try lia. exact H4.
Qed.

Lemma ascending_app : forall l1 l2 lo,
  ascending lo (l1 ++ l2) ->
  ascending lo l1 /\
  (forall x sx, In (x, sx) l1 ->
     lo <= x /\ sizeof_AllocationHeader < sx < 2 ^ 31 /\
     exists hi, x + sx + sizeof_AllocationHeader <= hi /\ ascending hi l2).
Proof.
  induction l1 as [|[a s] l1 IH]; intros l2 lo H; cbn [app ascending] in *.
  - split; [exact I|]. intros x sx [].
  - destruct H as (H1 & H2 & H3 & H4).
    destruct (IH l2 _ H4) as [Ha Hb].
    split; [repeat split; auto; lia|].
    intros x sx [Heq|Hin].
    + injection Heq as <- <-. split; [lia|]. split; [lia|].
      destruct l1 as [|[a' s'] l1].
      * exists (a + s + sizeof_AllocationHeader). split; [lia|exact H4].
      * destruct (Hb a' s' (or_introl eq_refl)) as (Hlo & Hs' & hi & Hhi & Hasc).
        exists hi. unfold sizeof_AllocationHeader in *. split; [lia|exact Hasc].
    + destruct (Hb x sx Hin) as (Hlo & Hs' & hi & Hhi & Hasc).
      unfold sizeof_AllocationHeader in *.
      split; [lia|]. split; [lia|]. exists hi. split; [lia|exact Hasc].
Qed.

Lemma ascending_In : forall l lo x sx,
  ascending lo l -> In (x, sx) l ->
  lo <= x /\ sizeof_AllocationHeader < sx < 2 ^ 31 /\ x + sx <= 2 ^ 64.
Proof.
  induction l as [|[a s] l IH]; intros lo x sx H Hin; [destruct Hin|].
  cbn [ascending] in H. destruct H as (H1 & H2 & H3 & H4).
  destruct Hin as [Heq|Hin].
  - injection Heq as <- <-. auto.
  - destruct (IH _ x sx H4 Hin) as (Ha & Hb & Hc).
    unfold sizeof_AllocationHeader in *. repeat split; lia.
Qed.

Lemma ascending_remove : forall l1 lo b l2,
  ascending lo (l1 ++ b :: l2) -> ascending lo (l1 ++ l2).
Proof.
  induction l1 as [|[a s] l1 IH]; intros lo b l2 H; cbn [app ascending] in *.
  - destruct b as [a s]. destruct H as (H1 & H2 & H3 & H4).
    apply (ascending_weaken _ _ lo) in H4; [exact H4|].
    unfold sizeof_AllocationHeader in *. lia.
  - destruct H as (H1 & H2 & H3 & H4).
    split; [exact H1|]. split; [exact H2|]. split; [exact H3|].
    eapply IH. exact H4.
Qed.

Lemma ascending_replace : forall l1 lo a s a' s' l2,
  ascending lo (l1 ++ (a, s) :: l2) ->
  a <= a' -> a' + s' = a + s -> sizeof_AllocationHeader < s' < 2 ^ 31 ->
  ascending lo (l1 ++ (a', s') :: l2).
Proof.
  induction l1 as [|[x sx] l1 IH]; intros lo a s a' s' l2 H Ha Hs Hs';
    cbn [app ascending] in *.
  - destruct H as (H1 & H2 & H3 & H4).
    split; [lia|]. split; [exact Hs'|]. split; [lia|].
    rewrite Hs. exact H4.
  - destruct H as (H1 & H2 & H3 & H4).
    split; [exact H1|]. split; [exact H2|]. split; [exact H3|].
    eapply IH; eassumption.
Qed.

(** ** Relinking *)

Section Relink.
Variables (m m' : memory) (a a' : Z).

Lemma lseg_retarget : forall l prv p,
  lseg m prv p l a ->
  (forall b, In b l -> fst b <> a) ->
  (forall b, In b l ->
     FreeBlock.size m' (fst b) = FreeBlock.size m (fst b) /\
     FreeBlock.prev m' (fst b) = FreeBlock.prev m (fst b) /\
     FreeBlock.next m' (fst b) =
       (if FreeBlock.next m (fst b) =? a then a' else FreeBlock.next m (fst b))) ->
  lseg m' prv (if p =? a then a' else p) l a'.
Proof.
  induction l as [|[x sx] l IH]; intros prv p Hl Hne Hf; cbn [lseg] in *.
  - subst p. rewrite Z.eqb_refl. reflexivity.
  - destruct Hl as (-> & Hx & Hs & Hp & Hl).
    destruct (Hf (x, sx) (or_introl eq_refl)) as (Fs & Fp & Fn). cbn [fst] in *.
    pose proof (Hne (x, sx) (or_introl eq_refl)) as Hxa. cbn [fst] in Hxa.
    destruct (Z.eqb_spec x a) as [|_]; [contradiction|].
    split; [reflexivity|]. split; [exact Hx|].
    split; [congruence|]. split; [congruence|].
    rewrite Fn.
    apply IH; [exact Hl| |]; intros b Hb; [apply Hne|apply Hf]; right; exact Hb.
Qed.

Lemma lseg_reprev : forall l prv p q,
  lseg m prv p l q ->
  (forall b, In b l -> fst b <> a) ->
  (forall b, In b l ->
     FreeBlock.size m' (fst b) = FreeBlock.size m (fst b) /\
     FreeBlock.next m' (fst b) = FreeBlock.next m (fst b) /\
     FreeBlock.prev m' (fst b) =
       (if FreeBlock.prev m (fst b) =? a then a' else FreeBlock.prev m (fst b))) ->
  lseg m' (if prv =? a then a' else prv) p l q.
Proof.
  induction l as [|[x sx] l IH]; intros prv p q Hl Hne Hf; cbn [lseg] in *.
  - exact Hl.
  - destruct Hl as (-> & Hx & Hs & Hp & Hl).
    destruct (Hf (x, sx) (or_introl eq_refl)) as (Fs & Fn & Fp). cbn [fst] in *.
    pose proof (Hne (x, sx) (or_introl eq_refl)) as Hxa. cbn [fst] in Hxa.
    split; [reflexivity|]. split; [exact Hx|].
    split; [congruence|]. split; [rewrite Fp, Hp; reflexivity|].
    rewrite Fn.
    specialize (IH x (FreeBlock.next m x) q Hl).
    destruct (Z.eqb_spec x a) as [|_]; [contradiction|].
    apply IH; intros b Hb; [apply Hne|apply Hf]; right; exact Hb.
Qed.

End Relink.

Lemma ascending_last_addr : forall l lo prv,
  ascending lo l -> l <> [] -> lo <= last_addr l prv.
Proof.
  induction l as [|[x sx] l IH]; intros lo prv H Hne; [contradiction|].
  cbn [ascending last_addr] in *. destruct H as (H1 & H2 & _ & H4).
  destruct l as [|b l]; [cbn; lia|].
  specialize (IH _ x H4 ltac:(discriminate)).
  unfold sizeof_AllocationHeader in *. lia.
Qed.

(** Where the nodes before the selected block sit: a node is the last one,
    whose [next] is [q], or it lies wholly before the last one and its
    [next] is the address of a later node of the segment. *)
Lemma lseg_left_info m : forall l prv p q lo,
  lseg m prv p l q ->
  ascending lo l ->
  (forall x sx, In (x, sx) l -> x + sx + sizeof_AllocationHeader <= q) ->
  forall x sx, In (x, sx) l ->
    (x = last_addr l prv /\ FreeBlock.next m x = q) \/
    (x + sx + sizeof_AllocationHeader <= last_addr l prv /\
     FreeBlock.next m x < q).
Proof.
  induction l as [|[y sy] l IH]; intros prv p q lo Hl Hasc Hq x sx Hin;
    [destruct Hin|].
  cbn [lseg ascending last_addr] in *.
  destruct Hl as (-> & Hy & Hs & Hp & Hl).
  destruct Hasc as (A1 & A2 & A3 & A4).
  destruct Hin as [Heq|Hin].
  - injection Heq as <- <-.
    destruct l as [|[z sz] l].
    + left. cbn [lseg last_addr] in *. auto.
    + right. pose proof (lseg_head _ _ _ _ _ Hl) as Hz. cbn [head_addr] in Hz.
      pose proof (ascending_last_addr _ _ y A4 ltac:(discriminate)).
      specialize (Hq z sz (or_intror (or_introl eq_refl))).
      destruct A4 as (B1 & B2 & _).
      unfold sizeof_AllocationHeader in *. split; [lia|]. rewrite Hz. lia.
  - apply (IH y (FreeBlock.next m y) q _ Hl A4);
      [intros x' sx' H'; apply Hq; right; exact H'|exact Hin].
Qed.

(** Where the nodes after the selected block sit. *)
Lemma lseg_right_info m : forall l prv p q lo,
  lseg m prv p l q ->
  ascending lo l ->
  forall x sx, In (x, sx) l ->
    (x = p /\ FreeBlock.prev m x = prv) \/
    (p + 2 * sizeof_AllocationHeader < x /\ lo <= FreeBlock.prev m x).
Proof.
  induction l as [|[y sy] l IH]; intros prv p q lo Hl Hasc x sx Hin;
    [destruct Hin|].
  cbn [lseg ascending] in *.
  destruct Hl as (-> & Hy & Hs & Hp & Hl).
  destruct Hasc as (A1 & A2 & A3 & A4).
  destruct Hin as [Heq|Hin].
  - injection Heq as <- <-. left. auto.
  - right.
    pose proof (ascending_In _ _ _ _ A4 Hin) as (B1 & B2 & B3).
    assert (Hnext : y + sy + sizeof_AllocationHeader <= FreeBlock.next m y).
    { destruct l as [|[z sz] l]; [destruct Hin|].
      pose proof (lseg_head _ _ _ _ _ Hl) as Hz. cbn [head_addr] in Hz.
      rewrite Hz. cbn [ascending] in A4. lia. }
    destruct (IH _ _ _ _ Hl A4 x sx Hin) as [[-> Hpx]|[Hlt Hpx]];
      unfold sizeof_AllocationHeader in *; split; lia.
Qed.

(** ** The carve step in memory *)

Lemma to_int_small v : - 2 ^ 31 <= v < 2 ^ 31 -> to_int v = v.
Proof.
  intros H. unfold to_int.
  destruct (Z_lt_ge_dec v 0) as [Hneg|Hpos].
  - assert (Hm : v mod 2 ^ 32 = v + 2 ^ 32).
    { symmetry. apply Z.mod_unique with (q := -1); lia. }
    rewrite Hm. destruct (Z.ltb_spec (v + 2 ^ 32) (2 ^ 31)); lia.
  - rewrite Z.mod_small by lia.
    destruct (Z.ltb_spec v (2 ^ 31)); lia.
Qed.

Lemma to_int_mod v : to_int (v mod 256 ^ Z.of_nat 4) = to_int v.
Proof.
  unfold to_int. change (256 ^ Z.of_nat 4) with (2 ^ 32).
  rewrite Z.mod_mod by lia. reflexivity.
Qed.

Lemma load_int_store_int m p v : load_int (store_int m p v) p = to_int v.
Proof.
  unfold load_int, store_int. rewrite load_le_store_le_same. apply to_int_mod.
Qed.

Lemma load_u64_store_u64 m p v : load_u64 (store_u64 m p v) p = wrap64 v.
Proof. unfold load_u64, store_u64. apply load_le_store_le_same. Qed.

Lemma load_u64_range m p : 0 <= load_u64 m p < 2 ^ 64.
Proof. apply (load_le_range 8). Qed.

Ltac unfold_fields :=
  unfold FreeBlock.size, FreeBlock.next, FreeBlock.prev,
    FreeBlock.set_size, FreeBlock.set_next, FreeBlock.set_prev,
    AllocationHeader.size, AllocationHeader.adjustment,
    AllocationHeader.set_size, AllocationHeader.set_adjustment,
    load_int, load_u64, store_int, store_u64.

Ltac skip_stores := repeat (rewrite load_le_store_le_other by lia).

(* Reads a field back through a chain of stores. *)
Ltac read_field :=
  unfold_fields; skip_stores;
  first
    [ reflexivity
    | rewrite load_le_store_le_same;
      first [ rewrite to_int_mod; apply to_int_small; lia
            | apply Z.mod_small; change (256 ^ Z.of_nat 8) with (2 ^ 64); lia ] ].

(* Closes the description of the state after the carve. *)
Ltac finish_carve prvA :=
  eexists _, _; split; [reflexivity|];
  cbn [m_freeBlocks with_counters with_freeBlocks base m_usedBytes
       m_numAllocations];
  repeat apply conj;
  first
    [ reflexivity
    | solve [destruct (Z.eqb_spec prvA 0);
             first [reflexivity | assumption | contradiction | lia]]
    | solve [read_field]
    | solve [intros; exfalso; lia]
    | solve [intros; unfold untouched; repeat apply conj; read_field] ].

Section Carve.
Variables (self : FreeListAllocator) (m : memory).
Variables (a s total adj prvA nxtA : Z).
Hypothesis Ha : 1 <= a.
Hypothesis Has : a + s <= 2 ^ 64.
Hypothesis Hadj : sizeof_AllocationHeader <= adj.
Hypothesis Htot : adj + sizeof_AllocationHeader <= total.
Hypothesis Hts : total < s.
Hypothesis Hs : s < 2 ^ 31.
Hypothesis Fs : FreeBlock.size m a = s.
Hypothesis Fp : FreeBlock.prev m a = prvA.
Hypothesis Fn : FreeBlock.next m a = nxtA.
Hypothesis HP : prvA = nullptr \/ (1 <= prvA /\ prvA + 2 * sizeof_AllocationHeader < a).
Hypothesis HN : nxtA = nullptr \/ a + s + sizeof_AllocationHeader <= nxtA.


Lemma Allocate_carve_consume :
  s <= total + sizeof_AllocationHeader ->
  exists self' m',
    Allocate_carve self m a total adj = (a + adj, self', m') /\
    m_freeBlocks self' = (if prvA =? nullptr then nxtA else m_freeBlocks self) /\
    m_usedBytes (base self') = wrap64 (m_usedBytes (base self) + s) /\
    m_numAllocations (base self') = wrap64 (m_numAllocations (base self) + 1) /\
    AllocationHeader.size m' (a + adj - sizeof_AllocationHeader) = s /\
    AllocationHeader.adjustment m' (a + adj - sizeof_AllocationHeader) = adj /\
    (prvA <> nullptr ->
       FreeBlock.size m' prvA = FreeBlock.size m prvA /\
       FreeBlock.prev m' prvA = FreeBlock.prev m prvA /\
       FreeBlock.next m' prvA = nxtA) /\
    (nxtA <> nullptr ->
       FreeBlock.size m' nxtA = FreeBlock.size m nxtA /\
       FreeBlock.next m' nxtA = FreeBlock.next m nxtA /\
       FreeBlock.prev m' nxtA = prvA) /\
    (forall x,
       (prvA <> nullptr /\ x + sizeof_FreeBlock <= prvA) \/
       (nxtA <> nullptr /\ nxtA + sizeof_FreeBlock <= x) ->
       untouched m m' x).
Proof.
  intros Hle. unfold sizeof_AllocationHeader, sizeof_FreeBlock, nullptr in *.
  assert (Rp : 0 <= prvA < 2 ^ 64) by (rewrite <- Fp; apply load_u64_range).
  assert (Rn : 0 <= nxtA < 2 ^ 64) by (rewrite <- Fn; apply load_u64_range).
  unfold Allocate_carve. rewrite Fs.
  unfold int_to_size_t, sizeof_AllocationHeader, nullptr.
  rewrite (wrap64_small s), (wrap64_small (total + 16)) by lia.
  destruct (Z.leb_spec s (total + 16)) as [_|]; [|lia].
  rewrite Fp, Fn.
  rewrite (wrap64_small (a + adj)), (wrap64_small (a + adj - 16)) by lia.
  destruct (Z.eqb_spec prvA 0) as [HP0|HP0]; cbn [negb].
  - rewrite Fn.
    destruct (Z.eqb_spec nxtA 0) as [HN0|HN0]; cbn [negb]; rewrite ?Fp;
      finish_carve prvA.
  - destruct HP as [|[HP1 HP2]]; [contradiction|].
    assert (E1 : FreeBlock.next (FreeBlock.set_next m prvA nxtA) a = nxtA)
      by (rewrite <- Fn at 2; read_field).
    assert (E2 : FreeBlock.prev (FreeBlock.set_next m prvA nxtA) a = prvA)
      by (rewrite <- Fp at 2; read_field).
    rewrite E1.
    destruct (Z.eqb_spec nxtA 0) as [HN0|HN0]; cbn [negb]; rewrite ?E2;
      finish_carve prvA.
Qed.

Lemma Allocate_carve_split :
  total + sizeof_AllocationHeader < s ->
  exists self' m',
    Allocate_carve self m a total adj = (a + adj, self', m') /\
    m_freeBlocks self' =
      (if prvA =? nullptr then a + total else m_freeBlocks self) /\
    m_usedBytes (base self') = wrap64 (m_usedBytes (base self) + total) /\
    m_numAllocations (base self') = wrap64 (m_numAllocations (base self) + 1) /\
    AllocationHeader.size m' (a + adj - sizeof_AllocationHeader) = total /\
    AllocationHeader.adjustment m' (a + adj - sizeof_AllocationHeader) = adj /\
    (FreeBlock.size m' (a + total) = s - total /\
     FreeBlock.next m' (a + total) = nxtA /\
     FreeBlock.prev m' (a + total) = prvA) /\
    (prvA <> nullptr ->
       FreeBlock.size m' prvA = FreeBlock.size m prvA /\
       FreeBlock.prev m' prvA = FreeBlock.prev m prvA /\
       FreeBlock.next m' prvA = a + total) /\
    (nxtA <> nullptr ->
       FreeBlock.size m' nxtA = FreeBlock.size m nxtA /\
       FreeBlock.next m' nxtA = FreeBlock.next m nxtA /\
       FreeBlock.prev m' nxtA = a + total) /\
    (forall x,
       (prvA <> nullptr /\ x + sizeof_FreeBlock <= prvA) \/
       (nxtA <> nullptr /\ nxtA + sizeof_FreeBlock <= x) ->
       untouched m m' x).
Proof.
  intros Hgt. unfold sizeof_AllocationHeader, sizeof_FreeBlock, nullptr in *.
  assert (Rp : 0 <= prvA < 2 ^ 64) by (rewrite <- Fp; apply load_u64_range).
  assert (Rn : 0 <= nxtA < 2 ^ 64) by (rewrite <- Fn; apply load_u64_range).
  unfold Allocate_carve. rewrite Fs.
  unfold int_to_size_t, ptr_add, sizeof_AllocationHeader, nullptr.
  rewrite (wrap64_small s), (wrap64_small (total + 16)) by lia.
  destruct (Z.leb_spec s (total + 16)) as [|_]; [lia|].
  rewrite (wrap64_small (a + adj)), (wrap64_small (a + adj - 16)),
    (wrap64_small (a + total)), (wrap64_small (s - total)) by lia.
  set (m1 := FreeBlock.set_size m (a + total) (s - total)).
  assert (E1 : FreeBlock.next m1 a = nxtA)
    by (rewrite <- Fn; subst m1; read_field).
  rewrite E1.
  set (m2 := FreeBlock.set_next m1 (a + total) nxtA).
  assert (E2 : FreeBlock.prev m2 a = prvA)
    by (rewrite <- Fp; subst m2 m1; read_field).
  rewrite E2.
  set (m3 := FreeBlock.set_prev m2 (a + total) prvA).
  assert (E3 : FreeBlock.next m3 a = nxtA)
    by (rewrite <- Fn; subst m3 m2 m1; read_field).
  rewrite E3.
  destruct (Z.eqb_spec nxtA 0) as [HN0|HN0]; cbn [negb].
  - assert (E4 : FreeBlock.prev m3 a = prvA)
      by (rewrite <- Fp; subst m3 m2 m1; read_field).
    rewrite E4.
    destruct (Z.eqb_spec prvA 0) as [HP0|HP0]; cbn [negb];
      [|destruct HP as [|[HP1 HP2]]; [contradiction|]];
      subst m3 m2 m1; finish_carve prvA.
  - destruct HN as [|HN1]; [contradiction|].
    assert (E4 : FreeBlock.prev (FreeBlock.set_prev m3 nxtA (a + total)) a
                 = prvA)
      by (rewrite <- Fp; subst m3 m2 m1; read_field).
    rewrite E4.
    destruct (Z.eqb_spec prvA 0) as [HP0|HP0]; cbn [negb];
      [|destruct HP as [|[HP1 HP2]]; [contradiction|]];
      subst m3 m2 m1; finish_carve prvA.
Qed.
End Carve.

(** ** The selected block and its neighbours *)

Lemma adjustment_for_bounds k p :
  0 <= k < 64 -> 0 <= p < 2 ^ 64 ->
  sizeof_AllocationHeader <= adjustment_for (2 ^ k) p < 2 ^ k + sizeof_AllocationHeader.
Proof.
  intros Hk Hp. split; [apply align_ge_header; assumption|].
  unfold adjustment_for. rewrite (align_value p k Hk Hp). cbv zeta.
  pose proof (pow2_bounds k Hk) as Ha.
  pose proof (padding_range p k Hk Hp) as Hr.
  set (a := 2 ^ k) in *. set (pad := padding p a) in *.
  unfold sizeof_AllocationHeader.
  destruct (Z.ltb_spec pad 16); [|lia].
  pose proof (Z.mul_div_le (16 - pad + a - 1) a ltac:(lia)). lia.
Qed.

Lemma totalSize_for_exact size alignment p :
  valid_request size alignment -> 0 <= p < 2 ^ 64 ->
  totalSize_for size alignment p
  = size + adjustment_for alignment p + sizeof_AllocationHeader /\
  sizeof_AllocationHeader <= adjustment_for alignment p.
Proof.
  intros [Hsize (k & Hk & ->)] Hp.
  pose proof (adjustment_for_bounds k p ltac:(lia) Hp) as Hb.
  assert (2 ^ k <= 2 ^ 62) by (apply Z.pow_le_mono_r; lia).
  unfold totalSize_for, sizeof_AllocationHeader in *.
  rewrite (wrap64_small (size + _)) by lia.
  rewrite wrap64_small by lia. split; lia.
Qed.

Lemma last_addr_In : forall l prv,
  l <> [] -> exists sx, In (last_addr l prv, sx) l.
Proof.
  induction l as [|[x sx] l IH]; intros prv Hne; [contradiction|].
  cbn [last_addr]. destruct l as [|b l].
  - exists sx. left. reflexivity.
  - destruct (IH x ltac:(discriminate)) as [sy Hy]. exists sy. right. exact Hy.
Qed.

(** What the selected block and its neighbours look like in a well-formed
    list. *)
Lemma selected_block_facts m head l1 a s l2 :
  linked m head (l1 ++ (a, s) :: l2) ->
  ascending 1 (l1 ++ (a, s) :: l2) ->
  let prvA := last_addr l1 nullptr in
  let nxtA := head_addr l2 nullptr in
  lseg m nullptr head l1 a /\
  lseg m a nxtA l2 nullptr /\
  ascending (a + s + sizeof_AllocationHeader) l2 /\
  (forall x sx, In (x, sx) l1 ->
     1 <= x /\ sizeof_AllocationHeader < sx /\
     x + sx + sizeof_AllocationHeader <= a) /\
  ascending 1 l1 /\
  1 <= a /\ sizeof_AllocationHeader < s < 2 ^ 31 /\ a + s <= 2 ^ 64 /\
  FreeBlock.size m a = s /\ FreeBlock.prev m a = prvA /\
  FreeBlock.next m a = nxtA /\
  (l1 = [] /\ prvA = nullptr /\ head = a \/
   l1 <> [] /\ 1 <= prvA /\ prvA + 2 * sizeof_AllocationHeader < a /\
   head <> a /\ FreeBlock.next m prvA = a) /\
  (nxtA = nullptr \/ a + s + sizeof_AllocationHeader <= nxtA).
Proof.
  intros Hl Hasc prvA nxtA. unfold linked in Hl.
  apply lseg_app in Hl. cbn [head_addr] in Hl. destruct Hl as [Hl1 Hl2].
  cbn [lseg] in Hl2. destruct Hl2 as (_ & Hnz & Fs & Fp & Hl2).
  pose proof (lseg_head _ _ _ _ _ Hl2) as Fn.
  destruct (ascending_app _ _ _ Hasc) as [Hasc1 Hleft].
  assert (Hmid : 1 <= a /\ sizeof_AllocationHeader < s < 2 ^ 31 /\ a + s <= 2 ^ 64).
  { apply (ascending_In _ _ _ _ Hasc). apply in_or_app. right. left. reflexivity. }
  assert (Hleft' : forall x sx, In (x, sx) l1 ->
     1 <= x /\ sizeof_AllocationHeader < sx /\
     x + sx + sizeof_AllocationHeader <= a).
  { intros x sx Hin. destruct (Hleft x sx Hin) as (H1 & H2 & hi & H3 & H4).
    cbn [ascending] in H4. repeat split; lia. }
  assert (Hasc2 : ascending (a + s + sizeof_AllocationHeader) l2).
  { clear - Hasc. revert Hasc. generalize 1.
    induction l1 as [|[x sx] l1 IH]; intros lo Hasc;
      cbn [app ascending] in Hasc.
    - tauto.
    - apply (IH (x + sx + sizeof_AllocationHeader)). tauto. }
  rewrite Fn in Hl2.
  split; [exact Hl1|]. split; [exact Hl2|]. split; [exact Hasc2|].
  split; [exact Hleft'|]. split; [exact Hasc1|].
  destruct Hmid as (M1 & M2 & M3).
  split; [exact M1|]. split; [exact M2|]. split; [exact M3|].
  split; [exact Fs|]. split; [exact Fp|]. split; [exact Fn|].
  split.
  - destruct l1 as [|b l1].
    + left. cbn [lseg] in Hl1. auto.
    + right. split; [discriminate|].
      destruct (last_addr_In (b :: l1) nullptr ltac:(discriminate)) as [sp Hsp].
      destruct (Hleft' _ _ Hsp) as (P1 & P2 & P3).
      fold prvA in Hsp, P1, P3 |- *.
      unfold sizeof_AllocationHeader in *.
      split; [lia|]. split; [lia|]. split.
      * destruct b as [x sx]. cbn [lseg] in Hl1. destruct Hl1 as [-> _].
        destruct (Hleft' x sx (or_introl eq_refl)) as (? & ? & ?). lia.
      * apply (lseg_last_next _ _ _ _ _ Hl1). discriminate.
  - destruct l2 as [|[y sy] l2].
    + left. reflexivity.
    + right. cbn [ascending] in Hasc2. subst nxtA. cbn [head_addr]. lia.
Qed.

Section Relinked.
Variables (m m' : memory) (head a s : Z) (l1 l2 : list (Z * Z)).
Hypothesis Hl : linked m head (l1 ++ (a, s) :: l2).
Hypothesis Hasc : ascending 1 (l1 ++ (a, s) :: l2).
Variables prvA nxtA : Z.
Hypothesis HprvA : prvA = last_addr l1 nullptr.
Hypothesis HnxtA : nxtA = head_addr l2 nullptr.
Hypothesis Hframe : forall x,
  (prvA <> nullptr /\ x + sizeof_FreeBlock <= prvA) \/
  (nxtA <> nullptr /\ nxtA + sizeof_FreeBlock <= x) ->
  untouched m m' x.

Lemma relink_left a' :
  (prvA <> nullptr ->
     FreeBlock.size m' prvA = FreeBlock.size m prvA /\
     FreeBlock.prev m' prvA = FreeBlock.prev m prvA /\
     FreeBlock.next m' prvA = a') ->
  lseg m' nullptr (if prvA =? nullptr then a' else head) l1 a'.
Proof.
  intros Hnode.
  destruct (selected_block_facts m head l1 a s l2 Hl Hasc)
    as (Hl1 & Hl2 & Hasc2 & Hleft & Hasc1 & Ha & Hs & Has & Fs & Fp & Fn & HP & HN).
  rewrite <- HprvA in Fp, HP. rewrite <- HnxtA in Hl2, Fn, HN.
  unfold sizeof_AllocationHeader, sizeof_FreeBlock, nullptr in *.
  replace (if prvA =? 0 then a' else head)
    with (if head =? a then a' else head).
  2:{ destruct HP as [(_ & -> & ->)|(_ & H1 & _ & H2 & _)].
      - rewrite Z.eqb_refl. reflexivity.
      - destruct (Z.eqb_spec head a); [contradiction|].
        destruct (Z.eqb_spec prvA 0); [lia|reflexivity]. }
  apply (lseg_retarget m m' a a' l1 0 head Hl1).
  - intros [x sx] Hin. cbn [fst]. destruct (Hleft x sx Hin). lia.
  - intros [x sx] Hin. cbn [fst].
    destruct (Hleft x sx Hin) as (L1 & L2 & L3).
    destruct (lseg_left_info m l1 0 head a 1 Hl1 Hasc1
                (fun x sx H => proj2 (proj2 (Hleft x sx H))) x sx Hin)
      as [[Hx Hnx]|[Hx Hnx]]; rewrite <- HprvA in Hx;
      unfold sizeof_AllocationHeader in *.
    + subst x. rewrite Hnx, Z.eqb_refl. apply Hnode. lia.
    + destruct (Hframe x) as (F1 & F2 & F3); [left; lia|].
      rewrite F1, F2, F3.
      destruct (Z.eqb_spec (FreeBlock.next m x) a); [lia|]. auto.
Qed.

Lemma relink_right a' :
  (nxtA <> nullptr ->
     FreeBlock.size m' nxtA = FreeBlock.size m nxtA /\
     FreeBlock.next m' nxtA = FreeBlock.next m nxtA /\
     FreeBlock.prev m' nxtA = a') ->
  lseg m' a' nxtA l2 nullptr.
Proof.
  intros Hnode.
  destruct (selected_block_facts m head l1 a s l2 Hl Hasc)
    as (Hl1 & Hl2 & Hasc2 & Hleft & Hasc1 & Ha & Hs & Has & Fs & Fp & Fn & HP & HN).
  rewrite <- HprvA in Fp, HP. rewrite <- HnxtA in Hl2, Fn, HN.
  unfold sizeof_AllocationHeader, sizeof_FreeBlock, nullptr in *.
  pose proof (lseg_reprev m m' a a' l2 a nxtA 0 Hl2) as H.
  rewrite Z.eqb_refl in H. apply H; clear H.
  - intros [x sx] Hin. cbn [fst].
    destruct (ascending_In _ _ _ _ Hasc2 Hin). lia.
  - intros [x sx] Hin. cbn [fst].
    destruct (ascending_In _ _ _ _ Hasc2 Hin) as (R1 & R2 & R3).
    assert (Hn1 : a + s + 16 <= nxtA).
    { destruct l2 as [|[y sy] l2']; [destruct Hin|].
      rewrite HnxtA. cbn [head_addr ascending] in *. lia. }
    destruct (lseg_right_info m l2 a nxtA 0 _ Hl2 Hasc2 x sx Hin)
      as [[Hx Hpx]|[Hx Hpx]]; unfold sizeof_AllocationHeader in *.
    + subst x. rewrite Hpx, Z.eqb_refl. apply Hnode. lia.
    + destruct (Hframe x) as (F1 & F2 & F3); [right; lia|].
      rewrite F1, F2, F3.
      destruct (Z.eqb_spec (FreeBlock.prev m x) a); [lia|]. auto.
Qed.

End Relinked.

(** ** Consuming and splitting *)

(** C4.  A successful [Allocate] on a well-formed free list selects a block
    [B = (a, s)] of the list (the best fit) and returns [a + adjustment].
    With [totalSize = size + adjustment + sizeof(AllocationHeader)]: if
    [s - totalSize <= sizeof(AllocationHeader)] the header records the
    footprint [s], [GetUsed()] grows by [s], and the free list is the old
    one without [B]; otherwise the header records [totalSize] and the free
    list is the old one with [B] replaced, at its position, by a block at
    [a + totalSize] of size [s - totalSize].  In both cases the resulting
    list is well formed again: the records in memory are linked in this
    order with the neighbours of [B], and addresses ascend. *)
Theorem Allocate_consumes_or_splits
    self m l size alignment fuel ptr self' m' :
  well_formed self m l ->
  valid_request size alignment ->
  (length l < fuel)%nat ->
  Allocate fuel self m size alignment = Some (Returned ptr, self', m') ->
  exists l1 a s l2,
    l = l1 ++ (a, s) :: l2 /\
    best_fit_at size alignment l (length l1) (a, s) /\
    let totalSize :=
      size + adjustment_for alignment a + sizeof_AllocationHeader in
    ptr = a + adjustment_for alignment a /\
    totalSize < s /\
    if s - totalSize <=? sizeof_AllocationHeader
    then
      AllocationHeader.size m' (ptr - sizeof_AllocationHeader) = s /\
      GetUsed (base self') = wrap64 (GetUsed (base self) + s) /\
      well_formed self' m' (l1 ++ l2)
    else
      AllocationHeader.size m' (ptr - sizeof_AllocationHeader) = totalSize /\
      GetUsed (base self') = wrap64 (GetUsed (base self) + totalSize) /\
      well_formed self' m' (l1 ++ (a + totalSize, s - totalSize) :: l2).
Proof.
  intros [Hl Hasc] Hreq Hfuel Hrun.
  destruct (Allocate_search_lseg size alignment l m nullptr
              (m_freeBlocks self) None fuel Hl)
    as (m1 & Hm1 & Hsearch); [left; reflexivity|assumption|discriminate|].
  pose proof (fold_left_pick_spec size alignment l) as Hspec.
  unfold Allocate in Hrun.
  cbn [bestFit_of bestFitTotalSize_of bestFitAdjustment_of] in Hsearch.
  rewrite Hsearch in Hrun.
  destruct (fold_left (pick size alignment) l None) as [[a s]|];
    cbn [bestFit_of bestFitTotalSize_of bestFitAdjustment_of fst] in Hrun.
  2:{ rewrite Z.eqb_refl in Hrun. discriminate. }
  destruct Hspec as (i & Hbest).
  destruct (nth_error_split l i (proj1 Hbest)) as (l1 & l2 & -> & <-).
  pose proof (lseg_same_bytes _ _ Hm1 _ _ _ _ Hl) as Hl1m.
  fold (linked m1 (m_freeBlocks self) (l1 ++ (a, s) :: l2)) in Hl1m.
  destruct (selected_block_facts m1 _ l1 a s l2 Hl1m Hasc)
    as (Hseg1 & Hseg2 & Hasc2 & Hleft & Hasc1 & Ha & Hs & Has & Fs & Fp & Fn
        & HP & HN).
  destruct (Z.eqb_spec a nullptr) as [Hz|_];
    [unfold nullptr in Hz; lia|].
  assert (Hs' : 16 < s < 2 ^ 31) by exact Hs.
  pose proof (proj1 Hreq) as Hsize.
  destruct (totalSize_for_exact size alignment a Hreq ltac:(lia)) as [Htot Hadj].
  assert (Hadj' : 16 <= adjustment_for alignment a) by exact Hadj.
  assert (Hq : totalSize_for size alignment a < s).
  { destruct Hbest as (_ & Hq & _). unfold qualifies, int_to_size_t in Hq.
    cbn [fst snd] in Hq. rewrite wrap64_small in Hq by lia. exact Hq. }
  set (adj := adjustment_for alignment a) in *.
  set (prvA := last_addr l1 nullptr) in *.
  set (nxtA := head_addr l2 nullptr) in *.
  assert (HP' : prvA = nullptr \/
                1 <= prvA /\ prvA + 2 * sizeof_AllocationHeader < a)
    by (destruct HP as [(_ & ? & _)|(_ & ? & ? & _)]; auto).
  exists l1, a, s, l2. split; [reflexivity|]. split; [exact Hbest|].
  cbv zeta. fold adj. rewrite <- Htot.
  split;
    [|split; [exact Hq|]];
    destruct (Z.leb_spec (s - totalSize_for size alignment a)
                sizeof_AllocationHeader) as [Hsmall|Hbig].
  - destruct (Allocate_carve_consume self m1 a s
                (totalSize_for size alignment a) adj prvA nxtA)
      as (self1 & m2 & Hc & _); try first [assumption | unfold sizeof_AllocationHeader, nullptr in *; lia].
    rewrite Hc in Hrun. injection Hrun as <- _ _. reflexivity.
  - destruct (Allocate_carve_split self m1 a s
                (totalSize_for size alignment a) adj prvA nxtA)
      as (self1 & m2 & Hc & _); try first [assumption | unfold sizeof_AllocationHeader, nullptr in *; lia].
    rewrite Hc in Hrun. injection Hrun as <- _ _. reflexivity.
  - destruct (Allocate_carve_consume self m1 a s
                (totalSize_for size alignment a) adj prvA nxtA)
      as (self1 & m2 & Hc & Hhead & Hused & _ & Hhs & _ & HnP & HnN & Hfr);
      try first [assumption | unfold sizeof_AllocationHeader, nullptr in *; lia].
    rewrite Hc in Hrun. injection Hrun as <- <- <-.
    split; [exact Hhs|]. split; [exact Hused|].
    split; [|eapply ascending_remove; exact Hasc].
    unfold linked. apply lseg_app. rewrite Hhead.
    pose proof (lseg_head _ _ _ _ _ Hseg2) as Hnx.
    fold nxtA. split.
    + apply (relink_left m1 m2 (m_freeBlocks self) a s l1 l2 Hl1m Hasc
               prvA nxtA eq_refl eq_refl Hfr nxtA HnP).
    + apply (relink_right m1 m2 (m_freeBlocks self) a s l1 l2 Hl1m Hasc
               prvA nxtA eq_refl eq_refl Hfr prvA HnN).
  - destruct (Allocate_carve_split self m1 a s
                (totalSize_for size alignment a) adj prvA nxtA)
      as (self1 & m2 & Hc & Hhead & Hused & _ & Hhs & _ & HnB & HnP & HnN & Hfr);
      try first [assumption | unfold sizeof_AllocationHeader, nullptr in *; lia].
    rewrite Hc in Hrun. injection Hrun as <- <- <-.
    split; [exact Hhs|]. split; [exact Hused|].
    destruct HnB as (B1 & B2 & B3).
    split.
    2:{ eapply ascending_replace; [exact Hasc| | |];
          unfold sizeof_AllocationHeader in *; lia. }
    unfold linked. apply lseg_app. cbn [head_addr]. rewrite Hhead. split.
    + apply (relink_left m1 m2 (m_freeBlocks self) a s l1 l2 Hl1m Hasc
               prvA nxtA eq_refl eq_refl Hfr _ HnP).
    + cbn [lseg]. split; [reflexivity|].
      split; [unfold nullptr, sizeof_AllocationHeader in *; lia|].
      split; [exact B1|]. split; [exact B3|].
      rewrite B2.
      apply (relink_right m1 m2 (m_freeBlocks self) a s l1 l2 Hl1m Hasc
               prvA nxtA eq_refl eq_refl Hfr _ HnN).
Qed.

(** ** Alignment of returned pointers *)

Lemma Allocate_search_adjustment size alignment :
  forall fuel m p bf t adj m' bf' t' adj',
  Allocate_search fuel size alignment m p bf t adj = Some (m', bf', t', adj') ->
  (bf <> nullptr -> adj = adjustment_for alignment bf) ->
  (bf' <> nullptr -> adj' = adjustment_for alignment bf').
Proof.
  induction fuel as [|fuel IH]; intros m p bf t adj m' bf' t' adj' Hrun Hinv;
    cbn [Allocate_search] in Hrun; [discriminate|].
  destruct (p =? nullptr).
  - injection Hrun as <- <- <- <-. exact Hinv.
  - destruct (_ && _).
    + eapply IH; [exact Hrun|]. intros _. reflexivity.
    + eapply IH; [exact Hrun|exact Hinv].
Qed.

Lemma Allocate_pointer_aligned fuel self m size k ptr self' m' :
  0 <= k < 64 ->
  Allocate fuel self m size (2 ^ k) = Some (Returned ptr, self', m') ->
  ptr mod 2 ^ k = 0.
Proof.
  intros Hk Hrun. unfold Allocate in Hrun.
  destruct (Allocate_search fuel size (2 ^ k) m (m_freeBlocks self) nullptr 0 0)
    as [[[[m1 bf] t] adj]|] eqn:Hs; [|discriminate].
  pose proof (Allocate_search_adjustment _ _ _ _ _ _ _ _ _ _ _ _ Hs) as Hadj.
  destruct (Z.eqb_spec bf nullptr) as [|Hnz]; [discriminate|].
  rewrite (Hadj ltac:(intros H; exfalso; apply H; reflexivity) Hnz) in Hrun.
  pose proof (Allocate_carve_pointer self m1 bf t (adjustment_for (2 ^ k) bf)) as Hp.
  destruct (Allocate_carve _ _ _ _ _) as [[p self1] m2].
  cbn [fst] in Hp. injection Hrun as <- _ _. rewrite Hp.
  rewrite wrap64_mod_pow2 by lia. apply align_congr. exact Hk.
Qed.

(** C3.  For an address [p] and a power-of-two alignment [a], the adjustment
    computed by [align_forward_adjustment_with_header<AllocationHeader>]
    makes [p + adjustment] a multiple of [a], is at least
    [sizeof(AllocationHeader)], and is the least value with these two
    properties; and every pointer returned by a successful [Allocate] with
    alignment [a] is a multiple of [a]. *)
Theorem adjustment_aligned_minimal p k :
  0 <= p < 2 ^ 64 -> 0 <= k < 64 ->
  let a := 2 ^ k in
  let adjustment :=
    align_forward_adjustment_with_header sizeof_AllocationHeader p a in
  (p + adjustment) mod a = 0 /\
  sizeof_AllocationHeader <= adjustment /\
  (forall adj', sizeof_AllocationHeader <= adj' -> (p + adj') mod a = 0 ->
                adjustment <= adj') /\
  (forall fuel self m size ptr self' m',
     Allocate fuel self m size a = Some (Returned ptr, self', m') ->
     ptr mod a = 0).
Proof.
  intros Hp Hk a adjustment. subst a adjustment.
  split; [apply align_congr; exact Hk|].
  split; [apply align_ge_header; assumption|].
  split; [intros adj' H1 H2; apply align_minimal; assumption|].
  intros fuel self m size ptr self' m' Hrun.
  eapply Allocate_pointer_aligned; eassumption.
Qed.

(** ** The constructor *)

Lemma FreeListAllocator_ctor_asserts sizeBytes start m :
  sizeBytes <= sizeof_FreeBlock ->
  FreeListAllocator_ctor sizeBytes start m = assertion_failure.
Proof.
  intros H. unfold FreeListAllocator_ctor, Allocator_ctor.
  destruct (Z.ltb_spec 0 sizeBytes); [|reflexivity].
  destruct (Z.ltb_spec sizeof_FreeBlock sizeBytes); [lia|reflexivity].
Qed.

Lemma FreeListAllocator_ctor_small sizeBytes start m :
  sizeof_FreeBlock < sizeBytes < 2 ^ 31 ->
  1 <= start -> start + sizeBytes <= 2 ^ 64 ->
  exists self m',
    FreeListAllocator_ctor sizeBytes start m = Returned (self, m') /\
    well_formed self m' [(start, sizeBytes)] /\
    GetStart (base self) = start /\ GetSize (base self) = sizeBytes /\
    GetUsed (base self) = 0 /\ GetNumAllocation (base self) = 0.
Proof.
  intros Hs H1 H2. unfold sizeof_FreeBlock in Hs.
  unfold FreeListAllocator_ctor, Allocator_ctor, sizeof_FreeBlock.
  destruct (Z.ltb_spec 0 sizeBytes); [|lia].
  destruct (Z.ltb_spec 24 sizeBytes); [|lia].
  eexists _, _. split; [reflexivity|].
  split; [|repeat apply conj; reflexivity].
  split.
  - unfold linked. cbn [lseg m_freeBlocks].
    unfold nullptr. repeat apply conj; try reflexivity; try lia; read_field.
  - cbn [ascending]. unfold sizeof_AllocationHeader.
    repeat apply conj; try exact I; lia.
Qed.

(** ** Counters *)

Lemma Allocate_carve_counters self m bestFit total adj :
  exists footprint,
    let r := Allocate_carve self m bestFit total adj in
    m_usedBytes (base (snd (fst r)))
    = wrap64 (m_usedBytes (base self) + footprint) /\
    m_numAllocations (base (snd (fst r)))
    = wrap64 (m_numAllocations (base self) + 1) /\
    AllocationHeader.size (snd r)
      (wrap64 (fst (fst r) - sizeof_AllocationHeader))
    = to_int footprint.
Proof.
  unfold Allocate_carve.
  repeat match goal with
         | |- context [if ?c then _ else _] => destruct c
         end;
    eexists; cbv zeta;
    cbn [fst snd base with_counters with_freeBlocks m_usedBytes
         m_numAllocations];
    (split; [reflexivity|]); (split; [reflexivity|]);
    unfold AllocationHeader.size, AllocationHeader.set_size;
    apply load_int_store_int.
Qed.

(** Each [Allocate] that returns a pointer has incremented the allocation
    count and added to the used bytes the footprint it recorded in the
    header (up to the conversion of the footprint to the [int] field). *)
Lemma Allocate_counters fuel self m size alignment ptr self' m' :
  Allocate fuel self m size alignment = Some (Returned ptr, self', m') ->
  exists footprint,
    GetUsed (base self') = wrap64 (GetUsed (base self) + footprint) /\
    GetNumAllocation (base self')
    = wrap64 (GetNumAllocation (base self) + 1) /\
    AllocationHeader.size m' (wrap64 (ptr - sizeof_AllocationHeader))
    = to_int footprint.
Proof.
  unfold Allocate. intros Hrun.
  destruct (Allocate_search _ _ _ _ _ _ _ _) as [[[[m1 bf] t] adj]|];
    [|discriminate].
  destruct (bf =? nullptr); [discriminate|].
  destruct (Allocate_carve_counters self m1 bf t adj) as (fp & Hfp).
  destruct (Allocate_carve self m1 bf t adj) as [[p self1] m2].
  cbn [fst snd] in Hfp. injection Hrun as <- <- <-.
  exists fp. exact Hfp.
Qed.

Lemma Free_relink_base self m newBlock :
  base (fst (Free_relink self m newBlock)) = base self.
Proof. unfold Free_relink. destruct (negb _); reflexivity. Qed.

(** Each [Free] that returns has decremented the allocation count and
    subtracted the size it read from the header when it was called. *)
Lemma Free_counters fuel self m ptr self' m' :
  Free fuel self m ptr = Some (Returned tt, self', m') ->
  GetNumAllocation (base self')
  = wrap64 (GetNumAllocation (base self) - 1) /\
  GetUsed (base self')
  = wrap64 (GetUsed (base self)
            - int_to_size_t
                (AllocationHeader.size m
                   (ptr_sub ptr sizeof_AllocationHeader))).
Proof.
  unfold Free. intros Hrun.
  destruct (ptr =? nullptr); [discriminate|].
  destruct (Free_scan _ _ _ _ _) as [[prevFreeBlock freeBlock]|];
    [|discriminate].
  destruct (Free_coalesce_backward _ _) as [m1 newBlock].
  pose proof (Free_relink_base self (Free_coalesce_forward m1 newBlock)
                newBlock) as Hbase.
  destruct (Free_relink _ _ _) as [self1 m2]. cbn [fst] in Hbase.
  injection Hrun as <- _. cbn [base with_counters GetNumAllocation GetUsed
    m_numAllocations m_usedBytes]. rewrite Hbase. split; reflexivity.
Qed.

(** ** The adaptor's equality *)

(** C9.  For an allocator class that has [FixedAllocator] as a base,
    [operator==] of two adaptors returns (without walking any chain) [true]
    exactly when the two allocators have the same start address; two
    adaptors bound to the same allocator compare equal, two adaptors over
    arenas with different start addresses compare unequal. *)
Theorem STLAdaptor_eq_fixed_arena
    (Alloc : Type) (C : AllocatorClass Alloc)
    (fuel : nat) (m : memory) (lhs rhs : STLAdaptor Alloc) :
  @is_base_of_FixedAllocator Alloc C = true ->
  let start_of (s : STLAdaptor Alloc) :=
    GetStart (as_Allocator (m_allocator s)) in
  (exists b, STLAdaptor_eq fuel m lhs rhs = Some b /\
             (b = true <-> start_of lhs = start_of rhs)) /\
  (m_allocator lhs = m_allocator rhs ->
   STLAdaptor_eq fuel m lhs rhs = Some true) /\
  (start_of lhs <> start_of rhs ->
   STLAdaptor_eq fuel m lhs rhs = Some false).
Proof.
  intros Hfixed start_of. subst start_of. unfold STLAdaptor_eq.
  rewrite Hfixed. cbv beta.
  split; [|split].
  - eexists. split; [reflexivity|]. apply Z.eqb_eq.
  - intros ->. rewrite Z.eqb_refl. reflexivity.
  - intros H. apply Z.eqb_neq in H. rewrite H. reflexivity.
Qed.

Lemma STLAdaptor_eq_fixed_arena_witness :
  @is_base_of_FixedAllocator FreeListAllocator FreeListAllocator_class = true /\
  (exists b,
     STLAdaptor_eq 1 (fun _ => 0) (mkSTLAdaptor arena_one)
       (mkSTLAdaptor arena_two) = Some b /\
     (b = true <-> 4096 = 8192)) /\
  (arena_one = arena_two ->
   STLAdaptor_eq 1 (fun _ => 0) (mkSTLAdaptor arena_one)
     (mkSTLAdaptor arena_two) = Some true) /\
  (4096 <> 8192 ->
   STLAdaptor_eq 1 (fun _ => 0) (mkSTLAdaptor arena_one)
     (mkSTLAdaptor arena_two) = Some false).
Proof.
  split; [reflexivity|].
  apply (STLAdaptor_eq_fixed_arena FreeListAllocator FreeListAllocator_class
           1 (fun _ => 0) (mkSTLAdaptor arena_one) (mkSTLAdaptor arena_two)).
  reflexivity.
Defined.

(** The two cases of the demonstration program: two adaptors over one
    allocator, and adaptors over two arenas. *)
Example adaptors_over_arenas (m : memory) :
  STLAdaptor_eq 1 m (mkSTLAdaptor arena_one) (mkSTLAdaptor arena_one)
  = Some true /\
  STLAdaptor_eq 1 m (mkSTLAdaptor arena_one) (mkSTLAdaptor arena_two)
  = Some false.
Proof. split; reflexivity. Qed.

(** ** A concrete free list *)

Lemma example_well_formed :
  well_formed example_allocator example_memory example_blocks.
Proof.
  split.
  - unfold linked, example_blocks. cbn [lseg m_freeBlocks example_allocator].
    repeat apply conj; try (vm_compute; reflexivity); discriminate.
  - unfold example_blocks. cbn [ascending]. unfold sizeof_AllocationHeader.
    repeat apply conj; try exact I; lia.
Qed.

Lemma Allocate_best_fit_witness :
  well_formed example_allocator example_memory example_blocks /\
  (exists b, In b example_blocks /\ qualifies 40 8 b) /\
  exists i a s self' m',
    best_fit_at 40 8 example_blocks i (a, s) /\
    Allocate 4 example_allocator example_memory 40 8
    = Some (Returned (wrap64 (a + adjustment_for 8 a)), self', m') /\
    AllocationHeader.adjustment m'
      (wrap64 (wrap64 (a + adjustment_for 8 a) - sizeof_AllocationHeader))
    = adjustment_for 8 a.
Proof.
  assert (Hq : exists b, In b example_blocks /\ qualifies 40 8 b).
  { exists (4608, 100). split.
    - unfold example_blocks. right. right. left. reflexivity.
    - vm_compute. reflexivity. }
  split; [exact example_well_formed|]. split; [exact Hq|].
  apply (Allocate_best_fit example_allocator example_memory example_blocks
           40 8 4).
  - exact example_well_formed.
  - cbn [length example_blocks]. lia.
  - exact Hq.
Defined.

Example best_fit_50_200_100 :
  let r := Allocate 4 example_allocator example_memory 40 8 in
  returned_pointer r = 4624 /\
  free_list 4 (memory_after r) (m_freeBlocks (allocator_after r))
  = [(4096, 50); (4256, 200); (4680, 28)].
Proof. split; vm_compute; reflexivity. Qed.

Lemma Allocate_out_of_memory_witness :
  well_formed example_allocator example_memory example_blocks /\
  (forall b, In b example_blocks -> ~ qualifies 1000 8 b) /\
  Allocate 4 example_allocator example_memory 1000 8
  = Some (bad_alloc, example_allocator, example_memory) /\
  forall p : Z, bad_alloc <> Returned p.
Proof.
  assert (Hq : forall b, In b example_blocks -> ~ qualifies 1000 8 b).
  { intros b Hb. unfold example_blocks in Hb. cbn [In] in Hb.
    destruct Hb as [<-|[<-|[<-|[]]]]; vm_compute; discriminate. }
  split; [exact example_well_formed|]. split; [exact Hq|].
  apply (Allocate_out_of_memory example_allocator example_memory
           example_blocks 1000 8 4).
  - exact example_well_formed.
  - cbn [length example_blocks]. lia.
  - exact Hq.
Defined.

(** ** Runs of clients *)

Lemma returned_eta (r : option (outcome Z * FreeListAllocator * memory)) :
  has_returned r = true ->
  r = Some (Returned (returned_pointer r), allocator_after r, memory_after r).
Proof.
  destruct r as [[[[p| |] self] m]|]; cbn; intros H;
    [reflexivity|discriminate..].
Qed.

Lemma Allocate_consumes_or_splits_witness :
  let r := Allocate 4 example_allocator example_memory 40 8 in
  let ptr := returned_pointer r in
  let self' := allocator_after r in
  let m' := memory_after r in
  well_formed example_allocator example_memory example_blocks /\
  valid_request 40 8 /\
  r = Some (Returned ptr, self', m') /\
  exists l1 a s l2,
    example_blocks = l1 ++ (a, s) :: l2 /\
    best_fit_at 40 8 example_blocks (length l1) (a, s) /\
    let totalSize := 40 + adjustment_for 8 a + sizeof_AllocationHeader in
    ptr = a + adjustment_for 8 a /\
    totalSize < s /\
    if s - totalSize <=? sizeof_AllocationHeader
    then
      AllocationHeader.size m' (ptr - sizeof_AllocationHeader) = s /\
      GetUsed (base self') = wrap64 (GetUsed (base example_allocator) + s) /\
      well_formed self' m' (l1 ++ l2)
    else
      AllocationHeader.size m' (ptr - sizeof_AllocationHeader) = totalSize /\
      GetUsed (base self')
      = wrap64 (GetUsed (base example_allocator) + totalSize) /\
      well_formed self' m' (l1 ++ (a + totalSize, s - totalSize) :: l2).
Proof.
  intros r ptr self' m'.
  pose proof example_well_formed as Hwf.
  assert (Hreq : valid_request 40 8).
  { split; [lia|]. exists 3. split; [lia|reflexivity]. }
  assert (Hrun : r = Some (Returned ptr, self', m')).
  { apply returned_eta. vm_compute. reflexivity. }
  split; [exact Hwf|]. split; [exact Hreq|]. split; [exact Hrun|].
  apply (Allocate_consumes_or_splits example_allocator example_memory
           example_blocks 40 8 4 ptr self' m' Hwf Hreq).
  - cbn [length example_blocks]. lia.
  - exact Hrun.
Defined.

Lemma adjustment_aligned_minimal_witness :
  (4100 + align_forward_adjustment_with_header sizeof_AllocationHeader 4100 (2 ^ 3))
    mod 2 ^ 3 = 0 /\
  sizeof_AllocationHeader
  <= align_forward_adjustment_with_header sizeof_AllocationHeader 4100 (2 ^ 3) /\
  (forall adj', sizeof_AllocationHeader <= adj' ->
                (4100 + adj') mod 2 ^ 3 = 0 ->
                align_forward_adjustment_with_header
                  sizeof_AllocationHeader 4100 (2 ^ 3) <= adj') /\
  (forall fuel self m size ptr self' m',
     Allocate fuel self m size (2 ^ 3) = Some (Returned ptr, self', m') ->
     ptr mod 2 ^ 3 = 0).
Proof.
  apply (adjustment_aligned_minimal 4100 3); lia.
Defined.

(** Three 32-byte allocations A, B, C from a 300-byte arena (64 bytes
    each, 108 bytes stay free), freed in each of the six orders.  One block
    of 300 bytes remains when C is freed last; the other orders end with a
    block of size 0 or 128. *)
Example coalescing_300 (m0 : memory) :
  let after frees :=
    report (session 300 4096 m0 8
              ([CallAllocate 32 8; CallAllocate 32 8; CallAllocate 32 8]
               ++ map CallFree frees)) in
  let ptrs := Returned [4112; 4176; 4240] in
  after [1; 0; 2]%nat = Some (ptrs, 0, 0, [(4096, 300)]) /\
  after [0; 1; 2]%nat = Some (ptrs, 0, 0, [(4096, 300)]) /\
  after [0; 2; 1]%nat = Some (ptrs, 0, 0, [(4096, 128)]) /\
  after [1; 2; 0]%nat = Some (ptrs, 0, 0, [(4096, 0)]) /\
  after [2; 0; 1]%nat = Some (ptrs, 0, 0, [(4096, 128)]) /\
  after [2; 1; 0]%nat = Some (ptrs, 0, 0, [(4096, 0)]).
Proof. repeat apply conj; vm_compute; reflexivity. Qed.

(** C5, evaluated.  Arena of 202 bytes at address 4096; A, B, C are three
    32-byte allocations (C takes the whole last block, the free list becomes
    empty); they are freed in the order B, A, C.  In [Free(B)] the new
    [FreeBlock] and the allocation header start at the same address, so the
    second read of [header->adjustment] yields the [next] pointer just
    stored, which is null: the zero-fill starts at the block start and
    erases the record.  The free list ends with two blocks of size 0.  With
    300 bytes and the order C, B, A the list ends with one block of size
    0. *)
Theorem coalescing_wipes_blocks (m0 : memory) :
  report (session 202 4096 m0 8
            [CallAllocate 32 8; CallAllocate 32 8; CallAllocate 32 8;
             CallFree 1; CallFree 0; CallFree 2])
  = Some (Returned [4112; 4176; 4240], 0, 0, [(4096, 0); (4224, 0)]) /\
  report (session 300 4096 m0 8
            [CallAllocate 32 8; CallAllocate 32 8; CallAllocate 32 8;
             CallFree 2; CallFree 1; CallFree 0])
  = Some (Returned [4112; 4176; 4240], 0, 0, [(4096, 0)]).
Proof. split; vm_compute; reflexivity. Qed.

(** C6, evaluated.  Arena of 300 bytes at 4096: [a = Allocate(64)],
    [b = Allocate(32)], [Free(a)], [c = Allocate(44)], [Free(b)],
    [Free(c)].  The third allocation splits the 96-byte hole and leaves 20
    bytes; the 24-byte [FreeBlock] record written there runs 4 bytes into the
    header of [b] and sets its size to 0, so [Free(b)] subtracts 0.  Every
    allocation is freed, yet [GetUsed()] is 64 while [GetNumAllocation()] is
    0. *)
Theorem matched_calls_leave_used_bytes (m0 : memory) :
  report (session 300 4096 m0 8
            [CallAllocate 64 8; CallAllocate 32 8; CallFree 0;
             CallAllocate 44 8; CallFree 1; CallFree 2])
  = Some (Returned [4112; 4208; 4112], 64, 0, [(4096, 96); (4256, 140)]).
Proof. vm_compute. reflexivity. Qed.

(** C7, evaluated.  On a fresh 300-byte arena, [Allocate(32)], a write of
    32 bytes [0xAB], [Free] and [Allocate(32)] again: the zero-fill of [Free]
    erases the free block's own record, and the second [Allocate] throws
    [std::bad_alloc].  On a 1000-byte arena with a free block before the one
    being reused, the payload returned by the second [Allocate(90)] starts
    with the bytes of the [prev] pointer (4096) followed by the bytes
    [0xAB] written before the [Free]. *)
Theorem reallocation_not_zero_filled (m0 : memory) :
  report (session 300 4096 m0 8
            [CallAllocate 32 8; CallFill 0 32 171; CallFree 0;
             CallAllocate 32 8])
  = Some (bad_alloc, 0, 0, [(4096, 0)]) /\
  payload 12
    (session 1000 4096 m0 8
       [CallAllocate 160 8; CallAllocate 32 8; CallAllocate 100 8;
        CallAllocate 32 8; CallFree 0; CallFree 2;
        CallAllocate 90 8; CallFill 4 90 171; CallFree 4;
        CallAllocate 90 8]) 5
  = [0; 16; 0; 0; 0; 0; 0; 0; 171; 171; 171; 171].
Proof. split; vm_compute; reflexivity. Qed.

(** C8, evaluated.  The [size] fields are [int]s.  An arena of
    [2^32 + 100] bytes gets a free block whose size field reads 100, and a
    request for 200 bytes fails.  In an arena of 3 GiB (size field
    [-2^30]) an allocation of 2 GiB has footprint [2^31 + 32], and its header
    records the size [-2^31 + 32]. *)
Theorem size_fields_truncate (m0 : memory) :
  report (session (2 ^ 32 + 100) 4096 m0 4 [CallAllocate 200 8])
  = Some (bad_alloc, 0, 0, [(4096, 100)]) /\
  let r := session (3 * 2 ^ 30) 4096 m0 4 [CallAllocate (2 ^ 31) 8] in
  report r
  = Some (Returned [4112], 2 ^ 31 + 32, 1, [(2147487776, 1073741792)]) /\
  AllocationHeader.size (memory_after r) 4096 = - 2 ^ 31 + 32.
Proof. repeat apply conj; vm_compute; reflexivity. Qed.

(** C10, evaluated.  Constructing the allocator over [2^32 + 100] bytes
    passes both assertions and sets [GetSize()] to [2^32 + 100], but the
    single free block at the arena start has size 100. *)
Theorem constructor_truncates_arena_size (m0 : memory) :
  let r := session (2 ^ 32 + 100) 4096 m0 4 [] in
  GetSize (base (allocator_after r)) = 2 ^ 32 + 100 /\
  report r = Some (Returned [], 0, 0, [(4096, 100)]).
Proof. split; vm_compute; reflexivity. Qed.

(** ** [ZeroedAddresses] *)

Lemma ZeroedAddresses_loop_value : forall n m p z x,
  z - p <= Z.of_nat n ->
  ZeroedAddresses_loop n m p z x
  = if (p <=? x) && (x <? z) then 0 else m x.
Proof.
  induction n as [|n IH]; intros m p z x Hn; cbn [ZeroedAddresses_loop].
  - destruct (Z.leb_spec p x); destruct (Z.ltb_spec x z); cbn [andb];
      try reflexivity. lia.
  - destruct (Z.ltb_spec p z) as [Hlt|Hge].
    + rewrite IH by lia. unfold store_u8.
      destruct (Z.eq_dec x p) as [->|Hne].
      * rewrite store_le_inside by lia. rewrite Z.sub_diag.
        destruct (Z.leb_spec (p + 1) p); [lia|].
        destruct (Z.leb_spec p p); [|lia].
        destruct (Z.ltb_spec p z); [|lia]. reflexivity.
      * rewrite store_le_outside by lia.
        destruct (Z.leb_spec (p + 1) x); destruct (Z.leb_spec p x);
          destruct (Z.ltb_spec x z); cbn [andb]; try reflexivity; lia.
    + destruct (Z.leb_spec p x); destruct (Z.ltb_spec x z); cbn [andb];
        try reflexivity. lia.
Qed.

Lemma ZeroedAddresses_value m p z x :
  ZeroedAddresses m p z x = if (p <=? x) && (x <? z) then 0 else m x.
Proof. unfold ZeroedAddresses. apply ZeroedAddresses_loop_value. lia. Qed.

Lemma load_le_ZeroedAddresses_other k m p z b :
  b + Z.of_nat k <= p \/ z <= b ->
  load_le k (ZeroedAddresses m p z) b = load_le k m b.
Proof.
  intros H. apply load_le_ext. intros x Hx. rewrite ZeroedAddresses_value.
  destruct (Z.leb_spec p x); destruct (Z.ltb_spec x z); cbn [andb];
    try reflexivity. lia.
Qed.

(** X1.  [ZeroedAddresses(ptr_addr, zero_addr)] sets every byte of
    [ptr_addr, zero_addr) to 0 and leaves every byte outside that range as
    it was; when [zero_addr <= ptr_addr] it stores nothing at all. *)
Theorem ZeroedAddresses_zeroes_range m ptr_addr zero_addr :
  (forall x, ptr_addr <= x < zero_addr ->
     load_u8 (ZeroedAddresses m ptr_addr zero_addr) x = 0) /\
  (forall x, x < ptr_addr \/ zero_addr <= x ->
     ZeroedAddresses m ptr_addr zero_addr x = m x) /\
  (zero_addr <= ptr_addr -> ZeroedAddresses m ptr_addr zero_addr = m).
Proof.
  split; [|split].
  - intros x Hx. unfold load_u8. cbn [load_le].
    rewrite ZeroedAddresses_value.
    destruct (Z.leb_spec ptr_addr x); destruct (Z.ltb_spec x zero_addr);
      cbn [andb]; try lia. reflexivity.
  - intros x Hx. rewrite ZeroedAddresses_value.
    destruct (Z.leb_spec ptr_addr x); destruct (Z.ltb_spec x zero_addr);
      cbn [andb]; try lia; reflexivity.
  - intros H. unfold ZeroedAddresses.
    replace (Z.to_nat (zero_addr - ptr_addr)) with O by lia. reflexivity.
Qed.

(** ** Pointer helpers *)

(** X2.  [ptr_add] and [ptr_sub] undo each other on every 64-bit address,
    whatever the amount, wrap-around included. *)
Theorem ptr_add_sub_round_trip p amount :
  0 <= p < 2 ^ 64 ->
  ptr_sub (ptr_add p amount) amount = p /\
  ptr_add (ptr_sub p amount) amount = p.
Proof.
  intros Hp. unfold ptr_sub, ptr_add, wrap64. split.
  - rewrite Zminus_mod_idemp_l. replace (p + amount - amount) with p by lia.
    apply Z.mod_small. exact Hp.
  - rewrite Zplus_mod_idemp_l. replace (p - amount + amount) with p by lia.
    apply Z.mod_small. exact Hp.
Qed.

Lemma ptr_add_sub_round_trip_witness :
  0 <= 4112 < 2 ^ 64 /\
  ptr_sub (ptr_add 4112 16) 16 = 4112 /\
  ptr_add (ptr_sub 4112 16) 16 = 4112.
Proof.
  split; [lia|]. apply (ptr_add_sub_round_trip 4112 16). lia.
Defined.

(** ** Overhead of an allocation *)

Lemma padding_aligned p k :
  0 <= k < 64 -> 0 <= p < 2 ^ 64 -> p mod 2 ^ k = 0 -> padding p (2 ^ k) = 0.
Proof.
  intros Hk Hp Hal.
  pose proof (padding_range p k Hk Hp) as Hr.
  pose proof (padding_congr p k Hk) as Hc.
  pose proof (pow2_bounds k Hk) as Ha.
  rewrite Z.add_mod, Hal, Z.add_0_l, Z.mod_mod in Hc by lia.
  rewrite Z.mod_small in Hc by lia. exact Hc.
Qed.

Lemma adjustment_bounds p k :
  0 <= k < 64 -> 0 <= p < 2 ^ 64 ->
  let a := 2 ^ k in
  let adjustment :=
    align_forward_adjustment_with_header sizeof_AllocationHeader p a in
  adjustment < a + sizeof_AllocationHeader /\
  (a <= sizeof_AllocationHeader -> p mod a = 0 ->
   adjustment = sizeof_AllocationHeader).
Proof.
  intros Hk Hp a adjustment. subst adjustment a.
  pose proof (pow2_bounds k Hk) as Ha.
  pose proof (padding_range p k Hk Hp) as Hr.
  rewrite (align_value p k Hk Hp). cbv zeta.
  unfold sizeof_AllocationHeader.
  set (a := 2 ^ k) in *. set (pad := padding p a) in *.
  split.
  - destruct (Z.ltb_spec pad 16); [|lia].
    pose proof (Z.mul_div_le (16 - pad + a - 1) a ltac:(lia)). lia.
  - intros Hsmall Hal.
    assert (Hpad : pad = 0) by (apply padding_aligned; assumption).
    clearbody pad.
    rewrite Hpad. cbn [Z.ltb Z.compare]. 
    assert (Hk4 : k <= 4).
    { destruct (Z_le_gt_dec k 4); [assumption|].
      assert (H5 : 2 ^ 5 <= 2 ^ k) by (apply Z.pow_le_mono_r; lia).
      fold a in H5. lia. }
    assert (Hdiv : 16 = a * 2 ^ (4 - k)).
    { unfold a. rewrite <- Z.pow_add_r by lia.
      replace (k + (4 - k)) with 4 by lia. reflexivity. }
    assert (Hq : (16 - 0 + a - 1) / a = 2 ^ (4 - k)).
    { symmetry. apply Z.div_unique with (r := a - 1); lia. }
    rewrite Hq. lia.
Qed.

(** X3.  For a power-of-two alignment [a] the adjustment computed by
    [align_forward_adjustment_with_header] stays below
    [a + sizeof(AllocationHeader)]; when the address is already aligned and
    [a] is at most the header size, the adjustment is exactly the header
    size, so the header starts at the block start. *)
Theorem adjustment_overhead p k :
  0 <= k < 64 -> 0 <= p < 2 ^ 64 ->
  let a := 2 ^ k in
  let adjustment :=
    align_forward_adjustment_with_header sizeof_AllocationHeader p a in
  adjustment < a + sizeof_AllocationHeader /\
  (a <= sizeof_AllocationHeader -> p mod a = 0 ->
   adjustment = sizeof_AllocationHeader).
Proof. exact (adjustment_bounds p k). Qed.

Lemma adjustment_overhead_witness :
  let adjustment :=
    align_forward_adjustment_with_header sizeof_AllocationHeader 4096 (2 ^ 3) in
  0 <= 4096 < 2 ^ 64 /\
  adjustment < 2 ^ 3 + sizeof_AllocationHeader /\
  (2 ^ 3 <= sizeof_AllocationHeader -> 4096 mod 2 ^ 3 = 0 ->
   adjustment = sizeof_AllocationHeader).
Proof.
  split; [lia|]. apply (adjustment_overhead 4096 3); lia.
Defined.

(** ** What a call leaves alone *)

Lemma Allocate_carve_arena self m bestFit total adj :
  let r := Allocate_carve self m bestFit total adj in
  m_size (base (snd (fst r))) = m_size (base self) /\
  m_start (base (snd (fst r))) = m_start (base self).
Proof.
  unfold Allocate_carve.
  repeat match goal with
         | |- context [if ?c then _ else _] => destruct c
         end;
    cbv zeta;
    cbn [fst snd base with_counters with_freeBlocks m_size m_start];
    split; reflexivity.
Qed.

Lemma Allocate_arena fuel self m size alignment o self' m' :
  Allocate fuel self m size alignment = Some (o, self', m') ->
  m_size (base self') = m_size (base self) /\
  m_start (base self') = m_start (base self).
Proof.
  unfold Allocate. intros Hrun.
  destruct (Allocate_search _ _ _ _ _ _ _ _) as [[[[m1 bf] t] adj]|];
    [|discriminate].
  destruct (bf =? nullptr).
  - injection Hrun as _ <- _. split; reflexivity.
  - pose proof (Allocate_carve_arena self m1 bf t adj) as Hfp.
    destruct (Allocate_carve self m1 bf t adj) as [[p self1] m2].
    cbn [fst snd] in Hfp. injection Hrun as _ <- _. exact Hfp.
Qed.

Lemma Free_arena fuel self m ptr o self' m' :
  Free fuel self m ptr = Some (o, self', m') ->
  m_size (base self') = m_size (base self) /\
  m_start (base self') = m_start (base self).
Proof.
  unfold Free. intros Hrun.
  destruct (ptr =? nullptr).
  - injection Hrun as _ <- _. split; reflexivity.
  - destruct (Free_scan _ _ _ _ _) as [[prevFreeBlock freeBlock]|];
      [|discriminate].
    destruct (Free_coalesce_backward _ _) as [m1 newBlock].
    pose proof (Free_relink_base self (Free_coalesce_forward m1 newBlock)
                  newBlock) as Hbase.
    destruct (Free_relink _ _ _) as [self1 m2]. cbn [fst] in Hbase.
    injection Hrun as _ <- _.
    cbn [base with_counters m_size m_start]. rewrite Hbase.
    split; reflexivity.
Qed.

(** X4.  Whatever the memory holds, a call of [Allocate] that ends never
    fails an assertion; when it throws [std::bad_alloc] it has left the
    allocator object and the memory exactly as they were; and in every case
    [GetSize()] and [GetStart()] are unchanged. *)
Theorem Allocate_outcomes fuel self m size alignment o self' m' :
  Allocate fuel self m size alignment = Some (o, self', m') ->
  o <> assertion_failure /\
  (o = bad_alloc -> self' = self /\ m' = m) /\
  GetSize (base self') = GetSize (base self) /\
  GetStart (base self') = GetStart (base self).
Proof.
  intros Hrun. split; [|split].
  - unfold Allocate in Hrun.
    destruct (Allocate_search _ _ _ _ _ _ _ _) as [[[[m1 bf] t] adj]|];
      [|discriminate].
    destruct (bf =? nullptr).
    + injection Hrun as <- _ _. discriminate.
    + destruct (Allocate_carve self m1 bf t adj) as [[p self1] m2].
      injection Hrun as <- _ _. discriminate.
  - intros ->. eapply Allocate_bad_alloc_unchanged. exact Hrun.
  - eapply Allocate_arena. exact Hrun.
Qed.

Lemma Allocate_outcomes_witness :
  Allocate 4 example_allocator example_memory 1000 8
  = Some (bad_alloc, example_allocator, example_memory) /\
  bad_alloc <> @assertion_failure Z /\
  (@bad_alloc Z = bad_alloc ->
   example_allocator = example_allocator /\ example_memory = example_memory) /\
  GetSize (base example_allocator) = GetSize (base example_allocator) /\
  GetStart (base example_allocator) = GetStart (base example_allocator).
Proof.
  assert (Hrun : Allocate 4 example_allocator example_memory 1000 8
                 = Some (bad_alloc, example_allocator, example_memory)).
  { unfold Allocate.
    rewrite (Allocate_search_none 1000 8 example_blocks example_memory nullptr
               (m_freeBlocks example_allocator) 4 (proj1 example_well_formed)).
    - reflexivity.
    - cbn [length example_blocks]. lia.
    - intros b Hb. unfold example_blocks in Hb. cbn [In] in Hb.
      destruct Hb as [<-|[<-|[<-|[]]]]; vm_compute; discriminate. }
  split; [exact Hrun|].
  apply (Allocate_outcomes 4 example_allocator example_memory 1000 8
           bad_alloc example_allocator example_memory Hrun).
Defined.

(** X5.  Whatever the memory holds, a call of [Free] that ends never throws
    [std::bad_alloc]; it fails its assertion exactly when the pointer is
    null, and then allocator and memory are untouched; [GetSize()] and
    [GetStart()] are unchanged in every case. *)
Theorem Free_outcomes fuel self m ptr o self' m' :
  Free fuel self m ptr = Some (o, self', m') ->
  o <> bad_alloc /\
  (o = assertion_failure <-> ptr = nullptr) /\
  (ptr = nullptr -> self' = self /\ m' = m) /\
  GetSize (base self') = GetSize (base self) /\
  GetStart (base self') = GetStart (base self).
Proof.
  intros Hrun.
  assert (Harena := Free_arena _ _ _ _ _ _ _ Hrun).
  unfold Free in Hrun.
  destruct (Z.eqb_spec ptr nullptr) as [Hp|Hp].
  - injection Hrun as <- <- <-.
    repeat apply conj; try reflexivity; try discriminate; tauto.
  - destruct (Free_scan _ _ _ _ _) as [[prevFreeBlock freeBlock]|];
      [|discriminate].
    destruct (Free_coalesce_backward _ _) as [m1 newBlock].
    destruct (Free_relink _ _ _) as [self1 m2].
    injection Hrun as <- _ _.
    split; [discriminate|]. split; [split; [discriminate|contradiction]|].
    split; [contradiction|]. exact Harena.
Qed.

Lemma Free_outcomes_witness :
  Free 0 example_allocator example_memory nullptr
  = Some (assertion_failure, example_allocator, example_memory) /\
  @assertion_failure unit <> bad_alloc /\
  (@assertion_failure unit = assertion_failure <-> nullptr = nullptr) /\
  (nullptr = nullptr ->
   example_allocator = example_allocator /\ example_memory = example_memory) /\
  GetSize (base example_allocator) = GetSize (base example_allocator) /\
  GetStart (base example_allocator) = GetStart (base example_allocator).
Proof.
  split; [reflexivity|].
  apply (Free_outcomes 0 example_allocator example_memory nullptr
           assertion_failure example_allocator example_memory).
  reflexivity.
Defined.

(** ** Records and frames *)

Lemma size_frame m m' x :
  (forall y, x <= y < x + 4 -> m' y = m y) ->
  FreeBlock.size m' x = FreeBlock.size m x.
Proof.
  intros H. unfold FreeBlock.size, load_int. f_equal.
  apply load_le_ext. intros y Hy. rewrite H by (cbn in Hy; lia). reflexivity.
Qed.

Lemma load_u64_frame m m' x :
  (forall y, x <= y < x + 8 -> m' y = m y) ->
  load_u64 m' x = load_u64 m x.
Proof.
  intros H. unfold load_u64.
  apply load_le_ext. intros y Hy. rewrite H by (cbn in Hy; lia). reflexivity.
Qed.

Lemma next_frame m m' x :
  (forall y, x + 8 <= y < x + 16 -> m' y = m y) ->
  FreeBlock.next m' x = FreeBlock.next m x.
Proof.
  intros H. unfold FreeBlock.next. apply load_u64_frame.
  intros y Hy. apply H. lia.
Qed.

Lemma prev_frame m m' x :
  (forall y, x + 16 <= y < x + 24 -> m' y = m y) ->
  FreeBlock.prev m' x = FreeBlock.prev m x.
Proof.
  intros H. unfold FreeBlock.prev. apply load_u64_frame.
  intros y Hy. apply H. lia.
Qed.

Lemma untouched_frame m m' x :
  (forall y, x <= y < x + 24 -> m' y = m y) -> untouched m m' x.
Proof.
  intros H. unfold untouched. split; [|split].
  - apply size_frame. intros y Hy. apply H. lia.
  - apply next_frame. intros y Hy. apply H. lia.
  - apply prev_frame. intros y Hy. apply H. lia.
Qed.

Lemma set_size_bytes m x v y :
  y < x \/ x + 4 <= y -> FreeBlock.set_size m x v y = m y.
Proof.
  intros H. unfold FreeBlock.set_size, store_int.
  apply store_le_outside. cbn. lia.
Qed.

Lemma set_next_bytes m x v y :
  y < x + 8 \/ x + 16 <= y -> FreeBlock.set_next m x v y = m y.
Proof.
  intros H. unfold FreeBlock.set_next, store_u64.
  apply store_le_outside. cbn. lia.
Qed.

Lemma set_prev_bytes m x v y :
  y < x + 16 \/ x + 24 <= y -> FreeBlock.set_prev m x v y = m y.
Proof.
  intros H. unfold FreeBlock.set_prev, store_u64.
  apply store_le_outside. cbn. lia.
Qed.

Lemma size_set_size m x v :
  - 2 ^ 31 <= v < 2 ^ 31 -> FreeBlock.size (FreeBlock.set_size m x v) x = v.
Proof.
  intros H. unfold FreeBlock.size, FreeBlock.set_size.
  rewrite load_int_store_int. apply to_int_small. exact H.
Qed.

Lemma next_set_next m x v :
  0 <= v < 2 ^ 64 -> FreeBlock.next (FreeBlock.set_next m x v) x = v.
Proof.
  intros H. unfold FreeBlock.next, FreeBlock.set_next.
  rewrite load_u64_store_u64. apply wrap64_small. exact H.
Qed.

Lemma prev_set_prev m x v :
  0 <= v < 2 ^ 64 -> FreeBlock.prev (FreeBlock.set_prev m x v) x = v.
Proof.
  intros H. unfold FreeBlock.prev, FreeBlock.set_prev.
  rewrite load_u64_store_u64. apply wrap64_small. exact H.
Qed.

(** ** Lists under a change of memory *)

Lemma lseg_untouched m m' : forall l prv p q,
  lseg m prv p l q ->
  (forall x sx, In (x, sx) l -> untouched m m' x) ->
  lseg m' prv p l q.
Proof.
  induction l as [|[x sx] l IH]; intros prv p q Hl Hf; cbn [lseg] in *.
  - exact Hl.
  - destruct Hl as (-> & Hx & Hs & Hp & Hl).
    destruct (Hf x sx (or_introl eq_refl)) as (F1 & F2 & F3).
    split; [reflexivity|]. split; [exact Hx|].
    split; [congruence|]. split; [congruence|].
    rewrite F2. apply IH; [exact Hl|].
    intros y sy Hy. apply (Hf y sy). right. exact Hy.
Qed.

Lemma lseg_set_last m m' q' : forall l prv p q lo,
  lseg m prv p l q -> ascending lo l -> l <> [] ->
  (forall x sx, In (x, sx) l -> x <> last_addr l prv -> untouched m m' x) ->
  FreeBlock.size m' (last_addr l prv) = FreeBlock.size m (last_addr l prv) ->
  FreeBlock.prev m' (last_addr l prv) = FreeBlock.prev m (last_addr l prv) ->
  FreeBlock.next m' (last_addr l prv) = q' ->
  lseg m' prv p l q'.
Proof.
  induction l as [|[x sx] l IH]; intros prv p q lo Hl Hasc Hne Hf Fs Fp Fn;
    [contradiction|].
  cbn [lseg last_addr ascending] in *.
  destruct Hl as (-> & Hx & Hs & Hp & Hl).
  destruct Hasc as (A1 & A2 & A3 & A4).
  destruct l as [|[y sy] l].
  - cbn [last_addr lseg] in *.
    split; [reflexivity|]. split; [exact Hx|].
    split; [congruence|]. split; [congruence|]. exact Fn.
  - assert (Hlast : x + sx + sizeof_AllocationHeader
                    <= last_addr ((y, sy) :: l) x)
      by (apply ascending_last_addr; [exact A4|discriminate]).
    destruct (Hf x sx (or_introl eq_refl)) as (F1 & F2 & F3).
    { unfold sizeof_AllocationHeader in *. lia. }
    split; [reflexivity|]. split; [exact Hx|].
    split; [congruence|]. split; [congruence|].
    rewrite F2.
    apply (IH x (FreeBlock.next m x) q _ Hl A4); try assumption;
      [discriminate|].
    intros z sz Hz Hzl. apply (Hf z sz); [right; exact Hz|exact Hzl].
Qed.

Lemma lseg_set_first m m' prv' : forall l prv p q,
  lseg m prv p l q -> l <> [] ->
  (forall x sx, In (x, sx) (tl l) -> untouched m m' x) ->
  FreeBlock.size m' p = FreeBlock.size m p ->
  FreeBlock.next m' p = FreeBlock.next m p ->
  FreeBlock.prev m' p = prv' ->
  lseg m' prv' p l q.
Proof.
  intros [|[x sx] l] prv p q Hl Hne Hf Fs Fn Fp; [contradiction|].
  cbn [lseg tl] in *.
  destruct Hl as (-> & Hx & Hs & Hp & Hl).
  split; [reflexivity|]. split; [exact Hx|].
  split; [congruence|]. split; [exact Fp|].
  rewrite Fn. apply (lseg_untouched m m' l _ _ _ Hl Hf).
Qed.

(** ** The scan of [Free] *)

Lemma Free_scan_spec m blockStart l2 : forall l1 prv p fuel,
  lseg m prv p (l1 ++ l2) nullptr ->
  (forall x sx, In (x, sx) l1 -> x < blockStart) ->
  (forall x sx, In (x, sx) l2 -> blockStart <= x) ->
  (length l1 < fuel)%nat ->
  Free_scan fuel m blockStart prv p
  = Some (last_addr l1 prv, head_addr l2 nullptr).
Proof.
  induction l1 as [|[x sx] l1 IH]; intros prv p fuel Hl Hlo Hhi Hfuel;
    (destruct fuel as [|fuel]; [cbn [length] in Hfuel; lia|]);
    cbn [Free_scan app last_addr] in *.
  - pose proof (lseg_head _ _ _ _ _ Hl) as ->.
    destruct l2 as [|[y sy] l2]; cbn [head_addr].
    + rewrite Z.eqb_refl. reflexivity.
    + specialize (Hhi y sy (or_introl eq_refl)).
      destruct (Z.ltb_spec y blockStart); [lia|].
      rewrite andb_false_r. reflexivity.
  - cbn [lseg] in Hl. destruct Hl as (-> & Hx & Hs & Hp & Hl).
    destruct (Z.eqb_spec x nullptr); [contradiction|].
    pose proof (Hlo x sx (or_introl eq_refl)).
    destruct (Z.ltb_spec x blockStart); [|lia]. cbn [negb andb].
    apply IH; [exact Hl| |exact Hhi|cbn [length] in Hfuel; lia].
    intros y sy Hy. apply (Hlo y sy). right. exact Hy.
Qed.

(** ** The steps of [Free] on records *)

Lemma Free_insert_fields m b bs prv nxt :
  0 <= bs < 2 ^ 31 -> 0 <= prv < 2 ^ 64 -> 0 <= nxt < 2 ^ 64 ->
  let m1 := Free_insert m b bs prv nxt in
  FreeBlock.size m1 b = bs /\ FreeBlock.next m1 b = nxt /\
  FreeBlock.prev m1 b = prv /\
  (forall y, y < b \/ b + 24 <= y -> m1 y = m y).
Proof.
  intros Hbs Hp Hn. unfold Free_insert. cbv zeta.
  split; [|split; [|split]].
  - rewrite (size_frame (FreeBlock.set_size m b bs)).
    + apply size_set_size. lia.
    + intros y Hy. rewrite set_prev_bytes, set_next_bytes by lia. reflexivity.
  - rewrite (next_frame (FreeBlock.set_next (FreeBlock.set_size m b bs) b nxt)).
    + apply next_set_next. exact Hn.
    + intros y Hy. rewrite set_prev_bytes by lia. reflexivity.
  - apply prev_set_prev. exact Hp.
  - intros y Hy.
    rewrite set_prev_bytes, set_next_bytes, set_size_bytes by lia.
    reflexivity.
Qed.

Lemma Free_coalesce_backward_none m b :
  FreeBlock.prev m b = nullptr \/
  wrap64 (FreeBlock.prev m b
          + int_to_size_t (FreeBlock.size m (FreeBlock.prev m b))) <> b ->
  Free_coalesce_backward m b = (m, b).
Proof.
  intros H. unfold Free_coalesce_backward.
  destruct H as [->|H].
  - rewrite Z.eqb_refl. reflexivity.
  - destruct (Z.eqb_spec (wrap64 (FreeBlock.prev m b
          + int_to_size_t (FreeBlock.size m (FreeBlock.prev m b)))) b);
      [contradiction|].
    rewrite andb_false_r. reflexivity.
Qed.

Lemma Free_coalesce_backward_merge m b bs prv ps nxt :
  FreeBlock.prev m b = prv -> FreeBlock.next m b = nxt ->
  FreeBlock.size m b = bs -> FreeBlock.size m prv = ps ->
  1 <= prv -> prv + 24 <= b -> b < 2 ^ 64 -> 0 < ps -> prv + ps = b ->
  0 <= bs -> ps + bs < 2 ^ 31 ->
  nxt = 0 \/ b + 24 <= nxt ->
  exists m',
    Free_coalesce_backward m b = (m', prv) /\
    FreeBlock.size m' prv = ps + bs /\
    FreeBlock.next m' prv = nxt /\
    FreeBlock.prev m' prv = FreeBlock.prev m prv /\
    (nxt <> 0 -> FreeBlock.prev m' nxt = prv) /\
    (forall y,
       y < prv \/ prv + 16 <= y ->
       nxt = 0 \/ y < nxt + 16 \/ nxt + 24 <= y ->
       m' y = m y).
Proof.
  intros Fp Fn Fs Fps Hp Hpb Hb Hps Hadj Hbs Hsum Hnx.
  assert (Rn : 0 <= nxt < 2 ^ 64) by (rewrite <- Fn; apply load_u64_range).
  unfold Free_coalesce_backward. rewrite Fp, Fps, Fs.
  unfold int_to_size_t, nullptr.
  rewrite (wrap64_small ps), (wrap64_small (prv + ps)) by lia.
  destruct (Z.eqb_spec prv 0) as [|_]; [lia|].
  destruct (Z.eqb_spec (prv + ps) b) as [_|]; [|lia].
  cbn [negb andb].
  set (m1 := FreeBlock.set_size m prv (ps + bs)).
  assert (B1 : forall y, y < prv \/ prv + 4 <= y -> m1 y = m y)
    by (intros y Hy; apply set_size_bytes; exact Hy).
  assert (E1 : FreeBlock.prev m1 b = prv)
    by (rewrite <- Fp; apply prev_frame; intros; apply B1; lia).
  assert (E2 : FreeBlock.next m1 b = nxt)
    by (rewrite <- Fn; apply next_frame; intros; apply B1; lia).
  rewrite E1, E2.
  set (m2 := FreeBlock.set_next m1 prv nxt).
  assert (B2 : forall y, y < prv + 8 \/ prv + 16 <= y -> m2 y = m1 y)
    by (intros y Hy; apply set_next_bytes; exact Hy).
  assert (E3 : FreeBlock.next m2 b = nxt)
    by (rewrite <- E2; apply next_frame; intros; apply B2; lia).
  assert (E4 : FreeBlock.prev m2 b = prv)
    by (rewrite <- E1; apply prev_frame; intros; apply B2; lia).
  rewrite E3, E4.
  assert (S2 : FreeBlock.size m2 prv = ps + bs).
  { rewrite (size_frame m1) by (intros; apply B2; lia).
    apply size_set_size. lia. }
  assert (N2 : FreeBlock.next m2 prv = nxt) by (apply next_set_next; exact Rn).
  assert (P2 : FreeBlock.prev m2 prv = FreeBlock.prev m prv).
  { rewrite (prev_frame m1) by (intros; apply B2; lia).
    apply prev_frame. intros. apply B1. lia. }
  destruct (Z.eqb_spec nxt 0) as [Hn0|Hn0]; cbn [negb].
  - assert (E5 : FreeBlock.prev m2 b = prv) by exact E4.
    rewrite E5. exists m2. split; [reflexivity|].
    split; [exact S2|]. split; [exact N2|]. split; [exact P2|].
    split; [contradiction|].
    intros y Hy _. rewrite B2, B1 by lia. reflexivity.
  - destruct Hnx as [|Hnx]; [contradiction|].
    set (m3 := FreeBlock.set_prev m2 nxt prv).
    assert (B3 : forall y, y < nxt + 16 \/ nxt + 24 <= y -> m3 y = m2 y)
      by (intros y Hy; apply set_prev_bytes; exact Hy).
    assert (E5 : FreeBlock.prev m3 b = prv)
      by (rewrite <- E4; apply prev_frame; intros; apply B3; lia).
    rewrite E5. exists m3. split; [reflexivity|].
    split; [rewrite <- S2; apply size_frame; intros; apply B3; lia|].
    split; [rewrite <- N2; apply next_frame; intros; apply B3; lia|].
    split; [rewrite <- P2; apply prev_frame; intros; apply B3; lia|].
    split; [intros _; apply prev_set_prev; lia|].
    intros y Hy Hy'. rewrite B3, B2, B1 by lia. reflexivity.
Qed.

Lemma Free_coalesce_forward_none m nb :
  FreeBlock.next m nb = nullptr \/
  wrap64 (nb + int_to_size_t (FreeBlock.size m nb)) <> FreeBlock.next m nb ->
  Free_coalesce_forward m nb = m.
Proof.
  intros H. unfold Free_coalesce_forward.
  destruct H as [->|H].
  - rewrite Z.eqb_refl. reflexivity.
  - destruct (Z.eqb_spec (wrap64 (nb + int_to_size_t (FreeBlock.size m nb)))
                (FreeBlock.next m nb)); [contradiction|].
    rewrite andb_false_r. reflexivity.
Qed.

Lemma Free_coalesce_forward_merge m nb S nxt ns nn L :
  FreeBlock.next m nb = nxt -> FreeBlock.size m nb = S ->
  FreeBlock.prev m nb = L ->
  FreeBlock.size m nxt = ns -> FreeBlock.next m nxt = nn ->
  0 <= nb -> nb + 24 <= nxt -> nb + S = nxt -> 0 <= ns ->
  S + ns < 2 ^ 31 ->
  L = 0 \/ L + 24 <= nb ->
  let m' := Free_coalesce_forward m nb in
  FreeBlock.size m' nb = S + ns /\
  FreeBlock.next m' nb = nn /\
  FreeBlock.prev m' nb = L /\
  (L <> 0 -> FreeBlock.next m' L = nb) /\
  (forall y,
     y < nb \/ nb + 16 <= y ->
     L = 0 \/ y < L + 8 \/ L + 16 <= y ->
     m' y = m y).
Proof.
  intros Fn Fs Fp Fns Fnn Hnb Hgap Hadj Hns Hsum HL.
  assert (Rn : 0 <= nxt < 2 ^ 64) by (rewrite <- Fn; apply load_u64_range).
  assert (Rnn : 0 <= nn < 2 ^ 64) by (rewrite <- Fnn; apply load_u64_range).
  unfold Free_coalesce_forward. rewrite Fn, Fs, Fns.
  unfold int_to_size_t, nullptr.
  rewrite (wrap64_small S), (wrap64_small (nb + S)) by lia.
  destruct (Z.eqb_spec nxt 0) as [|_]; [lia|].
  destruct (Z.eqb_spec (nb + S) nxt) as [_|]; [|lia].
  cbn [negb andb].
  set (m1 := FreeBlock.set_size m nb (S + ns)).
  assert (B1 : forall y, y < nb \/ nb + 4 <= y -> m1 y = m y)
    by (intros y Hy; apply set_size_bytes; exact Hy).
  assert (E1 : FreeBlock.next m1 nb = nxt)
    by (rewrite <- Fn; apply next_frame; intros; apply B1; lia).
  rewrite E1.
  assert (E2 : FreeBlock.next m1 nxt = nn)
    by (rewrite <- Fnn; apply next_frame; intros; apply B1; lia).
  rewrite E2.
  set (m2 := FreeBlock.set_next m1 nb nn).
  assert (B2 : forall y, y < nb + 8 \/ nb + 16 <= y -> m2 y = m1 y)
    by (intros y Hy; apply set_next_bytes; exact Hy).
  assert (E3 : FreeBlock.prev m2 nb = L).
  { rewrite <- Fp. rewrite (prev_frame m1) by (intros; apply B2; lia).
    apply prev_frame. intros. apply B1. lia. }
  rewrite E3.
  assert (S2 : FreeBlock.size m2 nb = S + ns).
  { rewrite (size_frame m1) by (intros; apply B2; lia).
    apply size_set_size. lia. }
  assert (N2 : FreeBlock.next m2 nb = nn) by (apply next_set_next; exact Rnn).
  destruct (Z.eqb_spec L 0) as [HL0|HL0]; cbn [negb].
  - split; [exact S2|]. split; [exact N2|]. split; [exact E3|].
    split; [contradiction|].
    intros y Hy _. rewrite B2, B1 by lia. reflexivity.
  - destruct HL as [|HL]; [contradiction|].
    set (m3 := FreeBlock.set_next m2 L nb).
    assert (B3 : forall y, y < L + 8 \/ L + 16 <= y -> m3 y = m2 y)
      by (intros y Hy; apply set_next_bytes; exact Hy).
    split; [rewrite <- S2; apply size_frame; intros; apply B3; lia|].
    split; [rewrite <- N2; apply next_frame; intros; apply B3; lia|].
    split; [rewrite <- E3; apply prev_frame; intros; apply B3; lia|].
    split; [intros _; apply next_set_next; lia|].
    intros y Hy Hy'. rewrite B3, B2, B1 by lia. reflexivity.
Qed.

Lemma Free_relink_fields self m nb L R :
  FreeBlock.next m nb = R -> FreeBlock.prev m nb = L ->
  0 <= nb < 2 ^ 64 ->
  R = 0 \/ nb + 24 <= R -> L = 0 \/ L + 24 <= nb ->
  exists self' m',
    Free_relink self m nb = (self', m') /\
    m_freeBlocks self' = (if L =? 0 then nb else m_freeBlocks self) /\
    base self' = base self /\
    (R <> 0 -> FreeBlock.prev m' R = nb) /\
    (L <> 0 -> FreeBlock.next m' L = nb) /\
    (forall y,
       R = 0 \/ y < R + 16 \/ R + 24 <= y ->
       L = 0 \/ y < L + 8 \/ L + 16 <= y ->
       m' y = m y).
Proof.
  intros Fn Fp Hnb HR HL.
  unfold Free_relink. rewrite Fn. unfold nullptr.
  destruct (Z.eqb_spec R 0) as [HR0|HR0]; cbn [negb].
  - rewrite Fp.
    destruct (Z.eqb_spec L 0) as [HL0|HL0]; cbn [negb].
    + eexists _, _. split; [reflexivity|]. cbn [with_freeBlocks m_freeBlocks base].
      repeat apply conj; try reflexivity; try contradiction.
    + destruct HL as [|HL]; [contradiction|].
      eexists _, _. split; [reflexivity|].
      repeat apply conj; try reflexivity; try contradiction.
      * intros _. apply next_set_next. exact Hnb.
      * intros y _ Hy. apply set_next_bytes. lia.
  - destruct HR as [|HR]; [contradiction|].
    set (m1 := FreeBlock.set_prev m R nb).
    assert (B1 : forall y, y < R + 16 \/ R + 24 <= y -> m1 y = m y)
      by (intros y Hy; apply set_prev_bytes; exact Hy).
    assert (E1 : FreeBlock.prev m1 nb = L)
      by (rewrite <- Fp; apply prev_frame; intros; apply B1; lia).
    rewrite E1.
    assert (P1 : FreeBlock.prev m1 R = nb) by (apply prev_set_prev; exact Hnb).
    destruct (Z.eqb_spec L 0) as [HL0|HL0]; cbn [negb].
    + eexists _, _. split; [reflexivity|]. cbn [with_freeBlocks m_freeBlocks base].
      repeat apply conj; try reflexivity; try contradiction.
      * intros _. exact P1.
      * intros y Hy _. apply B1. lia.
    + destruct HL as [|HL]; [contradiction|].
      eexists _, _. split; [reflexivity|].
      repeat apply conj; try reflexivity; try contradiction.
      * intros _. rewrite <- P1. apply prev_frame. intros.
        apply set_next_bytes. lia.
      * intros _. apply next_set_next. exact Hnb.
      * intros y Hy Hy'. rewrite set_next_bytes by lia. apply B1. lia.
Qed.

Lemma Free_unfold fuel self m ptr :
  Free fuel self m ptr =
  if ptr =? nullptr then Some (assertion_failure, self, m) else
  let header := ptr_sub ptr sizeof_AllocationHeader in
  let blockStart := wrap64 (ptr - AllocationHeader.adjustment m header) in
  let blockSize := int_to_size_t (AllocationHeader.size m header) in
  match Free_scan fuel m blockStart nullptr (m_freeBlocks self) with
  | None => None
  | Some (prevFreeBlock, freeBlock) =>
    let '(self1, m1, _) :=
      Free_link self m blockStart blockSize prevFreeBlock freeBlock in
    Some (Returned tt,
          with_counters self1
            (wrap64 (m_usedBytes (base self1) - blockSize))
            (wrap64 (m_numAllocations (base self1) - 1)),
          ZeroedAddresses m1
            (wrap64 (blockStart + AllocationHeader.adjustment m1 header))
            (wrap64 (blockStart + blockSize)))
  end.
Proof.
  unfold Free, Free_link. destruct (ptr =? nullptr); [reflexivity|].
  cbv zeta.
  destruct (Free_scan _ _ _ _ _) as [[prevFreeBlock freeBlock]|];
    [|reflexivity].
  destruct (Free_coalesce_backward _ _) as [m1 newBlock].
  destruct (Free_relink _ _ _) as [self1 m2]. reflexivity.
Qed.

Section FreeLink.
Variables (self : FreeListAllocator) (m : memory).
Variables (b bs prv ps pp nxt ns nn : Z) (B F : bool).
Hypothesis Hb : 1 <= b.
Hypothesis Hbs : 24 <= bs.
Hypothesis Hbe : b + bs <= 2 ^ 64.
Hypothesis Hprv : 0 <= prv < 2 ^ 64.
Hypothesis Hnxt : 0 <= nxt < 2 ^ 64.
Hypothesis HL :
  prv = 0 \/
  (prv + 24 <= b /\ prv + ps <= b /\ 0 < ps /\
   FreeBlock.size m prv = ps /\ FreeBlock.prev m prv = pp /\
   (pp = 0 \/ 1 <= pp /\ pp + 24 <= prv)).
Hypothesis HR :
  nxt = 0 \/
  (b + bs <= nxt /\ 0 < ns /\
   FreeBlock.size m nxt = ns /\ FreeBlock.next m nxt = nn /\
   (nn = 0 \/ nxt + 24 <= nn /\ nn < 2 ^ 64)).
Hypothesis HB : B = negb (prv =? 0) && (prv + ps =? b).
Hypothesis HF : F = negb (nxt =? 0) && (b + bs =? nxt).
Hypothesis Hsum :
  (if B then ps else 0) + bs + (if F then ns else 0) < 2 ^ 31.

Lemma Free_link_fields :
  let nb := if B then prv else b in
  let L := if B then pp else prv in
  let R := if F then nn else nxt in
  exists self' m',
    Free_link self m b bs prv nxt = (self', m', nb) /\
    FreeBlock.size m' nb
    = (if B then ps else 0) + bs + (if F then ns else 0) /\
    FreeBlock.next m' nb = R /\ FreeBlock.prev m' nb = L /\
    FreeBlock.next m' b = (if B then nxt else R) /\
    (L <> 0 ->
       FreeBlock.size m' L = FreeBlock.size m L /\
       FreeBlock.prev m' L = FreeBlock.prev m L /\
       FreeBlock.next m' L = nb) /\
    (R <> 0 ->
       FreeBlock.size m' R = FreeBlock.size m R /\
       FreeBlock.next m' R = FreeBlock.next m R /\
       FreeBlock.prev m' R = nb) /\
    m_freeBlocks self' = (if L =? 0 then nb else m_freeBlocks self) /\
    base self' = base self /\
    (forall y,
       y < b \/ b + 24 <= y ->
       prv = 0 \/ y < prv \/ prv + 16 <= y ->
       B = false \/ pp = 0 \/ y < pp + 8 \/ pp + 16 <= y ->
       nxt = 0 \/ y < nxt + 16 \/ nxt + 24 <= y ->
       F = false \/ nn = 0 \/ y < nn + 16 \/ nn + 24 <= y ->
       m' y = m y).
Proof.
  intros nb L R. unfold Free_link.
  destruct (Free_insert_fields m b bs prv nxt) as (I1 & I2 & I3 & B1);
    [destruct B, F; lia|exact Hprv|exact Hnxt|].
  set (m1 := Free_insert m b bs prv nxt) in *.
  destruct B.
  - (* the block joins its predecessor *)
    symmetry in HB. apply andb_true_iff in HB. destruct HB as [HB1 HB2].
    apply negb_true_iff, Z.eqb_neq in HB1. apply Z.eqb_eq in HB2.
    destruct HL as [|(L1 & L2 & L3 & L4 & L5 & L6)]; [contradiction|].
    assert (Hpp : 0 <= pp < 2 ^ 64) by (rewrite <- L5; apply load_u64_range).
    destruct (Free_coalesce_backward_merge m1 b bs prv ps nxt)
      as (m2 & Hrun2 & S2 & N2 & P2 & Q2 & B2); try assumption; try lia.
    { rewrite <- L4. apply size_frame. intros. apply B1. lia. }
    { destruct F; lia. }
    rewrite Hrun2.
    assert (P2' : FreeBlock.prev m2 prv = pp).
    { rewrite P2, <- L5. apply prev_frame. intros. apply B1. lia. }
    destruct F.
    + (* and its successor *)
      symmetry in HF. apply andb_true_iff in HF. destruct HF as [HF1 HF2].
      apply negb_true_iff, Z.eqb_neq in HF1. apply Z.eqb_eq in HF2.
      destruct HR as [|(R1 & R2 & R3 & R4 & R5)]; [contradiction|].
      pose proof (Free_coalesce_forward_merge m2 prv (ps + bs) nxt ns nn pp)
        as H3. cbv zeta in H3.
      destruct H3 as (S3 & N3 & P3 & Q3 & B3); try assumption; try lia.
      { rewrite <- R3. rewrite (size_frame m1) by (intros; apply B2; lia).
        apply size_frame. intros. apply B1. lia. }
      { rewrite <- R4. rewrite (next_frame m1) by (intros; apply B2; lia).
        apply next_frame. intros. apply B1. lia. }
      set (m3 := Free_coalesce_forward m2 prv) in *.
      destruct (Free_relink_fields self m3 prv pp nn)
        as (self' & m4 & Hrun4 & Hhead & Hbase & Q4 & Q4' & B4);
        try assumption; try lia.
      rewrite Hrun4. exists self', m4. subst nb L R.
      split; [reflexivity|].
      split; [rewrite <- S3; apply size_frame; intros; apply B4; lia|].
      split; [rewrite <- N3; apply next_frame; intros; apply B4; lia|].
      split; [rewrite <- P3; apply prev_frame; intros; apply B4; lia|].
      split.
      { rewrite <- I2.
        rewrite (next_frame m3) by (intros; apply B4; lia).
        rewrite (next_frame m2) by (intros; apply B3; lia).
        apply next_frame. intros; apply B2; lia. }
      split.
      { intros Hpp0. split; [|split].
        - rewrite (size_frame m3) by (intros; apply B4; lia).
          rewrite (size_frame m2) by (intros; apply B3; lia).
          rewrite (size_frame m1) by (intros; apply B2; lia).
          apply size_frame. intros; apply B1; lia.
        - rewrite (prev_frame m3) by (intros; apply B4; lia).
          rewrite (prev_frame m2) by (intros; apply B3; lia).
          rewrite (prev_frame m1) by (intros; apply B2; lia).
          apply prev_frame. intros; apply B1; lia.
        - apply Q4'. exact Hpp0. }
      split.
      { intros Hnn0. split; [|split].
        - rewrite (size_frame m3) by (intros; apply B4; lia).
          rewrite (size_frame m2) by (intros; apply B3; lia).
          rewrite (size_frame m1) by (intros; apply B2; lia).
          apply size_frame. intros; apply B1; lia.
        - rewrite (next_frame m3) by (intros; apply B4; lia).
          rewrite (next_frame m2) by (intros; apply B3; lia).
          rewrite (next_frame m1) by (intros; apply B2; lia).
          apply next_frame. intros; apply B1; lia.
        - apply Q4. exact Hnn0. }
      split; [exact Hhead|]. split; [exact Hbase|].
      intros y Y1 Y2 Y3 Y4 Y5.
      rewrite B4, B3, B2, B1 by lia. reflexivity.
    + (* but not its successor *)
      symmetry in HF. apply andb_false_iff in HF.
      rewrite negb_false_iff, Z.eqb_eq, Z.eqb_neq in HF.
      rewrite (Free_coalesce_forward_none m2 prv).
      2:{ rewrite N2, S2. unfold nullptr, int_to_size_t.
          destruct (Z.eq_dec nxt 0) as [|Hn0]; [left; assumption|right].
          rewrite (wrap64_small (ps + bs)) by lia.
          destruct (Z.eq_dec (b + bs) (2 ^ 64)) as [E|E].
          - replace (prv + (ps + bs)) with (2 ^ 64) by lia.
            unfold wrap64. rewrite Z.mod_same by lia. lia.
          - rewrite wrap64_small by lia. lia. }
      destruct (Free_relink_fields self m2 prv pp nxt)
        as (self' & m4 & Hrun4 & Hhead & Hbase & Q4 & Q4' & B4);
        try assumption; try lia.
      rewrite Hrun4. exists self', m4. subst nb L R.
      split; [reflexivity|].
      split; [rewrite Z.add_0_r, <- S2; apply size_frame; intros; apply B4; lia|].
      split; [rewrite <- N2; apply next_frame; intros; apply B4; lia|].
      split; [rewrite <- P2'; apply prev_frame; intros; apply B4; lia|].
      split.
      { rewrite <- I2.
        rewrite (next_frame m2) by (intros; apply B4; lia).
        apply next_frame. intros; apply B2; lia. }
      split.
      { intros Hpp0. split; [|split].
        - rewrite (size_frame m2) by (intros; apply B4; lia).
          rewrite (size_frame m1) by (intros; apply B2; lia).
          apply size_frame. intros; apply B1; lia.
        - rewrite (prev_frame m2) by (intros; apply B4; lia).
          rewrite (prev_frame m1) by (intros; apply B2; lia).
          apply prev_frame. intros; apply B1; lia.
        - apply Q4'. exact Hpp0. }
      split.
      { intros Hn0. destruct HR as [|(R1 & R2 & R3 & R4 & R5)];
          [contradiction|].
        split; [|split].
        - rewrite (size_frame m2) by (intros; apply B4; lia).
          rewrite (size_frame m1) by (intros; apply B2; lia).
          apply size_frame. intros; apply B1; lia.
        - rewrite (next_frame m2) by (intros; apply B4; lia).
          rewrite (next_frame m1) by (intros; apply B2; lia).
          apply next_frame. intros; apply B1; lia.
        - apply Q4. exact Hn0. }
      split; [exact Hhead|]. split; [exact Hbase|].
      intros y Y1 Y2 Y3 Y4 Y5.
      rewrite B4, B2, B1 by lia. reflexivity.
  - (* no predecessor to join *)
    symmetry in HB. apply andb_false_iff in HB.
    rewrite negb_false_iff, Z.eqb_eq, Z.eqb_neq in HB.
    rewrite (Free_coalesce_backward_none m1 b).
    2:{ rewrite I3. unfold nullptr, int_to_size_t.
        destruct (Z.eq_dec prv 0) as [|Hp0]; [left; assumption|right].
        destruct HL as [|(L1 & L2 & L3 & L4 & L5 & L6)]; [contradiction|].
        rewrite (size_frame m) by (intros; apply B1; lia).
        rewrite L4, (wrap64_small ps), wrap64_small by lia. lia. }
    destruct F.
    + symmetry in HF. apply andb_true_iff in HF. destruct HF as [HF1 HF2].
      apply negb_true_iff, Z.eqb_neq in HF1. apply Z.eqb_eq in HF2.
      destruct HR as [|(R1 & R2 & R3 & R4 & R5)]; [contradiction|].
      pose proof (Free_coalesce_forward_merge m1 b bs nxt ns nn prv) as H3.
      cbv zeta in H3.
      destruct H3 as (S3 & N3 & P3 & Q3 & B3); try assumption; try lia.
      { rewrite <- R3. apply size_frame. intros. apply B1. lia. }
      { rewrite <- R4. apply next_frame. intros. apply B1. lia. }
      set (m3 := Free_coalesce_forward m1 b) in *.
      destruct (Free_relink_fields self m3 b prv nn)
        as (self' & m4 & Hrun4 & Hhead & Hbase & Q4 & Q4' & B4);
        try assumption; try lia.
      rewrite Hrun4. exists self', m4. subst nb L R.
      split; [reflexivity|].
      split; [rewrite Z.add_0_l, <- S3; apply size_frame; intros; apply B4; lia|].
      split; [rewrite <- N3; apply next_frame; intros; apply B4; lia|].
      split; [rewrite <- P3; apply prev_frame; intros; apply B4; lia|].
      split; [rewrite <- N3; apply next_frame; intros; apply B4; lia|].
      split.
      { intros Hp0. destruct HL as [|(L1 & L2 & L3 & L4 & L5 & L6)];
          [contradiction|].
        split; [|split].
        - rewrite (size_frame m3) by (intros; apply B4; lia).
          rewrite (size_frame m1) by (intros; apply B3; lia).
          apply size_frame. intros; apply B1; lia.
        - rewrite (prev_frame m3) by (intros; apply B4; lia).
          rewrite (prev_frame m1) by (intros; apply B3; lia).
          apply prev_frame. intros; apply B1; lia.
        - apply Q4'. exact Hp0. }
      split.
      { intros Hnn0. split; [|split].
        - rewrite (size_frame m3) by (intros; apply B4; lia).
          rewrite (size_frame m1) by (intros; apply B3; lia).
          apply size_frame. intros; apply B1; lia.
        - rewrite (next_frame m3) by (intros; apply B4; lia).
          rewrite (next_frame m1) by (intros; apply B3; lia).
          apply next_frame. intros; apply B1; lia.
        - apply Q4. exact Hnn0. }
      split; [exact Hhead|]. split; [exact Hbase|].
      intros y Y1 Y2 Y3 Y4 Y5.
      rewrite B4, B3, B1 by lia. reflexivity.
    + symmetry in HF. apply andb_false_iff in HF.
      rewrite negb_false_iff, Z.eqb_eq, Z.eqb_neq in HF.
      rewrite (Free_coalesce_forward_none m1 b).
      2:{ rewrite I2, I1. unfold nullptr, int_to_size_t.
          destruct (Z.eq_dec nxt 0) as [|Hn0]; [left; assumption|right].
          rewrite (wrap64_small bs) by lia.
          destruct (Z.eq_dec (b + bs) (2 ^ 64)) as [E|E].
          - rewrite E. unfold wrap64. rewrite Z.mod_same by lia. lia.
          - rewrite wrap64_small by lia. lia. }
      destruct (Free_relink_fields self m1 b prv nxt)
        as (self' & m4 & Hrun4 & Hhead & Hbase & Q4 & Q4' & B4);
        try assumption; try lia.
      rewrite Hrun4. exists self', m4. subst nb L R.
      split; [reflexivity|].
      split; [rewrite Z.add_0_l, Z.add_0_r, <- I1; apply size_frame; intros;
              apply B4; lia|].
      split; [rewrite <- I2; apply next_frame; intros; apply B4; lia|].
      split; [rewrite <- I3; apply prev_frame; intros; apply B4; lia|].
      split; [rewrite <- I2; apply next_frame; intros; apply B4; lia|].
      split.
      { intros Hp0. destruct HL as [|(L1 & L2 & L3 & L4 & L5 & L6)];
          [contradiction|].
        split; [|split].
        - rewrite (size_frame m1) by (intros; apply B4; lia).
          apply size_frame. intros; apply B1; lia.
        - rewrite (prev_frame m1) by (intros; apply B4; lia).
          apply prev_frame. intros; apply B1; lia.
        - apply Q4'. exact Hp0. }
      split.
      { intros Hn0. destruct HR as [|(R1 & R2 & R3 & R4 & R5)];
          [contradiction|].
        split; [|split].
        - rewrite (size_frame m1) by (intros; apply B4; lia).
          apply size_frame. intros; apply B1; lia.
        - rewrite (next_frame m1) by (intros; apply B4; lia).
          apply next_frame. intros; apply B1; lia.
        - apply Q4. exact Hn0. }
      split; [exact Hhead|]. split; [exact Hbase|].
      intros y Y1 Y2 Y3 Y4 Y5.
      rewrite B4, B1 by lia. reflexivity.
Qed.

End FreeLink.

(** ** Lists around the block being freed *)

Lemma last_addr_snoc : forall l prv x sx,
  last_addr (l ++ [(x, sx)]) prv = x.
Proof.
  induction l as [|[y sy] l IH]; intros prv x sx; cbn [app last_addr].
  - reflexivity.
  - apply IH.
Qed.

Lemma snoc_cases (l : list (Z * Z)) :
  l = [] \/ exists l' x sx, l = l' ++ [(x, sx)].
Proof.
  destruct l as [|a l]; [left; reflexivity|right].
  destruct (exists_last (l := a :: l)) as (l' & [x sx] & E); [discriminate|].
  exists l', x, sx. exact E.
Qed.

Lemma ascending_before_last : forall l lo prv x sx,
  ascending lo l -> In (x, sx) l ->
  x = last_addr l prv \/
  x + sx + sizeof_AllocationHeader <= last_addr l prv.
Proof.
  induction l as [|[y sy] l IH]; intros lo prv x sx Hasc Hin; [destruct Hin|].
  cbn [ascending last_addr] in *. destruct Hasc as (A1 & A2 & A3 & A4).
  destruct Hin as [E|Hin].
  - injection E as -> ->.
    destruct l as [|c l]; [left; reflexivity|right].
    apply ascending_last_addr; [exact A4|discriminate].
  - apply (IH _ y x sx A4 Hin).
Qed.

Lemma ascending_join : forall la lo nb S lb,
  ascending lo la ->
  (forall x sx, In (x, sx) la -> x + sx + sizeof_AllocationHeader <= nb) ->
  lo <= nb -> sizeof_AllocationHeader < S < 2 ^ 31 -> nb + S <= 2 ^ 64 ->
  ascending (nb + S + sizeof_AllocationHeader) lb ->
  ascending lo (la ++ (nb, S) :: lb).
Proof.
  induction la as [|[y sy] la IH]; intros lo nb S lb Ha Hla Hlo HS Hend Hb;
    cbn [app ascending] in *.
  - repeat apply conj; assumption || lia.
  - destruct Ha as (A1 & A2 & A3 & A4).
    split; [exact A1|]. split; [exact A2|]. split; [exact A3|].
    apply IH; try assumption.
    + intros x sx Hx. apply (Hla x sx). right. exact Hx.
    + apply (Hla y sy). left. reflexivity.
Qed.

Lemma release_skip b bs l : forall l1,
  (forall x sx, In (x, sx) l1 -> x < b /\ x + sx <> b) ->
  release b bs (l1 ++ l) = l1 ++ release b bs l.
Proof.
  induction l1 as [|[x sx] l1 IH]; intros H; cbn [app release].
  - reflexivity.
  - destruct (H x sx (or_introl eq_refl)) as [H1 H2].
    destruct (Z.ltb_spec b x); [lia|].
    destruct (Z.eqb_spec (x + sx) b); [contradiction|].
    rewrite IH; [reflexivity|].
    intros y sy Hy. apply (H y sy). right. exact Hy.
Qed.

Lemma release_above b bs l :
  0 < bs -> (forall x sx, In (x, sx) l -> b + bs <= x) ->
  release b bs l = absorb b bs l.
Proof.
  intros Hbs H. destruct l as [|[x sx] l]; [reflexivity|].
  cbn [release]. pose proof (H x sx (or_introl eq_refl)).
  destruct (Z.ltb_spec b x); [reflexivity|lia].
Qed.

Lemma linked_assemble m m' head head' la nb S lb X Y :
  lseg m nullptr head la X -> ascending 1 la ->
  lseg m Y (head_addr lb nullptr) lb nullptr ->
  nb <> nullptr ->
  FreeBlock.size m' nb = S ->
  FreeBlock.next m' nb = head_addr lb nullptr ->
  FreeBlock.prev m' nb = last_addr la nullptr ->
  (last_addr la nullptr <> 0 ->
     FreeBlock.size m' (last_addr la nullptr)
     = FreeBlock.size m (last_addr la nullptr) /\
     FreeBlock.prev m' (last_addr la nullptr)
     = FreeBlock.prev m (last_addr la nullptr) /\
     FreeBlock.next m' (last_addr la nullptr) = nb) ->
  (head_addr lb nullptr <> 0 ->
     FreeBlock.size m' (head_addr lb nullptr)
     = FreeBlock.size m (head_addr lb nullptr) /\
     FreeBlock.next m' (head_addr lb nullptr)
     = FreeBlock.next m (head_addr lb nullptr) /\
     FreeBlock.prev m' (head_addr lb nullptr) = nb) ->
  head' = (if last_addr la nullptr =? 0 then nb else head) ->
  (forall x sx, In (x, sx) la -> x <> last_addr la nullptr ->
     untouched m m' x) ->
  (forall x sx, In (x, sx) (tl lb) -> untouched m m' x) ->
  linked m' head' (la ++ (nb, S) :: lb).
Proof.
  intros Hla Hasc Hlb Hnb Fs Fn Fp HL HR Hhead Hfa Hfb.
  unfold linked. apply lseg_app. cbn [head_addr]. split.
  - destruct la as [|a la].
    + cbn [last_addr lseg] in *. unfold nullptr in Hhead.
      rewrite Z.eqb_refl in Hhead. exact Hhead.
    + assert (Hlast : 1 <= last_addr (a :: la) nullptr)
        by (apply ascending_last_addr; [exact Hasc|discriminate]).
      destruct (Z.eqb_spec (last_addr (a :: la) nullptr) 0) as [E|E]; [lia|].
      destruct (HL E) as (L1 & L2 & L3). subst head'.
      apply (lseg_set_last m m' nb (a :: la) nullptr head X 1); try assumption.
      discriminate.
  - cbn [lseg]. split; [reflexivity|]. split; [exact Hnb|].
    split; [exact Fs|]. split; [exact Fp|]. rewrite Fn.
    destruct lb as [|[y sy] lb].
    + cbn [head_addr lseg]. reflexivity.
    + cbn [head_addr] in *.
      assert (Hy : y <> 0) by (cbn [lseg] in Hlb; unfold nullptr in Hlb; tauto).
      destruct (HR Hy) as (R1 & R2 & R3).
      apply (lseg_set_first m m' nb ((y, sy) :: lb) Y y nullptr);
        try assumption. discriminate.
Qed.

Section FreeList.
Variables (self : FreeListAllocator) (m : memory).
Variables (l1 l2 : list (Z * Z)) (b bs : Z).
Hypothesis Hl : linked m (m_freeBlocks self) (l1 ++ l2).
Hypothesis Hasc : ascending 1 (l1 ++ l2).
Hypothesis Hb : 1 <= b.
Hypothesis Hbs : 24 <= bs.
Hypothesis Hbe : b + bs <= 2 ^ 64.
Hypothesis Hbelow : forall x sx, In (x, sx) l1 ->
  x + 24 <= b /\ (x + sx = b \/ x + sx + 16 <= b).
Hypothesis Habove : forall x sx, In (x, sx) l2 ->
  b + bs = x \/ b + bs + 16 <= x.

Lemma Free_left_side :
  exists prv ps pp la,
    prv = last_addr l1 nullptr /\ 0 <= prv < 2 ^ 64 /\ 0 <= ps /\
    (prv = 0 \/
     (prv + 24 <= b /\ prv + ps <= b /\ 0 < ps /\
      FreeBlock.size m prv = ps /\ FreeBlock.prev m prv = pp /\
      (pp = 0 \/ 1 <= pp /\ pp + 24 <= prv))) /\
    let B := negb (prv =? 0) && (prv + ps =? b) in
    let nb := if B then prv else b in
    release b bs (l1 ++ l2)
    = la ++ absorb nb ((if B then ps else 0) + bs) l2 /\
    last_addr la nullptr = (if B then pp else prv) /\
    (exists X, lseg m nullptr (m_freeBlocks self) la X) /\
    ascending 1 la /\ 1 <= nb /\ (nb = b \/ nb + 24 <= b) /\
    nb + ((if B then ps else 0) + bs) = b + bs /\
    (forall x sx, In (x, sx) la ->
       x + sx + sizeof_AllocationHeader <= nb) /\
    (prv = 0 \/ exists s0, In (prv, s0) l1) /\
    (B = true -> pp = 0 \/ exists s0, In (pp, s0) l1).
Proof.
  assert (Habove' : forall x sx, In (x, sx) l2 -> b + bs <= x)
    by (intros x sx Hx; destruct (Habove x sx Hx); lia).
  destruct (snoc_cases l1) as [E|(l1' & p & ps & E)].
  - exists 0, 0, 0, []. subst l1. cbn [last_addr app] in *.
    split; [reflexivity|]. split; [lia|]. split; [lia|].
    split; [left; reflexivity|].
    cbn [Z.eqb negb andb Z.add].
    split; [apply release_above; [lia|exact Habove']|].
    split; [reflexivity|]. split; [exists (m_freeBlocks self); reflexivity|].
    split; [exact I|]. split; [exact Hb|]. split; [left; reflexivity|].
    split; [reflexivity|]. split; [intros x sx []|].
    split; [left; reflexivity|discriminate].
  - subst l1. rewrite <- app_assoc in Hl, Hasc. cbn [app] in Hl, Hasc.
    destruct (selected_block_facts m _ l1' p ps l2 Hl Hasc)
      as (Hseg1 & Hseg2 & Hasc2 & Hleft & Hasc1 & Hp & Hps & Hpe & Fs & Fp
          & Fn & HP & HN).
    destruct (Hbelow p ps) as [Hp24 Hpadj];
      [apply in_or_app; right; left; reflexivity|].
    unfold sizeof_AllocationHeader, nullptr in *.
    exists p, ps, (last_addr l1' 0).
    rewrite last_addr_snoc.
    destruct (Z.eqb_spec p 0) as [|_]; [lia|]. cbn [negb andb].
    assert (Hskip : forall x sx, In (x, sx) l1' -> x < b /\ x + sx <> b).
    { intros x sx Hx. destruct (Hleft x sx Hx) as (? & ? & ?). lia. }
    destruct (Z.eqb_spec (p + ps) b) as [Eb|Eb].
    + exists l1'.
      split; [reflexivity|]. split; [lia|]. split; [lia|].
      split.
      { right. repeat apply conj; try assumption; lia. }
      cbv zeta. rewrite <- app_assoc. cbn [app].
      split.
      { rewrite (release_skip b bs _ l1' Hskip). cbn [release].
        destruct (Z.ltb_spec b p); [lia|].
        destruct (Z.eqb_spec (p + ps) b); [reflexivity|contradiction]. }
      split; [reflexivity|]. split; [exists p; exact Hseg1|].
      split; [exact Hasc1|]. split; [lia|]. split; [right; lia|].
      split; [lia|].
      split; [intros x sx Hx; destruct (Hleft x sx Hx) as (? & ? & ?); lia|].
      split.
      { right. exists ps. apply in_or_app. right. left. reflexivity. }
      intros _. destruct l1' as [|c l1'']; [left; reflexivity|right].
      destruct (last_addr_In (c :: l1'') 0 ltac:(discriminate)) as [s0 Hs0].
      exists s0. apply in_or_app. left. exact Hs0.
    + exists (l1' ++ [(p, ps)]).
      split; [reflexivity|]. split; [lia|]. split; [lia|].
      split.
      { right. repeat apply conj; try assumption; lia. }
      cbv zeta. cbn [Z.add].
      assert (Hall : forall x sx, In (x, sx) (l1' ++ [(p, ps)]) ->
                x + sx + 16 <= b).
      { intros x sx Hx. apply in_app_or in Hx. destruct Hx as [Hx|[E|[]]].
        - destruct (Hleft x sx Hx) as (? & ? & ?). lia.
        - injection E as <- <-. lia. }
      split.
      { rewrite release_skip.
        - rewrite (release_above b bs l2); [reflexivity|lia|exact Habove'].
        - intros x sx Hx. pose proof (Hall x sx Hx).
          destruct (Hbelow x sx Hx). lia. }
      split; [apply last_addr_snoc|].
      split.
      { exists (head_addr l2 0).
        assert (Hl' : lseg m 0 (m_freeBlocks self)
                        ((l1' ++ [(p, ps)]) ++ l2) 0)
          by (rewrite <- app_assoc; exact Hl).
        apply lseg_app in Hl'. exact (proj1 Hl'). }
      split.
      { assert (Hasc' : ascending 1 ((l1' ++ [(p, ps)]) ++ l2))
          by (rewrite <- app_assoc; exact Hasc).
        apply ascending_app in Hasc'. exact (proj1 Hasc'). }
      split; [exact Hb|]. split; [left; reflexivity|]. split; [reflexivity|].
      split; [exact Hall|].
      split; [|discriminate].
      right. exists ps. apply in_or_app. right. left. reflexivity.
Qed.

Lemma Free_right_side :
  exists nxt ns nn lb,
    nxt = head_addr l2 nullptr /\ 0 <= nxt < 2 ^ 64 /\ 0 <= ns /\
    (nxt = 0 \/
     (b + bs <= nxt /\ 0 < ns /\
      FreeBlock.size m nxt = ns /\ FreeBlock.next m nxt = nn /\
      (nn = 0 \/ nxt + 24 <= nn /\ nn < 2 ^ 64))) /\
    let F := negb (nxt =? 0) && (b + bs =? nxt) in
    (forall nb S, nb + S = b + bs ->
       absorb nb S l2 = (nb, S + (if F then ns else 0)) :: lb) /\
    head_addr lb nullptr = (if F then nn else nxt) /\
    (exists Y, lseg m Y (head_addr lb nullptr) lb nullptr) /\
    ascending (b + bs + (if F then ns else 0) + sizeof_AllocationHeader) lb /\
    b + bs + (if F then ns else 0) <= 2 ^ 64 /\
    incl lb l2 /\
    (nxt = 0 \/ exists s0, In (nxt, s0) l2) /\
    (F = true -> nn = 0 \/ exists s0, In (nn, s0) l2).
Proof.
  destruct l2 as [|[n ns] l2'] eqn:E2.
  - exists 0, 0, 0, []. cbn [head_addr]. unfold nullptr.
    split; [reflexivity|]. split; [lia|]. split; [lia|].
    split; [left; reflexivity|].
    cbn [Z.eqb negb andb].
    split; [intros nb S _; cbn [absorb]; rewrite Z.add_0_r; reflexivity|].
    split; [reflexivity|]. split; [exists 0; reflexivity|].
    split; [exact I|]. split; [lia|]. split; [intros x Hx; exact Hx|].
    split; [left; reflexivity|discriminate].
  - destruct (selected_block_facts m _ l1 n ns l2' Hl Hasc)
      as (Hseg1 & Hseg2 & Hasc2 & Hleft & Hasc1 & Hn & Hns & Hne & Fs & Fp
          & Fn & HP & HN).
    pose proof (Habove n ns (or_introl eq_refl)) as Hgap.
    unfold sizeof_AllocationHeader, nullptr in *.
    exists n, ns, (head_addr l2' 0). cbn [head_addr].
    destruct (Z.eqb_spec n 0) as [|_]; [lia|]. cbn [negb andb].
    assert (Rnn : 0 <= head_addr l2' 0 < 2 ^ 64)
      by (rewrite <- Fn; apply load_u64_range).
    destruct (Z.eqb_spec (b + bs) n) as [Eb|Eb].
    + exists l2'.
      split; [reflexivity|]. split; [lia|]. split; [lia|].
      split; [right; repeat apply conj; try assumption; lia|].
      cbv zeta.
      split.
      { intros nb S HS. cbn [absorb].
        destruct (Z.eqb_spec (nb + S) n); [reflexivity|lia]. }
      split; [reflexivity|]. split; [exists n; exact Hseg2|].
      split; [rewrite Eb; exact Hasc2|]. split; [lia|].
      split; [intros x Hx; right; exact Hx|].
      split; [right; exists ns; left; reflexivity|].
      intros _. destruct l2' as [|[c sc] l2'']; [left; reflexivity|right].
      cbn [head_addr]. exists sc. right. left. reflexivity.
    + exists ((n, ns) :: l2').
      split; [reflexivity|]. split; [lia|]. split; [lia|].
      split; [right; repeat apply conj; try assumption; lia|].
      cbv zeta.
      split.
      { intros nb S HS. cbn [absorb].
        destruct (Z.eqb_spec (nb + S) n); [lia|].
        rewrite Z.add_0_r. reflexivity. }
      split; [reflexivity|].
      split.
      { exists (last_addr l1 0). cbn [head_addr].
        apply lseg_app in Hl. exact (proj2 Hl). }
      split.
      { cbn [ascending]. unfold sizeof_AllocationHeader.
        repeat apply conj; try assumption; lia. }
      split; [lia|]. split; [intros x Hx; exact Hx|].
      split; [right; exists ns; left; reflexivity|discriminate].
Qed.

Hypothesis Hsizes : forall x sx,
  In (x, sx) (release b bs (l1 ++ l2)) -> sx < 2 ^ 31.

Lemma Free_link_list :
  exists self' m' nb la S lb,
    Free_link self m b bs (last_addr l1 nullptr) (head_addr l2 nullptr)
    = (self', m', nb) /\
    release b bs (l1 ++ l2) = la ++ (nb, S) :: lb /\
    well_formed self' m' (la ++ (nb, S) :: lb) /\
    base self' = base self /\
    1 <= nb /\ (nb = b \/ nb + 24 <= b) /\ b + bs <= nb + S /\
    (forall x sx, In (x, sx) la -> x + 24 <= nb) /\
    (forall x sx, In (x, sx) lb -> b + bs <= x) /\
    incl lb l2 /\
    FreeBlock.next m' b
    = (if nb =? b then head_addr lb nullptr else head_addr l2 nullptr) /\
    (forall y, b + 24 <= y < b + bs -> m' y = m y) /\
    (forall y, y < b \/ b + bs <= y ->
       (forall x sx, In (x, sx) (l1 ++ l2) -> y < x \/ x + 24 <= y) ->
       m' y = m y).
Proof.
  destruct Free_left_side
    as (prv & ps & pp & la & Eprv & Rprv & Hps0 & HL & HLL).
  destruct Free_right_side
    as (nxt & ns & nn & lb & Enxt & Rnxt & Hns0 & HR & HRR).
  cbv zeta in HLL, HRR.
  set (B := negb (prv =? 0) && (prv + ps =? b)) in *.
  set (F := negb (nxt =? 0) && (b + bs =? nxt)) in *.
  set (nb := if B then prv else b) in *.
  assert (EB : B = negb (prv =? 0) && (prv + ps =? b)) by reflexivity.
  assert (EF : F = negb (nxt =? 0) && (b + bs =? nxt)) by reflexivity.
  assert (HBt : B = true -> prv <> 0).
  { rewrite EB. destruct (Z.eqb_spec prv 0); [discriminate|auto]. }
  assert (HFt : F = true -> nxt <> 0).
  { rewrite EF. destruct (Z.eqb_spec nxt 0); [discriminate|auto]. }
  clearbody B F.
  destruct HLL as (Hrel & Hlast & (X & HsegL) & HascL & Hnb1 & Hnbb & HnbS
                   & Hla & Hprvin & Hppin).
  destruct HRR as (Habs & Hhead & (Y & HsegR) & HascR & Hend & Hincl
                   & Hnxtin & Hnnin).
  rewrite (Habs nb _ HnbS) in Hrel.
  set (S := (if B then ps else 0) + bs + (if F then ns else 0)) in *.
  assert (HS : S < 2 ^ 31).
  { apply (Hsizes nb). rewrite Hrel. apply in_or_app. right. left.
    reflexivity. }
  assert (HS' : bs <= S) by (subst S; destruct B, F; lia).
  destruct (Free_link_fields self m b bs prv ps pp nxt ns nn B F)
    as (self' & m' & Hrun & Fs & Fn & Fp & Fnb & HLrec & HRrec & Hhd & Hbase
        & Hframe); try assumption.
  fold nb in Hrun, Fs, Fn, Fp, HLrec, HRrec, Hhd. fold S in Fs.
  rewrite <- Hlast in Fp, HLrec, Hhd. rewrite <- Hhead in Fn, HRrec.
  rewrite <- Eprv, <- Enxt.
  exists self', m', nb, la, S, lb.
  split; [exact Hrun|]. split; [exact Hrel|].
  assert (HlaIn : forall x sx, In (x, sx) la ->
            sizeof_AllocationHeader < sx /\ 1 <= x).
  { intros x sx Hx. pose proof (ascending_In _ _ _ _ HascL Hx). lia. }
  assert (HlbIn : forall x sx, In (x, sx) lb ->
            b + bs + (if F then ns else 0) + 16 <= x).
  { intros x sx Hx. pose proof (ascending_In _ _ _ _ HascR Hx).
    unfold sizeof_AllocationHeader in *. lia. }
  unfold sizeof_AllocationHeader, nullptr in *.
  assert (HifF : 0 <= (if F then ns else 0)) by (destruct F; lia).
  assert (HifB : 0 <= (if B then ps else 0)) by (destruct B; lia).
  split; [split|].
  - rewrite Hhd.
    apply (linked_assemble m m' (m_freeBlocks self) _ la nb S lb X Y);
      try assumption; try reflexivity.
    + unfold nullptr. lia.
    + intros x sx Hx Hne.
      destruct (ascending_before_last la 1 0 x sx HascL Hx) as [|Hfar];
        [contradiction|].
      destruct (HlaIn x sx Hx) as [Hsx Hx1].
      pose proof (Hla x sx Hx) as Hxnb.
      unfold sizeof_AllocationHeader, nullptr in *.
      apply untouched_frame. intros y Hy. apply Hframe.
      * lia.
      * subst nb. destruct B; lia.
      * rewrite Hlast in Hfar. destruct B; [right; right; lia|left; reflexivity].
      * destruct HR as [|HR]; lia.
      * destruct F; [specialize (HFt eq_refl)|left; reflexivity].
        destruct HR as [HR|HR]; [contradiction|lia].
    + intros x sx Hx.
      destruct lb as [|[r sr] lb']; [destruct Hx|]. cbn [tl] in Hx.
      cbn [ascending head_addr] in HascR, Hhead.
      destruct HascR as (A1 & A2 & A3 & A4).
      pose proof (ascending_In _ _ _ _ A4 Hx) as Hxr.
      unfold sizeof_AllocationHeader, nullptr in *.
      apply untouched_frame. intros y Hy. apply Hframe.
      * lia.
      * destruct HL as [|HL]; lia.
      * destruct B; [specialize (HBt eq_refl)|left; reflexivity].
        destruct HL as [HL|HL]; [contradiction|lia].
      * destruct F; lia.
      * destruct F; [|left; reflexivity]. lia.
  - apply ascending_join; try assumption;
      unfold sizeof_AllocationHeader; try lia.
    + subst S. rewrite <- HnbS in HascR.
      replace (nb + ((if B then ps else 0) + bs + (if F then ns else 0)) + 16)
        with (nb + ((if B then ps else 0) + bs) + (if F then ns else 0) + 16)
        by lia.
      exact HascR.
  - split; [exact Hbase|]. split; [exact Hnb1|]. split; [exact Hnbb|].
    split; [subst S; destruct F; lia|].
    split.
    { intros x sx Hx. pose proof (Hla x sx Hx).
      destruct (HlaIn x sx Hx). lia. }
    split.
    { intros x sx Hx. pose proof (HlbIn x sx Hx). destruct F; lia. }
    split; [exact Hincl|].
    split.
    { rewrite Fnb. subst nb.
      destruct B eqn:EB'.
      - destruct (Z.eqb_spec prv b); [lia|reflexivity].
      - rewrite Z.eqb_refl. symmetry. exact Hhead. }
    split.
    { intros y Hy. apply Hframe.
      + lia.
      + destruct HL as [|HL]; lia.
      + destruct B; [specialize (HBt eq_refl)|left; reflexivity].
        destruct HL as [HL|HL]; [contradiction|lia].
      + destruct HR as [|HR]; lia.
      + destruct F; [specialize (HFt eq_refl)|left; reflexivity].
        destruct HR as [HR|HR]; [contradiction|lia]. }
    intros y Hy Hrec.
    assert (Hin1 : forall x sx, In (x, sx) l1 -> y < x \/ x + 24 <= y)
      by (intros x sx Hx; apply (Hrec x sx); apply in_or_app; left; exact Hx).
    assert (Hin2 : forall x sx, In (x, sx) l2 -> y < x \/ x + 24 <= y)
      by (intros x sx Hx; apply (Hrec x sx); apply in_or_app; right; exact Hx).
    apply Hframe.
    + lia.
    + destruct Hprvin as [|[s0 Hs0]]; [left; assumption|].
      pose proof (Hin1 _ _ Hs0). lia.
    + destruct B; [|left; reflexivity].
      destruct (Hppin eq_refl) as [|[s0 Hs0]]; [lia|].
      pose proof (Hin1 _ _ Hs0). lia.
    + destruct Hnxtin as [|[s0 Hs0]]; [left; assumption|].
      pose proof (Hin2 _ _ Hs0). lia.
    + destruct F; [|left; reflexivity].
      destruct (Hnnin eq_refl) as [|[s0 Hs0]]; [lia|].
      pose proof (Hin2 _ _ Hs0). lia.
Qed.

End FreeList.

(** ** [Free] on a live allocation *)


Lemma untouched_ZeroedAddresses m p z x :
  x + 24 <= p \/ z <= x -> untouched m (ZeroedAddresses m p z) x.
Proof.
  intros H. apply untouched_frame. intros y Hy.
  rewrite ZeroedAddresses_value.
  destruct (Z.leb_spec p y); destruct (Z.ltb_spec y z); cbn [andb];
    try reflexivity. lia.
Qed.

Lemma separated_split b bs : forall l lo,
  ascending lo l -> 0 < bs ->
  (forall x sx, In (x, sx) l ->
     (x + sizeof_FreeBlock <= b /\
      (x + sx = b \/ x + sx + sizeof_AllocationHeader <= b)) \/
     (b + bs = x \/ b + bs + sizeof_AllocationHeader <= x)) ->
  exists l1 l2,
    l = l1 ++ l2 /\
    (forall x sx, In (x, sx) l1 ->
       x + 24 <= b /\ (x + sx = b \/ x + sx + 16 <= b)) /\
    (forall x sx, In (x, sx) l2 -> b + bs = x \/ b + bs + 16 <= x).
Proof.
  unfold sizeof_FreeBlock, sizeof_AllocationHeader.
  induction l as [|[x sx] l IH]; intros lo Hasc Hbs Hsep.
  - exists [], []. split; [reflexivity|]. split; intros ? ? [].
  - cbn [ascending] in Hasc. destruct Hasc as (A1 & A2 & A3 & A4).
    destruct (Hsep x sx (or_introl eq_refl)) as [Hlow|Hhigh].
    + destruct (IH _ A4 Hbs) as (l1 & l2 & -> & H1 & H2).
      { intros y sy Hy. apply (Hsep y sy). right. exact Hy. }
      exists ((x, sx) :: l1), l2. split; [reflexivity|]. split; [|exact H2].
      intros y sy [E|Hy]; [injection E as <- <-; exact Hlow|].
      apply (H1 y sy Hy).
    + exists [], ((x, sx) :: l). split; [reflexivity|].
      split; [intros ? ? []|].
      intros y sy [E|Hy]; [injection E as <- <-; exact Hhigh|].
      pose proof (ascending_In _ _ _ _ A4 Hy) as Hy'.
      unfold sizeof_AllocationHeader in *.
      destruct (Hsep y sy (or_intror Hy)) as [Hl|Hh]; [lia|exact Hh].
Qed.

(** [Free] on a live allocation, up to the zero-fill. *)
Lemma Free_decomposed fuel self m l b bs adj :
  well_formed self m l ->
  (length l < fuel)%nat ->
  allocated m l b bs adj ->
  (forall x sx, In (x, sx) (release b bs l) -> sx < 2 ^ 31) ->
  exists self1 m1 nb la S lb l2,
    Free fuel self m (b + adj)
    = Some (Returned tt,
            with_counters self1
              (wrap64 (m_usedBytes (base self) - bs))
              (wrap64 (m_numAllocations (base self) - 1)),
            ZeroedAddresses m1
              (wrap64 (b + AllocationHeader.adjustment m1
                             (b + adj - sizeof_AllocationHeader)))
              (wrap64 (b + bs))) /\
    release b bs l = la ++ (nb, S) :: lb /\
    well_formed self1 m1 (la ++ (nb, S) :: lb) /\
    1 <= nb /\ (nb = b \/ nb + 24 <= b) /\ b + bs <= nb + S /\
    (forall x sx, In (x, sx) la -> x + 24 <= nb) /\
    (forall x sx, In (x, sx) lb -> b + bs <= x) /\
    incl lb l2 /\ incl l2 l /\
    (forall x sx, In (x, sx) l2 -> b + bs <= x) /\
    FreeBlock.next m1 b
    = (if nb =? b then head_addr lb nullptr else head_addr l2 nullptr) /\
    (forall y, b + 24 <= y < b + bs -> m1 y = m y) /\
    (forall y, y < b \/ b + bs <= y ->
       (forall x sx, In (x, sx) l -> y < x \/ x + 24 <= y) ->
       m1 y = m y).
Proof.
  intros [Hl Hasc] Hfuel (Hb & Hbe & Hadj & Hbs & Hhs & Hha & Hsep) Hsizes.
  unfold sizeof_AllocationHeader in *.
  destruct (separated_split b bs l 1 Hasc ltac:(lia) Hsep)
    as (l1 & l2 & -> & Hbelow & Habove).
  assert (Habove' : forall x sx, In (x, sx) l2 -> b + bs <= x)
    by (intros x sx Hx; destruct (Habove x sx Hx); lia).
  destruct (Free_link_list self m l1 l2 b bs Hl Hasc Hb ltac:(lia) Hbe
              Hbelow Habove Hsizes)
    as (self1 & m1 & nb & la & S & lb & Hrun & Hrel & Hwf & Hbase & Hnb1
        & Hnbb & HnbS & Hla & Hlb & Hincl & Hv & Hframe & Hout).
  exists self1, m1, nb, la, S, lb, l2.
  split.
  - rewrite Free_unfold. unfold nullptr.
    destruct (Z.eqb_spec (b + adj) 0) as [|_]; [lia|].
    cbv zeta. unfold ptr_sub, sizeof_AllocationHeader.
    rewrite (wrap64_small (b + adj - 16)) by lia.
    rewrite Hha, Hhs. unfold int_to_size_t.
    replace (b + adj - adj) with b by lia.
    rewrite (wrap64_small b), (wrap64_small bs) by lia.
    rewrite (Free_scan_spec m b l2 l1 0 (m_freeBlocks self) fuel Hl).
    + unfold nullptr in Hrun |- *. rewrite Hrun, Hbase. reflexivity.
    + intros x sx Hx. destruct (Hbelow x sx Hx). lia.
    + intros x sx Hx. pose proof (Habove' x sx Hx). lia.
    + rewrite length_app in Hfuel. lia.
  - assert (Hin2 : incl l2 (l1 ++ l2))
      by (intros x Hx; apply in_or_app; right; exact Hx).
    repeat (split; [assumption|]). exact Hout.
Qed.

Lemma well_formed_ZeroedAddresses self self' m l p z :
  well_formed self m l ->
  m_freeBlocks self' = m_freeBlocks self ->
  (forall x sx, In (x, sx) l -> x + 24 <= p \/ z <= x) ->
  well_formed self' (ZeroedAddresses m p z) l.
Proof.
  intros [Hl Hasc] Hhead Hout. split; [|exact Hasc].
  unfold linked in *. rewrite Hhead.
  apply (lseg_untouched m _ l _ _ _ Hl).
  intros x sx Hx. apply untouched_ZeroedAddresses. apply (Hout x sx Hx).
Qed.

Lemma Free_clear_header fuel self m l b bs adj :
  well_formed self m l ->
  (length l < fuel)%nat ->
  allocated m l b bs adj ->
  2 * sizeof_AllocationHeader <= adj ->
  (forall x sx, In (x, sx) (release b bs l) -> sx < 2 ^ 31) ->
  exists self' m',
    Free fuel self m (b + adj) = Some (Returned tt, self', m') /\
    well_formed self' m' (release b bs l) /\
    GetUsed (base self') = wrap64 (GetUsed (base self) - bs) /\
    GetNumAllocation (base self')
    = wrap64 (GetNumAllocation (base self) - 1) /\
    (b + bs < 2 ^ 64 -> forall y, b + adj <= y < b + bs -> m' y = 0) /\
    (forall y, y < b \/ b + bs <= y ->
       (forall x sx, In (x, sx) l -> y < x \/ x + sizeof_FreeBlock <= y) ->
       m' y = m y).
Proof.
  intros Hwf Hfuel Halloc Hadj32 Hsizes.
  destruct (Free_decomposed fuel self m l b bs adj Hwf Hfuel Halloc Hsizes)
    as (self1 & m1 & nb & la & S & lb & l2 & Hrun & Hrel & Hwf1 & Hnb1 & Hnbb
        & HnbS & Hla & Hlb & Hincl & Hincl2 & Habove & Hv & Hframe & Hout).
  destruct Halloc as (Hb & Hbe & Hadj & Hbs & Hhs & Hha & Hsep).
  unfold sizeof_AllocationHeader in *.
  assert (Hre : AllocationHeader.adjustment m1 (b + adj - 16) = adj).
  { transitivity (AllocationHeader.adjustment m (b + adj - 16));
      [|exact Hha].
    unfold AllocationHeader.adjustment.
    apply load_u64_frame. intros y Hy. apply Hframe. lia. }
  rewrite Hre, (wrap64_small (b + adj)) in Hrun by lia.
  eexists _, _. split; [exact Hrun|].
  rewrite Hrel.
  split.
  { apply (well_formed_ZeroedAddresses self1); [exact Hwf1|reflexivity|].
    intros x sx Hx. apply in_app_or in Hx. destruct Hx as [Hx|[E|Hx]].
    - left. pose proof (Hla x sx Hx). lia.
    - injection E as <- <-. left. lia.
    - right. pose proof (Hlb x sx Hx).
      pose proof (wrap64_range (b + bs)).
      destruct (Z.eq_dec (b + bs) (2 ^ 64)) as [E|E].
      + rewrite E. unfold wrap64. rewrite Z.mod_same by lia.
        pose proof (Hnb1). lia.
      + rewrite wrap64_small by lia. lia. }
  split; [reflexivity|]. split; [reflexivity|].
  split.
  - intros Hlt y Hy. rewrite ZeroedAddresses_value.
    rewrite (wrap64_small (b + bs)) by lia.
    destruct (Z.leb_spec (b + adj) y); [|lia].
    destruct (Z.ltb_spec y (b + bs)); [|lia]. reflexivity.
  - intros y Hy Hrec. rewrite ZeroedAddresses_value, (Hout y Hy Hrec).
    pose proof (wrap64_range (b + bs)).
    destruct (Z.leb_spec (b + adj) y); [|reflexivity].
    destruct (Z.ltb_spec y (wrap64 (b + bs))); [|reflexivity].
    exfalso. destruct (Z.eq_dec (b + bs) (2 ^ 64)) as [E|E].
    + rewrite E in *. unfold wrap64 in *. rewrite Z.mod_same in * by lia. lia.
    + rewrite wrap64_small in * by lia. lia.
Qed.

(** X6.  [Free] on a live allocation whose adjustment is at least twice the
    header size (so that the header does not share bytes with the
    [FreeBlock] record written at the block start): the call returns, the
    free list is well formed again and is the old one with the block
    inserted in address order and joined to the neighbours it touches
    ([release]), the counters go down by one allocation and by the recorded
    size, the bytes from the user pointer to the end of the block are zero,
    and no byte outside the block and outside the records of the free
    blocks has changed. *)
Theorem Free_returns_block fuel self m l b bs adj :
  well_formed self m l ->
  (length l < fuel)%nat ->
  allocated m l b bs adj ->
  2 * sizeof_AllocationHeader <= adj ->
  (forall x sx, In (x, sx) (release b bs l) -> sx < 2 ^ 31) ->
  exists self' m',
    Free fuel self m (b + adj) = Some (Returned tt, self', m') /\
    well_formed self' m' (release b bs l) /\
    GetUsed (base self') = wrap64 (GetUsed (base self) - bs) /\
    GetNumAllocation (base self')
    = wrap64 (GetNumAllocation (base self) - 1) /\
    (b + bs < 2 ^ 64 -> forall y, b + adj <= y < b + bs -> m' y = 0) /\
    (forall y, y < b \/ b + bs <= y ->
       (forall x sx, In (x, sx) l -> y < x \/ x + sizeof_FreeBlock <= y) ->
       m' y = m y).
Proof. exact (Free_clear_header fuel self m l b bs adj). Qed.

Lemma Free_returns_block_witness :
  let r := Allocate 4 example_allocator example_memory 100 32 in
  let self := allocator_after r in
  let m := memory_after r in
  let l := [(4096, 50); (4404, 52); (4608, 100)] in
  well_formed self m l /\
  allocated m l 4256 148 32 /\
  (forall x sx, In (x, sx) (release 4256 148 l) -> sx < 2 ^ 31) /\
  exists self' m',
    Free 4 self m (4256 + 32) = Some (Returned tt, self', m') /\
    well_formed self' m' (release 4256 148 l) /\
    GetUsed (base self') = wrap64 (GetUsed (base self) - 148) /\
    GetNumAllocation (base self')
    = wrap64 (GetNumAllocation (base self) - 1) /\
    (4256 + 148 < 2 ^ 64 ->
     forall y, 4256 + 32 <= y < 4256 + 148 -> m' y = 0) /\
    (forall y, y < 4256 \/ 4256 + 148 <= y ->
       (forall x sx, In (x, sx) l -> y < x \/ x + sizeof_FreeBlock <= y) ->
       m' y = m y).
Proof.
  intros r self m l.
  assert (Hwf : well_formed self m l).
  { split.
    - unfold linked, l. cbn [lseg].
      repeat apply conj; try (vm_compute; reflexivity); discriminate.
    - unfold l. cbn [ascending]. unfold sizeof_AllocationHeader.
      repeat apply conj; try exact I; lia. }
  assert (Halloc : allocated m l 4256 148 32).
  { unfold allocated, sizeof_AllocationHeader, sizeof_FreeBlock.
    repeat apply conj; try lia; try (vm_compute; reflexivity).
    intros x sx Hin. unfold l in Hin. cbn [In] in Hin.
    destruct Hin as [E|[E|[E|[]]]]; injection E as <- <-; lia. }
  assert (Hsizes : forall x sx, In (x, sx) (release 4256 148 l) ->
                     sx < 2 ^ 31).
  { intros x sx Hin. vm_compute in Hin.
    destruct Hin as [E|[E|[E|[]]]]; injection E as <- <-; lia. }
  split; [exact Hwf|]. split; [exact Halloc|]. split; [exact Hsizes|].
  apply (Free_returns_block 4 self m l 4256 148 32 Hwf).
  - unfold l. cbn [length]. lia.
  - exact Halloc.
  - unfold sizeof_AllocationHeader. lia.
  - exact Hsizes.
Defined.

(** ** The header on top of the record *)








(** ** The bytes [Allocate] writes *)

Ltac outside_stores :=
  unfold AllocationHeader.set_size, AllocationHeader.set_adjustment,
    FreeBlock.set_size, FreeBlock.set_next, FreeBlock.set_prev,
    store_int, store_u64;
  repeat (rewrite store_le_outside by (cbn; lia)); reflexivity.

Section CarveFrame.
Variables (self : FreeListAllocator) (m : memory).
Variables (a s total adj prvA nxtA : Z).
Hypothesis Ha : 1 <= a.
Hypothesis Has : a + s <= 2 ^ 64.
Hypothesis Hadj : sizeof_AllocationHeader <= adj.
Hypothesis Htot : adj + sizeof_AllocationHeader <= total.
Hypothesis Hts : total < s.
Hypothesis Hs : s < 2 ^ 31.
Hypothesis Fs : FreeBlock.size m a = s.
Hypothesis Fp : FreeBlock.prev m a = prvA.
Hypothesis Fn : FreeBlock.next m a = nxtA.
Hypothesis HP :
  prvA = nullptr \/ (1 <= prvA /\ prvA + 2 * sizeof_AllocationHeader < a).
Hypothesis HN : nxtA = nullptr \/ a + s + sizeof_AllocationHeader <= nxtA.

Lemma Allocate_carve_frame y :
  y < a \/ a + s <= y ->
  prvA = 0 \/ y < prvA + 8 \/ prvA + 16 <= y ->
  nxtA = 0 \/ y < nxtA + 16 \/ nxtA + 24 <= y ->
  (total + sizeof_AllocationHeader < s ->
   y < a + total \/ a + total + sizeof_FreeBlock <= y) ->
  snd (Allocate_carve self m a total adj) y = m y.
Proof.
  intros Hy HyP HyN HyB.
  unfold sizeof_AllocationHeader, sizeof_FreeBlock, nullptr in *.
  assert (Rp : 0 <= prvA < 2 ^ 64) by (rewrite <- Fp; apply load_u64_range).
  assert (Rn : 0 <= nxtA < 2 ^ 64) by (rewrite <- Fn; apply load_u64_range).
  unfold Allocate_carve. rewrite Fs.
  unfold int_to_size_t, ptr_add, sizeof_AllocationHeader, nullptr.
  rewrite (wrap64_small s), (wrap64_small (total + 16)) by lia.
  rewrite (wrap64_small (a + adj)), (wrap64_small (a + adj - 16)) by lia.
  destruct (Z.leb_spec s (total + 16)) as [Hle|Hgt].
  - rewrite Fp, Fn.
    destruct (Z.eqb_spec prvA 0) as [HP0|HP0]; cbn [negb].
    + rewrite Fn.
      destruct (Z.eqb_spec nxtA 0) as [HN0|HN0]; cbn [negb]; rewrite ?Fp;
        cbv beta iota zeta; cbn [snd]; outside_stores.
    + destruct HP as [|[HP1 HP2]]; [contradiction|].
      assert (E1 : FreeBlock.next (FreeBlock.set_next m prvA nxtA) a = nxtA)
        by (rewrite <- Fn at 2; read_field).
      assert (E2 : FreeBlock.prev (FreeBlock.set_next m prvA nxtA) a = prvA)
        by (rewrite <- Fp at 2; read_field).
      rewrite E1.
      destruct (Z.eqb_spec nxtA 0) as [HN0|HN0]; cbn [negb]; rewrite ?E2;
        cbv beta iota zeta; cbn [snd]; outside_stores.
  - specialize (HyB ltac:(lia)).
    rewrite (wrap64_small (a + total)), (wrap64_small (s - total)) by lia.
    set (m1 := FreeBlock.set_size m (a + total) (s - total)).
    assert (E1 : FreeBlock.next m1 a = nxtA)
      by (rewrite <- Fn; subst m1; read_field).
    rewrite E1.
    set (m2 := FreeBlock.set_next m1 (a + total) nxtA).
    assert (E2 : FreeBlock.prev m2 a = prvA)
      by (rewrite <- Fp; subst m2 m1; read_field).
    rewrite E2.
    set (m3 := FreeBlock.set_prev m2 (a + total) prvA).
    assert (E3 : FreeBlock.next m3 a = nxtA)
      by (rewrite <- Fn; subst m3 m2 m1; read_field).
    rewrite E3.
    destruct (Z.eqb_spec nxtA 0) as [HN0|HN0]; cbn [negb].
    + assert (E4 : FreeBlock.prev m3 a = prvA)
        by (rewrite <- Fp; subst m3 m2 m1; read_field).
      rewrite E4.
      destruct (Z.eqb_spec prvA 0) as [HP0|HP0]; cbn [negb];
        [|destruct HP as [|[HP1 HP2]]; [contradiction|]];
        subst m3 m2 m1; cbv beta iota zeta; cbn [snd]; outside_stores.
    + destruct HN as [|HN1]; [contradiction|].
      assert (E4 : FreeBlock.prev (FreeBlock.set_prev m3 nxtA (a + total)) a
                   = prvA)
        by (rewrite <- Fp; subst m3 m2 m1; read_field).
      rewrite E4.
      destruct (Z.eqb_spec prvA 0) as [HP0|HP0]; cbn [negb];
        [|destruct HP as [|[HP1 HP2]]; [contradiction|]];
        subst m3 m2 m1; cbv beta iota zeta; cbn [snd]; outside_stores.
Qed.

End CarveFrame.

(** ** The state after a successful [Allocate] *)

Lemma Allocate_post self m l size alignment fuel ptr self' m' :
  well_formed self m l ->
  valid_request size alignment ->
  (length l < fuel)%nat ->
  Allocate fuel self m size alignment = Some (Returned ptr, self', m') ->
  exists l1 a s l2,
    l = l1 ++ (a, s) :: l2 /\
    best_fit_at size alignment l (length l1) (a, s) /\
    let adj := adjustment_for alignment a in
    let totalSize := size + adj + sizeof_AllocationHeader in
    let consumed := s - totalSize <=? sizeof_AllocationHeader in
    let footprint := if consumed then s else totalSize in
    ptr = a + adj /\ sizeof_AllocationHeader <= adj /\ totalSize < s /\
    AllocationHeader.size m' (ptr - sizeof_AllocationHeader) = footprint /\
    AllocationHeader.adjustment m' (ptr - sizeof_AllocationHeader) = adj /\
    GetUsed (base self') = wrap64 (GetUsed (base self) + footprint) /\
    GetNumAllocation (base self')
    = wrap64 (GetNumAllocation (base self) + 1) /\
    well_formed self' m'
      (if consumed then l1 ++ l2
       else l1 ++ (a + totalSize, s - totalSize) :: l2) /\
    (forall y,
       y < a \/ a + s <= y ->
       last_addr l1 nullptr = 0 \/ y < last_addr l1 nullptr + 8 \/
       last_addr l1 nullptr + 16 <= y ->
       head_addr l2 nullptr = 0 \/ y < head_addr l2 nullptr + 16 \/
       head_addr l2 nullptr + 24 <= y ->
       (consumed = false ->
        y < a + totalSize \/ a + totalSize + sizeof_FreeBlock <= y) ->
       m' y mod 256 = m y mod 256).
Proof.
  intros [Hl Hasc] Hreq Hfuel Hrun.
  destruct (Allocate_search_lseg size alignment l m nullptr
              (m_freeBlocks self) None fuel Hl)
    as (m1 & Hm1 & Hsearch); [left; reflexivity|assumption|discriminate|].
  pose proof (fold_left_pick_spec size alignment l) as Hspec.
  unfold Allocate in Hrun.
  cbn [bestFit_of bestFitTotalSize_of bestFitAdjustment_of] in Hsearch.
  rewrite Hsearch in Hrun.
  destruct (fold_left (pick size alignment) l None) as [[a s]|];
    cbn [bestFit_of bestFitTotalSize_of bestFitAdjustment_of fst] in Hrun.
  2:{ rewrite Z.eqb_refl in Hrun. discriminate. }
  destruct Hspec as (i & Hbest).
  destruct (nth_error_split l i (proj1 Hbest)) as (l1 & l2 & -> & <-).
  pose proof (lseg_same_bytes _ _ Hm1 _ _ _ _ Hl) as Hl1m.
  fold (linked m1 (m_freeBlocks self) (l1 ++ (a, s) :: l2)) in Hl1m.
  destruct (selected_block_facts m1 _ l1 a s l2 Hl1m Hasc)
    as (Hseg1 & Hseg2 & Hasc2 & Hleft & Hasc1 & Ha & Hs & Has & Fs & Fp & Fn
        & HP & HN).
  destruct (Z.eqb_spec a nullptr) as [Hz|_];
    [unfold nullptr in Hz; lia|].
  assert (Hs' : 16 < s < 2 ^ 31) by exact Hs.
  pose proof (proj1 Hreq) as Hsize.
  destruct (totalSize_for_exact size alignment a Hreq ltac:(lia)) as [Htot Hadj].
  assert (Hadj' : 16 <= adjustment_for alignment a) by exact Hadj.
  assert (Hq : totalSize_for size alignment a < s).
  { destruct Hbest as (_ & Hq & _). unfold qualifies, int_to_size_t in Hq.
    cbn [fst snd] in Hq. rewrite wrap64_small in Hq by lia. exact Hq. }
  set (adj := adjustment_for alignment a) in *.
  set (prvA := last_addr l1 nullptr) in *.
  set (nxtA := head_addr l2 nullptr) in *.
  assert (HP' : prvA = nullptr \/
                1 <= prvA /\ prvA + 2 * sizeof_AllocationHeader < a)
    by (destruct HP as [(_ & ? & _)|(_ & ? & ? & _)]; auto).
  exists l1, a, s, l2. split; [reflexivity|]. split; [exact Hbest|].
  cbv zeta. fold adj. rewrite <- Htot.
  destruct (Z.leb_spec (s - totalSize_for size alignment a)
              sizeof_AllocationHeader) as [Hsmall|Hbig].
  - destruct (Allocate_carve_consume self m1 a s
                (totalSize_for size alignment a) adj prvA nxtA)
      as (self1 & m2 & Hc & Hhead & Hused & Hnum & Hhs & Hha & HnP & HnN
          & Hfr);
      try first [assumption | unfold sizeof_AllocationHeader, nullptr in *; lia].
    pose proof (Allocate_carve_frame self m1 a s
                  (totalSize_for size alignment a) adj prvA nxtA) as Hbytes.
    rewrite Hc in Hbytes. cbn [snd] in Hbytes.
    rewrite Hc in Hrun. injection Hrun as <- <- <-.
    split; [reflexivity|]. split; [exact Hadj|]. split; [exact Hq|].
    split; [exact Hhs|]. split; [exact Hha|]. split; [exact Hused|].
    split; [exact Hnum|].
    split.
    2:{ intros y Y1 Y2 Y3 Y4. rewrite <- (Hm1 y). f_equal.
        apply Hbytes;
          try first [assumption
                    | unfold sizeof_AllocationHeader, sizeof_FreeBlock,
                        nullptr in *; lia]. }
    split; [|eapply ascending_remove; exact Hasc].
    unfold linked. apply lseg_app. rewrite Hhead.
    pose proof (lseg_head _ _ _ _ _ Hseg2) as Hnx.
    fold nxtA. split.
    + apply (relink_left m1 m2 (m_freeBlocks self) a s l1 l2 Hl1m Hasc
               prvA nxtA eq_refl eq_refl Hfr nxtA HnP).
    + apply (relink_right m1 m2 (m_freeBlocks self) a s l1 l2 Hl1m Hasc
               prvA nxtA eq_refl eq_refl Hfr prvA HnN).
  - destruct (Allocate_carve_split self m1 a s
                (totalSize_for size alignment a) adj prvA nxtA)
      as (self1 & m2 & Hc & Hhead & Hused & Hnum & Hhs & Hha & HnB & HnP
          & HnN & Hfr);
      try first [assumption | unfold sizeof_AllocationHeader, nullptr in *; lia].
    pose proof (Allocate_carve_frame self m1 a s
                  (totalSize_for size alignment a) adj prvA nxtA) as Hbytes.
    rewrite Hc in Hbytes. cbn [snd] in Hbytes.
    rewrite Hc in Hrun. injection Hrun as <- <- <-.
    split; [reflexivity|]. split; [exact Hadj|]. split; [exact Hq|].
    split; [exact Hhs|]. split; [exact Hha|]. split; [exact Hused|].
    split; [exact Hnum|].
    destruct HnB as (B1 & B2 & B3).
    split.
    2:{ intros y Y1 Y2 Y3 Y4. rewrite <- (Hm1 y). f_equal.
        apply Hbytes;
          try first [assumption
                    | unfold sizeof_AllocationHeader, sizeof_FreeBlock,
                        nullptr in *; lia];
          try (intros _; apply Y4; reflexivity). }
    split.
    2:{ eapply ascending_replace; [exact Hasc| | |];
          unfold sizeof_AllocationHeader in *; lia. }
    unfold linked. apply lseg_app. cbn [head_addr]. rewrite Hhead. split.
    + apply (relink_left m1 m2 (m_freeBlocks self) a s l1 l2 Hl1m Hasc
               prvA nxtA eq_refl eq_refl Hfr _ HnP).
    + cbn [lseg]. split; [reflexivity|].
      split; [unfold nullptr, sizeof_AllocationHeader in *; lia|].
      split; [exact B1|]. split; [exact B3|].
      rewrite B2.
      apply (relink_right m1 m2 (m_freeBlocks self) a s l1 l2 Hl1m Hasc
               prvA nxtA eq_refl eq_refl Hfr _ HnN).
Qed.

(** ** An allocation given back *)

Lemma release_restores_consumed a s l1 l2 :
  0 < s ->
  (forall x sx, In (x, sx) l1 -> x < a /\ x + sx <> a) ->
  (forall x sx, In (x, sx) l2 -> a + s < x) ->
  release a s (l1 ++ l2) = l1 ++ (a, s) :: l2.
Proof.
  intros Hs H1 H2. rewrite (release_skip a s l2 l1 H1).
  rewrite release_above;
    [|exact Hs|intros x sx Hx; pose proof (H2 x sx Hx); lia].
  destruct l2 as [|[n ns] l2]; [reflexivity|]. cbn [absorb].
  pose proof (H2 n ns (or_introl eq_refl)).
  destruct (Z.eqb_spec (a + s) n); [lia|reflexivity].
Qed.

Lemma release_restores_split a t r l1 l2 :
  0 < t ->
  (forall x sx, In (x, sx) l1 -> x < a /\ x + sx <> a) ->
  release a t (l1 ++ (a + t, r) :: l2) = l1 ++ (a, t + r) :: l2.
Proof.
  intros Ht H1. rewrite (release_skip a t _ l1 H1). cbn [release absorb].
  destruct (Z.ltb_spec a (a + t)); [|lia].
  rewrite Z.eqb_refl. reflexivity.
Qed.

Lemma FreeListAllocator_eta (x y : FreeListAllocator) :
  m_size (base x) = m_size (base y) ->
  m_usedBytes (base x) = m_usedBytes (base y) ->
  m_numAllocations (base x) = m_numAllocations (base y) ->
  m_start (base x) = m_start (base y) ->
  m_freeBlocks x = m_freeBlocks y ->
  x = y.
Proof.
  destruct x as [[x1 x2 x3 x4] x5], y as [[y1 y2 y3 y4] y5].
  cbn [base m_size m_usedBytes m_numAllocations m_start m_freeBlocks].
  intros -> -> -> -> ->. reflexivity.
Qed.

Lemma wrap64_add_sub u f :
  0 <= u < 2 ^ 64 -> wrap64 (wrap64 (u + f) - f) = u.
Proof.
  intros Hu. unfold wrap64. rewrite Zminus_mod_idemp_l.
  replace (u + f - f) with u by lia. apply Z.mod_small. exact Hu.
Qed.

Lemma Allocate_allocated self m l size alignment fuel ptr self1 m1 :
  well_formed self m l ->
  valid_request size alignment ->
  (length l < fuel)%nat ->
  Allocate fuel self m size alignment = Some (Returned ptr, self1, m1) ->
  exists a s f l',
    In (a, s) l /\ ptr = a + adjustment_for alignment a /\
    size + adjustment_for alignment a + sizeof_AllocationHeader <= f <= s /\
    well_formed self1 m1 l' /\ (length l' <= length l)%nat /\
    allocated m1 l' a f (adjustment_for alignment a) /\
    release a f l' = l /\
    (forall x sx, In (x, sx) l' ->
       exists x0 s0, In (x0, s0) l /\ x0 <= x /\ x + sx <= x0 + s0) /\
    GetUsed (base self1) = wrap64 (GetUsed (base self) + f) /\
    GetNumAllocation (base self1)
    = wrap64 (GetNumAllocation (base self) + 1).
Proof.
  intros Hwf Hreq Hfuel Hrun.
  destruct (Allocate_post self m l size alignment fuel ptr self1 m1
              Hwf Hreq Hfuel Hrun)
    as (l1 & a & s & l2 & -> & Hbest & Hpost).
  cbv zeta in Hpost.
  destruct Hpost as (-> & Hadj & Hq & Hhs & Hha & Hu1 & Hn1 & Hwf1 & _).
  destruct Hwf as [Hl Hasc].
  destruct (selected_block_facts m _ l1 a s l2 Hl Hasc)
    as (Hseg1 & Hseg2 & Hasc2 & Hleft & Hasc1 & Ha & Hs & Has & Fs & Fp & Fn
        & HP & HN).
  pose proof (proj1 Hreq) as Hsize.
  set (adj := adjustment_for alignment a) in *.
  set (total := size + adj + sizeof_AllocationHeader) in *.
  set (f := if s - total <=? sizeof_AllocationHeader then s else total) in *.
  set (l' := if s - total <=? sizeof_AllocationHeader
             then l1 ++ l2 else l1 ++ (a + total, s - total) :: l2) in *.
  unfold sizeof_AllocationHeader in *.
  assert (Hskip : forall x sx, In (x, sx) l1 -> x < a /\ x + sx <> a).
  { intros x sx Hx. destruct (Hleft x sx Hx) as (? & ? & ?). lia. }
  assert (Hright : forall x sx, In (x, sx) l2 -> a + s + 16 <= x).
  { intros x sx Hx. pose proof (ascending_In _ _ _ _ Hasc2 Hx). lia. }
  assert (Hf : total <= f <= s) by (subst f; destruct (_ <=? _); lia).
  exists a, s, f, l'.
  split; [apply in_or_app; right; left; reflexivity|].
  split; [reflexivity|]. split; [exact Hf|]. split; [exact Hwf1|].
  split.
  { subst l'. destruct (_ <=? _); rewrite ?length_app; cbn [length]; lia. }
  split.
  { unfold allocated, sizeof_AllocationHeader, sizeof_FreeBlock.
    split; [lia|]. split; [lia|]. split; [lia|]. split; [lia|].
    split; [exact Hhs|]. split; [exact Hha|].
    intros x sx Hx. subst f l'.
    destruct (Z.leb_spec (s - total) 16);
      apply in_app_or in Hx; destruct Hx as [Hx|Hx].
    + left. destruct (Hleft x sx Hx) as (? & ? & ?). lia.
    + right. pose proof (Hright x sx Hx). lia.
    + left. destruct (Hleft x sx Hx) as (? & ? & ?). lia.
    + right. destruct Hx as [E|Hx].
      * injection E as <- <-. left. reflexivity.
      * pose proof (Hright x sx Hx). lia. }
  split.
  { subst f l'. destruct (Z.leb_spec (s - total) 16).
    - apply release_restores_consumed; [lia|exact Hskip|].
      intros x sx Hx. pose proof (Hright x sx Hx). lia.
    - rewrite release_restores_split; [|lia|exact Hskip].
      replace (total + (s - total)) with s by lia. reflexivity. }
  split; [|split; [exact Hu1|exact Hn1]].
  intros x sx Hx. subst l'.
  destruct (Z.leb_spec (s - total) 16);
    apply in_app_or in Hx; destruct Hx as [Hx|Hx].
  - exists x, sx. split; [apply in_or_app; left; exact Hx|lia].
  - exists x, sx. split; [apply in_or_app; right; right; exact Hx|lia].
  - exists x, sx. split; [apply in_or_app; left; exact Hx|lia].
  - destruct Hx as [E|Hx].
    + injection E as <- <-. exists a, s.
      split; [apply in_or_app; right; left; reflexivity|lia].
    + exists x, sx. split; [apply in_or_app; right; right; exact Hx|lia].
Qed.

Lemma Allocate_Free_restores
    self m l size alignment fuel ptr self1 m1 :
  well_formed self m l ->
  valid_request size alignment ->
  (length l < fuel)%nat ->
  (forall x sx, In (x, sx) l ->
     2 * sizeof_AllocationHeader <= adjustment_for alignment x) ->
  0 <= GetUsed (base self) < 2 ^ 64 ->
  0 <= GetNumAllocation (base self) < 2 ^ 64 ->
  Allocate fuel self m size alignment = Some (Returned ptr, self1, m1) ->
  exists m2,
    Free fuel self1 m1 ptr = Some (Returned tt, self, m2) /\
    well_formed self m2 l /\
    ((forall x sx, In (x, sx) l -> x + sx < 2 ^ 64) ->
     forall y, ptr <= y < ptr + size -> m2 y = 0).
Proof.
  intros Hwf Hreq Hfuel Hclear Hused Hnum Hrun.
  destruct (Allocate_allocated self m l size alignment fuel ptr self1 m1
              Hwf Hreq Hfuel Hrun)
    as (a & s & f & l' & Hin & -> & Hf & Hwf1 & Hlen & Halloc & Hrel & _
        & Hu1 & Hn1).
  pose proof (Allocate_arena _ _ _ _ _ _ _ _ Hrun) as [Hsz1 Hst1].
  pose proof (ascending_In _ _ _ _ (proj2 Hwf) Hin) as Hrange.
  destruct (Free_clear_header fuel self1 m1 l' a f
              (adjustment_for alignment a) Hwf1)
    as (self2 & m2 & Hfree & Hwf2 & Hu2 & Hn2 & Hzero).
  { lia. }
  { exact Halloc. }
  { apply (Hclear a s Hin). }
  { rewrite Hrel. intros x sx Hx.
    pose proof (ascending_In _ _ _ _ (proj2 Hwf) Hx). lia. }
  rewrite Hrel in Hwf2.
  pose proof (Free_arena _ _ _ _ _ _ _ Hfree) as [Hsz2 Hst2].
  assert (E : self2 = self).
  { apply FreeListAllocator_eta.
    - congruence.
    - unfold GetUsed in *. rewrite Hu2, Hu1. apply wrap64_add_sub. exact Hused.
    - unfold GetNumAllocation in *. rewrite Hn2, Hn1.
      apply (wrap64_add_sub _ 1). exact Hnum.
    - congruence.
    - destruct Hwf2 as [Hl2 _]. destruct Hwf as [Hl _].
      unfold linked in Hl2, Hl.
      rewrite (lseg_head _ _ _ _ _ Hl2), (lseg_head _ _ _ _ _ Hl).
      reflexivity. }
  subst self2. exists m2. split; [exact Hfree|]. split; [exact Hwf2|].
  intros Htop y Hy. unfold sizeof_AllocationHeader in *.
  pose proof (Htop a s Hin). apply Hzero; lia.
Qed.

(** X8.  [Allocate] followed by [Free] of the returned pointer, for requests
    whose adjustment is at least twice the header size on every block: the
    allocator object is exactly the one before the [Allocate] (free-list
    head, [GetUsed()], [GetNumAllocation()]), the free list is the same list
    of blocks, well formed, and the payload has been zero-filled (provided no
    block ends at the top of the address space). *)
Theorem Allocate_Free_round_trip
    self m l size alignment fuel ptr self1 m1 :
  well_formed self m l ->
  valid_request size alignment ->
  (length l < fuel)%nat ->
  (forall x sx, In (x, sx) l ->
     2 * sizeof_AllocationHeader <= adjustment_for alignment x) ->
  0 <= GetUsed (base self) < 2 ^ 64 ->
  0 <= GetNumAllocation (base self) < 2 ^ 64 ->
  Allocate fuel self m size alignment = Some (Returned ptr, self1, m1) ->
  exists m2,
    Free fuel self1 m1 ptr = Some (Returned tt, self, m2) /\
    well_formed self m2 l /\
    ((forall x sx, In (x, sx) l -> x + sx < 2 ^ 64) ->
     forall y, ptr <= y < ptr + size -> m2 y = 0).
Proof.
  exact (Allocate_Free_restores self m l size alignment fuel ptr self1 m1).
Qed.

Lemma Allocate_Free_round_trip_witness :
  let r := Allocate 4 example_allocator example_memory 100 32 in
  let ptr := returned_pointer r in
  let self1 := allocator_after r in
  let m1 := memory_after r in
  well_formed example_allocator example_memory example_blocks /\
  valid_request 100 32 /\
  (forall x sx, In (x, sx) example_blocks ->
     2 * sizeof_AllocationHeader <= adjustment_for 32 x) /\
  r = Some (Returned ptr, self1, m1) /\
  exists m2,
    Free 4 self1 m1 ptr = Some (Returned tt, example_allocator, m2) /\
    well_formed example_allocator m2 example_blocks /\
    ((forall x sx, In (x, sx) example_blocks -> x + sx < 2 ^ 64) ->
     forall y, ptr <= y < ptr + 100 -> m2 y = 0).
Proof.
  intros r ptr self1 m1.
  pose proof example_well_formed as Hwf.
  assert (Hreq : valid_request 100 32).
  { split; [lia|]. exists 5. split; [lia|reflexivity]. }
  assert (Hclear : forall x sx, In (x, sx) example_blocks ->
            2 * sizeof_AllocationHeader <= adjustment_for 32 x).
  { intros x sx Hin. unfold example_blocks in Hin. cbn [In] in Hin.
    destruct Hin as [E|[E|[E|[]]]]; injection E as <- <-;
      vm_compute; discriminate. }
  assert (Hrun : r = Some (Returned ptr, self1, m1)).
  { apply returned_eta. vm_compute. reflexivity. }
  split; [exact Hwf|]. split; [exact Hreq|]. split; [exact Hclear|].
  split; [exact Hrun|].
  apply (Allocate_Free_round_trip example_allocator example_memory
           example_blocks 100 32 4 ptr self1 m1 Hwf Hreq).
  - cbn [length example_blocks]. lia.
  - exact Hclear.
  - cbn. lia.
  - cbn. lia.
  - exact Hrun.
Defined.



(** ** The search *)

(** X10.  On a well-formed list the search loop of [Allocate] ends within
    [length l + 1] iterations and the pointer stores it performs on the way
    (lines 104-107) write values that are already there: the memory after
    the loop equals the memory before it, byte for byte.  A non-null
    [bestFit] is a qualifying block of the list, and the two other results
    are its footprint and its adjustment. *)
Theorem Allocate_search_stores_nothing self m l size alignment fuel :
  well_formed self m l ->
  (length l < fuel)%nat ->
  exists m' bestFit total adj,
    Allocate_search fuel size alignment m (m_freeBlocks self) nullptr 0 0
    = Some (m', bestFit, total, adj) /\
    same_bytes m m' /\
    (bestFit = nullptr \/
     exists s, In (bestFit, s) l /\ qualifies size alignment (bestFit, s) /\
               total = totalSize_for size alignment bestFit /\
               adj = adjustment_for alignment bestFit).
Proof.
  intros [Hl _] Hfuel.
  destruct (Allocate_search_lseg size alignment l m nullptr
              (m_freeBlocks self) None fuel Hl)
    as (m1 & Hm1 & Hrun); [left; reflexivity|assumption|discriminate|].
  pose proof (fold_left_pick_spec size alignment l) as Hspec.
  cbn [bestFit_of bestFitTotalSize_of bestFitAdjustment_of] in Hrun.
  eexists _, _, _, _. split; [exact Hrun|]. split; [exact Hm1|].
  destruct (fold_left (pick size alignment) l None) as [[a s]|];
    cbn [bestFit_of bestFitTotalSize_of bestFitAdjustment_of fst].
  - right. destruct Hspec as (i & Hn & Hq & _). exists s.
    split; [eapply nth_error_In; exact Hn|]. split; [exact Hq|].
    split; reflexivity.
  - left. reflexivity.
Qed.

Lemma Allocate_search_stores_nothing_witness :
  well_formed example_allocator example_memory example_blocks /\
  exists m' bestFit total adj,
    Allocate_search 4 40 8 example_memory (m_freeBlocks example_allocator)
      nullptr 0 0
    = Some (m', bestFit, total, adj) /\
    same_bytes example_memory m' /\
    (bestFit = nullptr \/
     exists s, In (bestFit, s) example_blocks /\
               qualifies 40 8 (bestFit, s) /\
               total = totalSize_for 40 8 bestFit /\
               adj = adjustment_for 8 bestFit).
Proof.
  split; [exact example_well_formed|].
  apply (Allocate_search_stores_nothing example_allocator example_memory
           example_blocks 40 8 4 example_well_formed).
  cbn [length example_blocks]. lia.
Defined.

(** ** Where the allocation lies *)

Lemma Allocate_selects self m l size alignment fuel :
  well_formed self m l ->
  (length l < fuel)%nat ->
  (exists b, In b l /\ qualifies size alignment b) ->
  exists ptr self' m',
    Allocate fuel self m size alignment = Some (Returned ptr, self', m').
Proof.
  intros [Hl _] Hfuel (b0 & Hb0 & Hq0).
  destruct (Allocate_search_lseg size alignment l m nullptr
              (m_freeBlocks self) None fuel Hl)
    as (m1 & Hm1 & Hrun); [left; reflexivity|assumption|discriminate|].
  pose proof (fold_left_pick_spec size alignment l) as Hspec.
  destruct (fold_left (pick size alignment) l None) as [[a s]|].
  2:{ exfalso. exact (Hspec b0 Hb0 Hq0). }
  destruct Hspec as (i & Hi).
  assert (Ha : a <> nullptr).
  { destruct Hi as (Hn & _).
    apply (lseg_In_nonnull m l _ _ _ (a, s) Hl).
    eapply nth_error_In; eassumption. }
  cbn [bestFit_of bestFitTotalSize_of bestFitAdjustment_of fst] in Hrun.
  unfold Allocate. rewrite Hrun.
  destruct (Z.eqb_spec a nullptr) as [|_]; [contradiction|].
  destruct (Allocate_carve _ _ _ _ _) as [[p self'] m'].
  exists p, self', m'. reflexivity.
Qed.

(** X11.  Where a successful [Allocate] puts the allocation: header and
    payload lie inside the selected block, [sizeof(AllocationHeader)] bytes
    of the footprint after the payload stay unused (the header size is
    counted in the adjustment and once more in the footprint), the header
    records the distance to the block start, and no block of the new free
    list overlaps the range from the block start to the end of that
    slack. *)
Theorem Allocate_payload_placement
    self m l size alignment fuel ptr self' m' :
  well_formed self m l ->
  valid_request size alignment ->
  (length l < fuel)%nat ->
  Allocate fuel self m size alignment = Some (Returned ptr, self', m') ->
  exists a s l',
    In (a, s) l /\ well_formed self' m' l' /\
    a + sizeof_AllocationHeader <= ptr /\
    ptr + size + sizeof_AllocationHeader <= a + s /\
    AllocationHeader.adjustment m' (ptr - sizeof_AllocationHeader) = ptr - a /\
    (forall x sx, In (x, sx) l' ->
       x + sx <= a \/ ptr + size + sizeof_AllocationHeader <= x).
Proof.
  intros Hwf Hreq Hfuel Hrun.
  destruct (Allocate_allocated self m l size alignment fuel ptr self' m'
              Hwf Hreq Hfuel Hrun)
    as (a & s & f & l' & Hin & -> & Hf & Hwf1 & Hlen & Halloc & Hrel & _
        & Hu1 & Hn1).
  destruct Halloc as (Hb & Hbe & Hadj & Hbs & Hhs & Hha & Hsep).
  exists a, s, l'. unfold sizeof_AllocationHeader, sizeof_FreeBlock in *.
  split; [exact Hin|]. split; [exact Hwf1|]. split; [lia|]. split; [lia|].
  split; [rewrite Hha; lia|].
  intros x sx Hx. destruct (Hsep x sx Hx) as [[_ H]|H]; lia.
Qed.

Lemma Allocate_payload_placement_witness :
  let r := Allocate 4 example_allocator example_memory 40 8 in
  let ptr := returned_pointer r in
  let self' := allocator_after r in
  let m' := memory_after r in
  well_formed example_allocator example_memory example_blocks /\
  valid_request 40 8 /\
  r = Some (Returned ptr, self', m') /\
  exists a s l',
    In (a, s) example_blocks /\ well_formed self' m' l' /\
    a + sizeof_AllocationHeader <= ptr /\
    ptr + 40 + sizeof_AllocationHeader <= a + s /\
    AllocationHeader.adjustment m' (ptr - sizeof_AllocationHeader) = ptr - a /\
    (forall x sx, In (x, sx) l' ->
       x + sx <= a \/ ptr + 40 + sizeof_AllocationHeader <= x).
Proof.
  intros r ptr self' m'.
  pose proof example_well_formed as Hwf.
  assert (Hreq : valid_request 40 8).
  { split; [lia|]. exists 3. split; [lia|reflexivity]. }
  assert (Hrun : r = Some (Returned ptr, self', m')).
  { apply returned_eta. vm_compute. reflexivity. }
  split; [exact Hwf|]. split; [exact Hreq|]. split; [exact Hrun|].
  apply (Allocate_payload_placement example_allocator example_memory
           example_blocks 40 8 4 ptr self' m' Hwf Hreq).
  - cbn [length example_blocks]. lia.
  - exact Hrun.
Defined.

(** X12.  A request so large that [size + adjustment + header] wraps around
    modulo [2^64] has a footprint smaller than a header, so it qualifies
    for every block: [Allocate] returns a pointer instead of throwing
    [std::bad_alloc]. *)
Theorem Allocate_wrapping_request self m l a s k size fuel :
  well_formed self m l ->
  (length l < fuel)%nat ->
  In (a, s) l ->
  0 <= k < 64 ->
  2 ^ 64 - adjustment_for (2 ^ k) a - sizeof_AllocationHeader <= size
    < 2 ^ 64 - adjustment_for (2 ^ k) a ->
  totalSize_for size (2 ^ k) a < sizeof_AllocationHeader /\
  exists ptr self' m',
    Allocate fuel self m size (2 ^ k) = Some (Returned ptr, self', m').
Proof.
  intros Hwf Hfuel Hin Hk Hsize.
  pose proof (ascending_In _ _ _ _ (proj2 Hwf) Hin) as (Ha & Hs & Has).
  pose proof (adjustment_for_bounds k a Hk ltac:(lia)) as Hadj.
  pose proof (pow2_bounds k Hk) as Hpow.
  assert (Htot : totalSize_for size (2 ^ k) a
                 = size + adjustment_for (2 ^ k) a + 16 - 2 ^ 64).
  { unfold totalSize_for, sizeof_AllocationHeader in *.
    rewrite (wrap64_small (size + _)) by lia.
    unfold wrap64. symmetry.
    apply Z.mod_unique with (q := 1); lia. }
  unfold sizeof_AllocationHeader in *.
  split; [lia|].
  apply (Allocate_selects self m l size (2 ^ k) fuel Hwf Hfuel).
  exists (a, s). split; [exact Hin|].
  unfold qualifies, int_to_size_t. cbn [fst snd].
  rewrite (wrap64_small s) by lia. lia.
Qed.

Lemma Allocate_wrapping_request_witness :
  well_formed example_allocator example_memory example_blocks /\
  In (4096, 50) example_blocks /\
  2 ^ 64 - adjustment_for (2 ^ 3) 4096 - sizeof_AllocationHeader
    <= 2 ^ 64 - 32 < 2 ^ 64 - adjustment_for (2 ^ 3) 4096 /\
  totalSize_for (2 ^ 64 - 32) (2 ^ 3) 4096 < sizeof_AllocationHeader /\
  exists ptr self' m',
    Allocate 4 example_allocator example_memory (2 ^ 64 - 32) (2 ^ 3)
    = Some (Returned ptr, self', m').
Proof.
  assert (Hin : In (4096, 50) example_blocks) by (left; reflexivity).
  assert (Hsize : 2 ^ 64 - adjustment_for (2 ^ 3) 4096
                  - sizeof_AllocationHeader
                  <= 2 ^ 64 - 32 < 2 ^ 64 - adjustment_for (2 ^ 3) 4096).
  { split; vm_compute; [discriminate|reflexivity]. }
  split; [exact example_well_formed|]. split; [exact Hin|].
  split; [exact Hsize|].
  apply (Allocate_wrapping_request example_allocator example_memory
           example_blocks 4096 50 3 (2 ^ 64 - 32) 4 example_well_formed).
  - cbn [length example_blocks]. lia.
  - exact Hin.
  - lia.
  - exact Hsize.
Defined.

(** ** The constructor, again *)

(** X13.  The constructor fails an assertion exactly for
    [sizeBytes <= sizeof(FreeBlock)].  Otherwise it returns an allocator
    with [GetSize() = sizeBytes], [GetStart() = start], both counters 0 and
    the free-list head at [start]; it has written one record at [start]
    (size converted to [int], null [next] and [prev]) and no byte outside
    [start, start + sizeof(FreeBlock)). *)
Theorem FreeListAllocator_ctor_outcome sizeBytes start m :
  (sizeBytes <= sizeof_FreeBlock ->
   FreeListAllocator_ctor sizeBytes start m = assertion_failure) /\
  (sizeof_FreeBlock < sizeBytes ->
   exists self m',
     FreeListAllocator_ctor sizeBytes start m = Returned (self, m') /\
     GetSize (base self) = sizeBytes /\ GetStart (base self) = start /\
     GetUsed (base self) = 0 /\ GetNumAllocation (base self) = 0 /\
     m_freeBlocks self = start /\
     FreeBlock.size m' start = to_int sizeBytes /\
     FreeBlock.next m' start = nullptr /\
     FreeBlock.prev m' start = nullptr /\
     forall y, y < start \/ start + sizeof_FreeBlock <= y -> m' y = m y).
Proof.
  split.
  - apply FreeListAllocator_ctor_asserts.
  - intros Hs. unfold sizeof_FreeBlock in *.
    unfold FreeListAllocator_ctor, Allocator_ctor, sizeof_FreeBlock.
    destruct (Z.ltb_spec 0 sizeBytes); [|lia].
    destruct (Z.ltb_spec 24 sizeBytes); [|lia].
    eexists _, _. split; [reflexivity|].
    cbn [GetSize GetStart GetUsed GetNumAllocation base m_size m_start
         m_usedBytes m_numAllocations m_freeBlocks].
    repeat (split; [reflexivity|]).
    split; [|split; [|split]].
    + rewrite (size_frame (FreeBlock.set_size m start sizeBytes)).
      * unfold FreeBlock.size, FreeBlock.set_size.
        apply load_int_store_int.
      * intros y Hy. rewrite set_prev_bytes, set_next_bytes by lia.
        reflexivity.
    + rewrite (next_frame
                 (FreeBlock.set_next (FreeBlock.set_size m start sizeBytes)
                    start nullptr)).
      * apply next_set_next. unfold nullptr. lia.
      * intros y Hy. rewrite set_prev_bytes by lia. reflexivity.
    + apply prev_set_prev. unfold nullptr. lia.
    + intros y Hy.
      rewrite set_prev_bytes, set_next_bytes, set_size_bytes by lia.
      reflexivity.
Qed.

(** X14.  For an arena size that fits an [int], the constructed allocator
    has a well-formed free list consisting of the single block
    [(start, sizeBytes)], and destroying it right away passes the
    assertions of both destructors. *)
Theorem FreeListAllocator_ctor_well_formed sizeBytes start m :
  sizeof_FreeBlock < sizeBytes < 2 ^ 31 ->
  1 <= start -> start + sizeBytes <= 2 ^ 64 ->
  exists self m',
    FreeListAllocator_ctor sizeBytes start m = Returned (self, m') /\
    well_formed self m' [(start, sizeBytes)] /\
    FreeListAllocator_dtor self = Returned tt.
Proof.
  intros Hs H1 H2.
  destruct (FreeListAllocator_ctor_small sizeBytes start m Hs H1 H2)
    as (self & m' & Hrun & Hwf & _ & _ & Hu & Hn).
  exists self, m'. split; [exact Hrun|]. split; [exact Hwf|].
  unfold FreeListAllocator_dtor, Allocator_dtor.
  unfold GetUsed, GetNumAllocation in *. rewrite Hu, Hn. reflexivity.
Qed.

Lemma FreeListAllocator_ctor_well_formed_witness :
  sizeof_FreeBlock < 300 < 2 ^ 31 /\
  exists self m',
    FreeListAllocator_ctor 300 4096 (fun _ => 0) = Returned (self, m') /\
    well_formed self m' [(4096, 300)] /\
    FreeListAllocator_dtor self = Returned tt.
Proof.
  assert (H : sizeof_FreeBlock < 300 < 2 ^ 31)
    by (unfold sizeof_FreeBlock; lia).
  split; [exact H|].
  apply (FreeListAllocator_ctor_well_formed 300 4096 (fun _ => 0) H); lia.
Defined.

(** X15.  Constructor followed by the first [Allocate], for an alignment of
    at most 16 and an aligned arena start: the pointer returned is
    [start + sizeof(AllocationHeader)], one allocation is counted, and
    [GetUsed()] is [size + 2 * sizeof(AllocationHeader)], or the whole arena
    when at most a header's worth of bytes would remain. *)
Theorem first_Allocate_on_fresh_arena sizeBytes start m size k :
  sizeof_FreeBlock < sizeBytes < 2 ^ 31 ->
  1 <= start -> start + sizeBytes <= 2 ^ 64 ->
  0 <= k <= 4 -> start mod 2 ^ k = 0 ->
  0 <= size -> size + 2 * sizeof_AllocationHeader < sizeBytes ->
  exists self m0 self' m',
    FreeListAllocator_ctor sizeBytes start m = Returned (self, m0) /\
    Allocate 2 self m0 size (2 ^ k)
    = Some (Returned (start + sizeof_AllocationHeader), self', m') /\
    GetNumAllocation (base self') = 1 /\
    GetUsed (base self')
    = (if sizeBytes - (size + 2 * sizeof_AllocationHeader)
          <=? sizeof_AllocationHeader
       then sizeBytes else size + 2 * sizeof_AllocationHeader).
Proof.
  intros Hs H1 H2 Hk Hal Hsize Hfit.
  destruct (FreeListAllocator_ctor_small sizeBytes start m Hs H1 H2)
    as (self & m0 & Hctor & Hwf & _ & _ & Hu & Hn).
  unfold sizeof_FreeBlock, sizeof_AllocationHeader in *.
  assert (Hpow : 2 ^ k <= 16).
  { change 16 with (2 ^ 4). apply Z.pow_le_mono_r; lia. }
  assert (Hadj : adjustment_for (2 ^ k) start = 16).
  { apply (adjustment_bounds start k); unfold sizeof_AllocationHeader;
      first [lia | exact Hal]. }
  assert (Hreq : valid_request size (2 ^ k)).
  { split; [lia|]. exists k. split; [lia|reflexivity]. }
  destruct (totalSize_for_exact size (2 ^ k) start Hreq ltac:(lia))
    as [Htot _].
  rewrite Hadj in Htot. unfold sizeof_AllocationHeader in Htot.
  destruct (Allocate_selects self m0 [(start, sizeBytes)] size (2 ^ k) 2 Hwf)
    as (ptr & self' & m' & Hrun).
  { cbn [length]. lia. }
  { exists (start, sizeBytes). split; [left; reflexivity|].
    unfold qualifies, int_to_size_t. cbn [fst snd].
    rewrite Htot, wrap64_small by lia. lia. }
  destruct (Allocate_post self m0 _ size (2 ^ k) 2 ptr self' m' Hwf Hreq)
    as (l1 & a & s & l2 & Hl & _ & Hpost); [cbn [length]; lia|exact Hrun|].
  assert (E : l1 = [] /\ a = start /\ s = sizeBytes).
  { destruct l1 as [|c l1].
    - cbn [app] in Hl. injection Hl as <- <- _. auto.
    - cbn [app] in Hl. injection Hl as _ Hl.
      destruct l1; discriminate. }
  destruct E as (-> & -> & ->). cbv zeta in Hpost.
  rewrite Hadj in Hpost. unfold sizeof_AllocationHeader in Hpost.
  destruct Hpost as (-> & _ & _ & _ & _ & Hu' & Hn' & _).
  exists self, m0, self', m'. split; [exact Hctor|]. split; [exact Hrun|].
  unfold GetUsed, GetNumAllocation in *.
  rewrite Hn', Hn, Hu', Hu. cbn [Z.add].
  split; [reflexivity|].
  replace (size + 16 + 16) with (size + 2 * 16) by lia.
  destruct (sizeBytes - (size + 2 * 16) <=? 16); apply wrap64_small; lia.
Qed.

Lemma first_Allocate_on_fresh_arena_witness :
  sizeof_FreeBlock < 300 < 2 ^ 31 /\ 0 <= 3 <= 4 /\ 4096 mod 2 ^ 3 = 0 /\
  100 + 2 * sizeof_AllocationHeader < 300 /\
  exists self m0 self' m',
    FreeListAllocator_ctor 300 4096 (fun _ => 0) = Returned (self, m0) /\
    Allocate 2 self m0 100 (2 ^ 3)
    = Some (Returned (4096 + sizeof_AllocationHeader), self', m') /\
    GetNumAllocation (base self') = 1 /\
    GetUsed (base self')
    = (if 300 - (100 + 2 * sizeof_AllocationHeader)
          <=? sizeof_AllocationHeader
       then 300 else 100 + 2 * sizeof_AllocationHeader).
Proof.
  assert (H : sizeof_FreeBlock < 300 < 2 ^ 31)
    by (unfold sizeof_FreeBlock; lia).
  assert (Hf : 100 + 2 * sizeof_AllocationHeader < 300)
    by (unfold sizeof_AllocationHeader; lia).
  split; [exact H|]. split; [lia|]. split; [reflexivity|]. split; [exact Hf|].
  apply (first_Allocate_on_fresh_arena 300 4096 (fun _ => 0) 100 3 H);
    try lia; try reflexivity; exact Hf.
Defined.

(** ** Counters across calls *)

Lemma has_freed_eta (r : option (outcome unit * FreeListAllocator * memory)) :
  has_freed r = true ->
  r = Some (Returned tt, allocator_after r, memory_after r).
Proof.
  destruct r as [[[[[]| |] self] m]|]; cbn; intros H;
    [reflexivity|discriminate..].
Qed.

(** X16.  Whatever the memory holds: when [Allocate] returns a pointer and
    [Free] of that pointer returns, [GetNumAllocation()] is back to its
    value, and [GetUsed()] has gone up by the footprint and down by the
    footprint as the [int] header field holds it. *)
Theorem Allocate_Free_counters fuel self m size alignment ptr self1 m1
    fuel' self2 m2 :
  0 <= GetNumAllocation (base self) < 2 ^ 64 ->
  Allocate fuel self m size alignment = Some (Returned ptr, self1, m1) ->
  Free fuel' self1 m1 ptr = Some (Returned tt, self2, m2) ->
  GetNumAllocation (base self2) = GetNumAllocation (base self) /\
  exists footprint,
    GetUsed (base self1) = wrap64 (GetUsed (base self) + footprint) /\
    GetUsed (base self2)
    = wrap64 (GetUsed (base self) + footprint
              - int_to_size_t (to_int footprint)).
Proof.
  intros Hnum Hrun Hfree.
  destruct (Allocate_counters _ _ _ _ _ _ _ _ Hrun) as (fp & Hu1 & Hn1 & Hh).
  destruct (Free_counters _ _ _ _ _ _ Hfree) as (Hn2 & Hu2).
  split.
  - rewrite Hn2, Hn1. apply (wrap64_add_sub _ 1). exact Hnum.
  - exists fp. split; [exact Hu1|].
    rewrite Hu2, Hu1. unfold ptr_sub. rewrite Hh.
    unfold wrap64. rewrite Zminus_mod_idemp_l. reflexivity.
Qed.

Lemma Allocate_Free_counters_witness :
  let r := Allocate 4 example_allocator example_memory 40 8 in
  let ptr := returned_pointer r in
  let self1 := allocator_after r in
  let m1 := memory_after r in
  let r' := Free 4 self1 m1 ptr in
  let self2 := allocator_after r' in
  r = Some (Returned ptr, self1, m1) /\
  r' = Some (Returned tt, self2, memory_after r') /\
  GetNumAllocation (base self2) = GetNumAllocation (base example_allocator) /\
  exists footprint,
    GetUsed (base self1)
    = wrap64 (GetUsed (base example_allocator) + footprint) /\
    GetUsed (base self2)
    = wrap64 (GetUsed (base example_allocator) + footprint
              - int_to_size_t (to_int footprint)).
Proof.
  intros r ptr self1 m1 r' self2.
  assert (Hrun : r = Some (Returned ptr, self1, m1)).
  { apply returned_eta. vm_compute. reflexivity. }
  assert (Hfree : r' = Some (Returned tt, self2, memory_after r')).
  { apply has_freed_eta. vm_compute. reflexivity. }
  split; [exact Hrun|]. split; [exact Hfree|].
  apply (Allocate_Free_counters 4 example_allocator example_memory 40 8 ptr
           self1 m1 4 self2 (memory_after r')).
  - cbn. lia.
  - exact Hrun.
  - exact Hfree.
Defined.

(** ** Destruction and moves *)

(** X17.  After an [Allocate] that returned a pointer, the destructors of
    [FreeListAllocator] and of [Allocator] fail their assertion: an
    outstanding allocation is detected at destruction. *)
Theorem dtor_after_Allocate fuel self m size alignment ptr self' m' :
  0 <= GetNumAllocation (base self) < 2 ^ 64 - 1 ->
  Allocate fuel self m size alignment = Some (Returned ptr, self', m') ->
  FreeListAllocator_dtor self' = assertion_failure /\
  Allocator_dtor (base self') = assertion_failure.
Proof.
  intros Hnum Hrun.
  destruct (Allocate_counters _ _ _ _ _ _ _ _ Hrun) as (fp & _ & Hn1 & _).
  unfold GetNumAllocation in *.
  rewrite wrap64_small in Hn1 by lia.
  unfold FreeListAllocator_dtor, Allocator_dtor. rewrite Hn1.
  destruct (Z.eqb_spec (m_numAllocations (base self) + 1) 0); [lia|].
  split; reflexivity.
Qed.

Lemma dtor_after_Allocate_witness :
  let r := Allocate 4 example_allocator example_memory 40 8 in
  0 <= GetNumAllocation (base example_allocator) < 2 ^ 64 - 1 /\
  r = Some (Returned (returned_pointer r), allocator_after r, memory_after r) /\
  FreeListAllocator_dtor (allocator_after r) = assertion_failure /\
  Allocator_dtor (base (allocator_after r)) = assertion_failure.
Proof.
  intros r.
  assert (Hnum : 0 <= GetNumAllocation (base example_allocator) < 2 ^ 64 - 1)
    by (cbn; lia).
  assert (Hrun : r = Some (Returned (returned_pointer r), allocator_after r,
                           memory_after r)).
  { apply returned_eta. vm_compute. reflexivity. }
  split; [exact Hnum|]. split; [exact Hrun|].
  apply (dtor_after_Allocate 4 example_allocator example_memory 40 8
           (returned_pointer r) (allocator_after r) (memory_after r) Hnum Hrun).
Defined.

(** X18.  The move constructor hands the whole state to the new object and
    leaves the source with null pointers and zero counters, so that the
    source passes its destructor.  Move assignment between two objects
    does the same and overwrites the destination, whatever allocations it
    still counted.  Self-assignment leaves a [FreeListAllocator] as it is,
    while [Allocator::operator=], which has no such test, resets the
    object. *)
Theorem moves_transfer_the_state (this rhs : FreeListAllocator) :
  (let '(new, old) := FreeListAllocator_move_ctor rhs in
   new = rhs /\ FreeListAllocator_dtor old = Returned tt /\
   m_freeBlocks old = nullptr /\ GetStart (base old) = nullptr /\
   GetSize (base old) = 0) /\
  (exists old,
     FreeListAllocator_move_assign (Distinct this rhs) = Distinct rhs old /\
     FreeListAllocator_dtor old = Returned tt /\
     m_freeBlocks old = nullptr /\ GetStart (base old) = nullptr) /\
  FreeListAllocator_move_assign (Same this) = Same this /\
  Allocator_move_assign (Same (base this)) = Same moved_from.
Proof.
  destruct rhs as [[s u n st] f].
  repeat apply conj; try reflexivity.
  eexists. repeat apply conj; reflexivity.
Qed.

(** ** The adaptor *)

Lemma root_block_chain m : forall chain p r fuel,
  block_chain m p chain r -> (length chain < fuel)%nat ->
  root_block fuel m p = Some r.
Proof.
  induction chain as [|b chain IH]; intros p r fuel Hc Hfuel;
    (destruct fuel as [|fuel]; [cbn [length] in Hfuel; lia|]);
    cbn [block_chain root_block] in *.
  - destruct Hc as [-> Hr]. rewrite Hr, Z.eqb_refl. reflexivity.
  - destruct Hc as (-> & Hnz & Hc).
    destruct (Z.eqb_spec (BlockDesc.prevBlock m b) nullptr); [contradiction|].
    cbn [negb]. apply IH; [exact Hc|cbn [length] in Hfuel; lia].
Qed.

(** X19.  For two [DynamicAllocator]s whose [prevBlock] chains end in the
    roots [root_l] and [root_r], [operator==] (given fuel for the longer
    chain) returns whether the two roots are the same block, and
    [operator!=] returns the negation. *)
Theorem STLAdaptor_eq_dynamic_roots fuel m (lhs rhs : DynamicAllocator)
    chain_l chain_r root_l root_r :
  block_chain m (m_currentBlock lhs) chain_l root_l ->
  block_chain m (m_currentBlock rhs) chain_r root_r ->
  (length chain_l < fuel)%nat -> (length chain_r < fuel)%nat ->
  STLAdaptor_eq fuel m (mkSTLAdaptor lhs) (mkSTLAdaptor rhs)
  = Some (root_l =? root_r) /\
  STLAdaptor_neq fuel m (mkSTLAdaptor lhs) (mkSTLAdaptor rhs)
  = Some (negb (root_l =? root_r)).
Proof.
  intros Hl Hr Hfl Hfr.
  unfold STLAdaptor_neq, STLAdaptor_eq.
  cbn [is_base_of_FixedAllocator DynamicAllocator_class
       dynamic_cast_DynamicAllocator m_allocator].
  rewrite (root_block_chain m _ _ _ _ Hl Hfl).
  rewrite (root_block_chain m _ _ _ _ Hr Hfr).
  split; reflexivity.
Qed.

Lemma STLAdaptor_eq_dynamic_roots_witness :
  let lhs := mkDynamicAllocator (mkAllocator 64 0 0 100) 200 in
  let rhs := mkDynamicAllocator (mkAllocator 64 0 0 100) 100 in
  block_chain example_chain (m_currentBlock lhs) [200] 100 /\
  block_chain example_chain (m_currentBlock rhs) [] 100 /\
  STLAdaptor_eq 2 example_chain (mkSTLAdaptor lhs) (mkSTLAdaptor rhs)
  = Some (100 =? 100) /\
  STLAdaptor_neq 2 example_chain (mkSTLAdaptor lhs) (mkSTLAdaptor rhs)
  = Some (negb (100 =? 100)).
Proof.
  intros lhs rhs.
  assert (Hl : block_chain example_chain (m_currentBlock lhs) [200] 100).
  { cbn [block_chain m_currentBlock lhs].
    repeat apply conj; try reflexivity; vm_compute; congruence. }
  assert (Hr : block_chain example_chain (m_currentBlock rhs) [] 100).
  { cbn [block_chain m_currentBlock rhs]. split; reflexivity. }
  split; [exact Hl|]. split; [exact Hr|].
  apply (STLAdaptor_eq_dynamic_roots 2 example_chain lhs rhs [200] [] 100 100
           Hl Hr); cbn [length]; lia.
Defined.

(** X20.  The constructor of [DynamicAllocator] fails its assertion exactly
    for [sizeBytes <= 0]; otherwise the current block is the arena start,
    it is its own root, an adaptor over the new allocator equals itself, and
    [MaxAllocationSize()] is [sizeBytes]. *)
Theorem DynamicAllocator_ctor_root sizeBytes start m fuel :
  (sizeBytes <= 0 ->
   DynamicAllocator_ctor sizeBytes start m = assertion_failure) /\
  (0 < sizeBytes ->
   exists d m',
     DynamicAllocator_ctor sizeBytes start m = Returned (d, m') /\
     m_currentBlock d = start /\
     GetSize (dyn_base d) = sizeBytes /\ GetStart (dyn_base d) = start /\
     block_chain m' (m_currentBlock d) [] start /\
     STLAdaptor_eq (S fuel) m' (mkSTLAdaptor d) (mkSTLAdaptor d)
     = Some true /\
     MaxAllocationSize (mkSTLAdaptor d) = sizeBytes).
Proof.
  unfold DynamicAllocator_ctor, Allocator_ctor. split; intros Hs.
  - destruct (Z.ltb_spec 0 sizeBytes); [lia|reflexivity].
  - destruct (Z.ltb_spec 0 sizeBytes); [|lia].
    eexists _, _. split; [reflexivity|].
    cbn [m_currentBlock dyn_base GetSize GetStart m_size m_start].
    assert (Hroot : block_chain (store_u64 m start nullptr) start [] start).
    { cbn [block_chain]. split; [reflexivity|].
      unfold BlockDesc.prevBlock. rewrite load_u64_store_u64.
      reflexivity. }
    repeat (split; [reflexivity|]). split; [exact Hroot|].
    split; [|reflexivity].
    unfold STLAdaptor_eq.
    cbn [is_base_of_FixedAllocator DynamicAllocator_class
         dynamic_cast_DynamicAllocator m_allocator m_currentBlock].
    rewrite (root_block_chain _ [] start start (S fuel) Hroot)
      by (cbn [length]; lia).
    rewrite Z.eqb_refl. reflexivity.
Qed.

(** X21.  A pointer returned by [STLAdaptor::allocate] is a multiple of
    [alignof(T)]; [MaxAllocationSize()] is unchanged and the adaptor still
    equals itself as it was before the call; and the request depends on [n]
    only through [n * sizeof(T)] modulo [2^64]. *)
Theorem STLAdaptor_allocate_forwards T fuel self m n k p self' m' :
  0 <= k < 64 -> alignof_T T = 2 ^ k ->
  STLAdaptor_allocate T fuel self m n = Some (Returned p, self', m') ->
  p mod alignof_T T = 0 /\
  MaxAllocationSize self' = MaxAllocationSize self /\
  (forall fuel' m'', STLAdaptor_eq fuel' m'' self self' = Some true) /\
  (forall n',
     wrap64 (n' * sizeof_T T) = wrap64 (n * sizeof_T T) ->
     STLAdaptor_allocate T fuel self m n' = Some (Returned p, self', m')).
Proof.
  intros Hk Hal Hrun. unfold STLAdaptor_allocate in *.
  destruct (Allocate fuel (m_allocator self) m (wrap64 (n * sizeof_T T))
              (alignof_T T)) as [[[o a] m1]|] eqn:HA; [|discriminate].
  injection Hrun as -> <- <-.
  pose proof (Allocate_arena _ _ _ _ _ _ _ _ HA) as [Hsz Hst].
  split; [|split; [|split]].
  - rewrite Hal in HA |- *.
    apply (Allocate_pointer_aligned _ _ _ _ _ _ _ _ Hk HA).
  - unfold MaxAllocationSize, GetSize.
    cbn [as_Allocator FreeListAllocator_class m_allocator]. exact Hsz.
  - intros fuel' m''. unfold STLAdaptor_eq.
    cbn [is_base_of_FixedAllocator as_Allocator FreeListAllocator_class
         m_allocator]. unfold GetStart.
    rewrite Hst, Z.eqb_refl. reflexivity.
  - intros n' E. rewrite E, HA. reflexivity.
Qed.

Lemma STLAdaptor_allocate_forwards_witness :
  let T := mkElementType 4 4 in
  let self := mkSTLAdaptor example_allocator in
  let r := Allocate 4 example_allocator example_memory (wrap64 (10 * 4)) 4 in
  let p := returned_pointer r in
  let self' := mkSTLAdaptor (allocator_after r) in
  let m' := memory_after r in
  alignof_T T = 2 ^ 2 /\
  STLAdaptor_allocate T 4 self example_memory 10
  = Some (Returned p, self', m') /\
  p mod alignof_T T = 0 /\
  MaxAllocationSize self' = MaxAllocationSize self /\
  (forall fuel' m'', STLAdaptor_eq fuel' m'' self self' = Some true) /\
  (forall n',
     wrap64 (n' * sizeof_T T) = wrap64 (10 * sizeof_T T) ->
     STLAdaptor_allocate T 4 self example_memory n'
     = Some (Returned p, self', m')).
Proof.
  intros T self r p self' m'.
  assert (Hal : alignof_T T = 2 ^ 2) by reflexivity.
  assert (Hrun : STLAdaptor_allocate T 4 self example_memory 10
                 = Some (Returned p, self', m')).
  { unfold STLAdaptor_allocate.
    cbn [m_allocator self sizeof_T alignof_T T].
    fold r. rewrite (returned_eta r) by (vm_compute; reflexivity).
    reflexivity. }
  split; [exact Hal|]. split; [exact Hrun|].
  apply (STLAdaptor_allocate_forwards T 4 self example_memory 10 2 p self' m');
    [lia|exact Hal|exact Hrun].
Defined.

(** X22.  For an allocator class with [FixedAllocator] as a base,
    [operator==] is reflexive, symmetric and transitive, and [operator!=]
    returns a value exactly when [operator==] returns its negation. *)
Theorem STLAdaptor_eq_equivalence
    (Alloc : Type) (C : AllocatorClass Alloc)
    (fuel : nat) (m : memory) (a b c : STLAdaptor Alloc) :
  @is_base_of_FixedAllocator Alloc C = true ->
  STLAdaptor_eq fuel m a a = Some true /\
  STLAdaptor_eq fuel m a b = STLAdaptor_eq fuel m b a /\
  (STLAdaptor_eq fuel m a b = Some true ->
   STLAdaptor_eq fuel m b c = Some true ->
   STLAdaptor_eq fuel m a c = Some true) /\
  (forall x, STLAdaptor_neq fuel m a b = Some x <->
             STLAdaptor_eq fuel m a b = Some (negb x)).
Proof.
  intros Hfixed. unfold STLAdaptor_neq, STLAdaptor_eq. rewrite Hfixed.
  cbn [option_map].
  split; [rewrite Z.eqb_refl; reflexivity|].
  split; [rewrite Z.eqb_sym; reflexivity|].
  split.
  - intros H1 H2. injection H1 as H1. injection H2 as H2.
    apply Z.eqb_eq in H1, H2. rewrite H1, H2, Z.eqb_refl. reflexivity.
  - intros x. split; intros H; injection H as H; f_equal.
    + rewrite <- H. symmetry. apply negb_involutive.
    + rewrite H. apply negb_involutive.
Qed.

Lemma STLAdaptor_eq_equivalence_witness :
  let a := mkSTLAdaptor arena_one in
  let b := mkSTLAdaptor arena_two in
  @is_base_of_FixedAllocator FreeListAllocator FreeListAllocator_class = true /\
  STLAdaptor_eq 1 (fun _ => 0) a a = Some true /\
  STLAdaptor_eq 1 (fun _ => 0) a b = STLAdaptor_eq 1 (fun _ => 0) b a /\
  (STLAdaptor_eq 1 (fun _ => 0) a b = Some true ->
   STLAdaptor_eq 1 (fun _ => 0) b a = Some true ->
   STLAdaptor_eq 1 (fun _ => 0) a a = Some true) /\
  (forall x, STLAdaptor_neq 1 (fun _ => 0) a b = Some x <->
             STLAdaptor_eq 1 (fun _ => 0) a b = Some (negb x)).
Proof.
  intros a b. split; [reflexivity|].
  apply (STLAdaptor_eq_equivalence FreeListAllocator FreeListAllocator_class
           1 (fun _ => 0) a b a).
  reflexivity.
Defined.

(** X23.  [STLAdaptor::allocate(n)] followed by [deallocate(p, n)], for an
    element type whose alignment makes the adjustment at least twice the
    header size: the allocator behind the adaptor is exactly as before and
    its free list is the same, well formed. *)
Theorem STLAdaptor_round_trip T fuel self m l n p self1 m1 :
  well_formed (m_allocator self) m l ->
  (length l < fuel)%nat ->
  valid_request (n * sizeof_T T) (alignof_T T) ->
  (forall x sx, In (x, sx) l ->
     2 * sizeof_AllocationHeader <= adjustment_for (alignof_T T) x) ->
  0 <= GetUsed (base (m_allocator self)) < 2 ^ 64 ->
  0 <= GetNumAllocation (base (m_allocator self)) < 2 ^ 64 ->
  STLAdaptor_allocate T fuel self m n = Some (Returned p, self1, m1) ->
  exists m2,
    STLAdaptor_deallocate fuel self1 m1 p n = Some (Returned tt, self, m2) /\
    well_formed (m_allocator self) m2 l.
Proof.
  intros Hwf Hfuel Hreq Hclear Hused Hnum Hrun.
  destruct self as [a]. cbn [m_allocator] in *.
  unfold STLAdaptor_allocate in Hrun. cbn [m_allocator] in Hrun.
  rewrite (wrap64_small (n * sizeof_T T)) in Hrun
    by (destruct Hreq as [? _]; lia).
  destruct (Allocate fuel a m (n * sizeof_T T) (alignof_T T))
    as [[[o a1] m1']|] eqn:HA; [|discriminate].
  injection Hrun as -> <- <-.
  destruct (Allocate_Free_restores a m l _ _ fuel p a1 m1' Hwf Hreq Hfuel
              Hclear Hused Hnum HA) as (m2 & Hfree & Hwf2 & _).
  exists m2. unfold STLAdaptor_deallocate. cbn [m_allocator].
  rewrite Hfree. split; [reflexivity|exact Hwf2].
Qed.

Lemma STLAdaptor_round_trip_witness :
  let T := mkElementType 4 32 in
  let self := mkSTLAdaptor example_allocator in
  let r := Allocate 4 example_allocator example_memory (25 * 4) 32 in
  let p := returned_pointer r in
  let self1 := mkSTLAdaptor (allocator_after r) in
  let m1 := memory_after r in
  well_formed (m_allocator self) example_memory example_blocks /\
  valid_request (25 * sizeof_T T) (alignof_T T) /\
  (forall x sx, In (x, sx) example_blocks ->
     2 * sizeof_AllocationHeader <= adjustment_for (alignof_T T) x) /\
  STLAdaptor_allocate T 4 self example_memory 25
  = Some (Returned p, self1, m1) /\
  exists m2,
    STLAdaptor_deallocate 4 self1 m1 p 25 = Some (Returned tt, self, m2) /\
    well_formed (m_allocator self) m2 example_blocks.
Proof.
  intros T self r p self1 m1.
  pose proof example_well_formed as Hwf.
  assert (Hreq : valid_request (25 * sizeof_T T) (alignof_T T)).
  { split; [cbn; lia|]. exists 5. split; [lia|reflexivity]. }
  assert (Hclear : forall x sx, In (x, sx) example_blocks ->
            2 * sizeof_AllocationHeader <= adjustment_for (alignof_T T) x).
  { intros x sx Hin. unfold example_blocks in Hin. cbn [In] in Hin.
    destruct Hin as [E|[E|[E|[]]]]; injection E as <- <-;
      vm_compute; discriminate. }
  assert (Hrun : STLAdaptor_allocate T 4 self example_memory 25
                 = Some (Returned p, self1, m1)).
  { unfold STLAdaptor_allocate.
    cbn [m_allocator self sizeof_T alignof_T T].
    change (wrap64 (25 * 4)) with (25 * 4).
    fold r. rewrite (returned_eta r) by (vm_compute; reflexivity).
    reflexivity. }
  split; [exact Hwf|]. split; [exact Hreq|]. split; [exact Hclear|].
  split; [exact Hrun|].
  apply (STLAdaptor_round_trip T 4 self example_memory example_blocks 25 p
           self1 m1 Hwf).
  - cbn [length example_blocks]. lia.
  - exact Hreq.
  - exact Hclear.
  - cbn. lia.
  - cbn. lia.
  - exact Hrun.
Defined.

(** ** The scan for the insertion point *)

Lemma ascending_split_at b : forall l lo,
  ascending lo l ->
  exists l1 l2,
    l = l1 ++ l2 /\
    (forall x sx, In (x, sx) l1 -> x < b) /\
    (forall x sx, In (x, sx) l2 -> b <= x).
Proof.
  induction l as [|[x sx] l IH]; intros lo Hasc.
  - exists [], []. split; [reflexivity|]. split; intros ? ? [].
  - cbn [ascending] in Hasc. destruct Hasc as (A1 & A2 & A3 & A4).
    destruct (Z.lt_ge_cases x b) as [Hlt|Hge].
    + destruct (IH _ A4) as (l1 & l2 & -> & H1 & H2).
      exists ((x, sx) :: l1), l2. split; [reflexivity|]. split; [|exact H2].
      intros y sy [E|Hy]; [injection E as <- <-; exact Hlt|].
      apply (H1 y sy Hy).
    + exists [], ((x, sx) :: l). split; [reflexivity|].
      split; [intros ? ? []|].
      intros y sy [E|Hy]; [injection E as <- <-; exact Hge|].
      pose proof (ascending_In _ _ _ _ A4 Hy).
      unfold sizeof_AllocationHeader in *. lia.
Qed.

(** X24.  On a well-formed list the scan of [Free] ends within
    [length l + 1] iterations and splits the list at [blockStart]: it
    returns the last block at a lower address (null if there is none) and
    the first block at an address not below (null if there is none). *)
Theorem Free_scan_finds_neighbours self m l blockStart fuel :
  well_formed self m l ->
  (length l < fuel)%nat ->
  exists l1 l2,
    l = l1 ++ l2 /\
    (forall x sx, In (x, sx) l1 -> x < blockStart) /\
    (forall x sx, In (x, sx) l2 -> blockStart <= x) /\
    Free_scan fuel m blockStart nullptr (m_freeBlocks self)
    = Some (last_addr l1 nullptr, head_addr l2 nullptr).
Proof.
  intros [Hl Hasc] Hfuel.
  destruct (ascending_split_at blockStart l 1 Hasc) as (l1 & l2 & -> & H1 & H2).
  exists l1, l2. split; [reflexivity|]. split; [exact H1|].
  split; [exact H2|].
  apply Free_scan_spec; try assumption.
  rewrite length_app in Hfuel. lia.
Qed.

Lemma Free_scan_finds_neighbours_witness :
  well_formed example_allocator example_memory example_blocks /\
  exists l1 l2,
    example_blocks = l1 ++ l2 /\
    (forall x sx, In (x, sx) l1 -> x < 4500) /\
    (forall x sx, In (x, sx) l2 -> 4500 <= x) /\
    Free_scan 4 example_memory 4500 nullptr (m_freeBlocks example_allocator)
    = Some (last_addr l1 nullptr, head_addr l2 nullptr).
Proof.
  split; [exact example_well_formed|].
  apply (Free_scan_finds_neighbours example_allocator example_memory
           example_blocks 4500 4 example_well_formed).
  cbn [length example_blocks]. lia.
Defined.

(** ** The bytes [Allocate] may change *)


Lemma load_le_byte n : forall m x i,
  0 <= i < Z.of_nat n ->
  m (x + i) mod 256 = (load_le n m x / 256 ^ i) mod 256.
Proof.
  induction n as [|n IH]; intros m x i Hi; [cbn in Hi; lia|].
  cbn [load_le].
  set (L := load_le n m (x + 1)).
  pose proof (Z.mod_pos_bound (m x) 256 ltac:(lia)) as Hr.
  destruct (Z.eq_dec i 0) as [->|Hne].
  - rewrite Z.add_0_r, Z.pow_0_r, Z.div_1_r.
    replace (m x mod 256 + 256 * L) with (m x mod 256 + L * 256) by lia.
    rewrite Z.mod_add by lia. rewrite Z.mod_mod by lia. reflexivity.
  - replace (x + i) with (x + 1 + (i - 1)) by lia.
    rewrite (IH m (x + 1) (i - 1)) by lia. fold L.
    replace (256 ^ i) with (256 * 256 ^ (i - 1)).
    2:{ rewrite <- Z.pow_succ_r by lia. f_equal. lia. }
    rewrite <- Z.div_div by (try apply Z.pow_pos_nonneg; lia).
    replace ((m x mod 256 + 256 * L) / 256) with L; [reflexivity|].
    apply Z.div_unique with (r := m x mod 256); lia.
Qed.


(** X25.  The bytes a successful [Allocate] may change.  Let [(a, s)] be the
    block that serves the request.  Outside that block and outside the
    records (the first [sizeof(FreeBlock)] bytes) of the free blocks, no
    byte changes, with one exception: when the split leaves more than
    [sizeof(AllocationHeader)] but fewer than [sizeof(FreeBlock)] bytes,
    the record written for the remainder is longer than the remainder, and
    the bytes after the block, up to the end of that record, receive the
    bytes of the [prev] pointer. *)
Theorem Allocate_changes_only_its_block
    self m l size alignment fuel ptr self' m' :
  well_formed self m l ->
  valid_request size alignment ->
  (length l < fuel)%nat ->
  Allocate fuel self m size alignment = Some (Returned ptr, self', m') ->
  exists l1 a s l2,
    l = l1 ++ (a, s) :: l2 /\
    ptr = a + adjustment_for alignment a /\
    let totalSize :=
      size + adjustment_for alignment a + sizeof_AllocationHeader in
    let overrun :=
      (sizeof_AllocationHeader <? s - totalSize)
      && (s - totalSize <? sizeof_FreeBlock) in
    (forall y,
       y < a \/
       (if overrun then a + totalSize + sizeof_FreeBlock else a + s) <= y ->
       (forall x sx, In (x, sx) l -> y < x \/ x + sizeof_FreeBlock <= y) ->
       m' y mod 256 = m y mod 256) /\
    (overrun = true ->
     forall y, a + s <= y < a + totalSize + sizeof_FreeBlock ->
       m' y mod 256
       = (last_addr l1 nullptr
          / 256 ^ (y - (a + totalSize + sizeof_AllocationHeader))) mod 256).
Proof.
  intros Hwf Hreq Hfuel Hrun.
  destruct (Allocate_post self m l size alignment fuel ptr self' m'
              Hwf Hreq Hfuel Hrun)
    as (l1 & a & s & l2 & -> & _ & Hpost).
  cbv zeta in Hpost.
  destruct Hpost as (-> & Hadj & Hq & _ & _ & _ & _ & Hwf' & Hbytes).
  exists l1, a, s, l2. split; [reflexivity|]. split; [reflexivity|].
  cbv zeta. pose proof (proj1 Hreq) as Hsize.
  set (total := size + adjustment_for alignment a + sizeof_AllocationHeader)
    in *.
  unfold sizeof_AllocationHeader, sizeof_FreeBlock, nullptr in *.
  assert (Hprv : last_addr l1 0 = 0 \/ exists s0, In (last_addr l1 0, s0) l1).
  { destruct l1 as [|c l1']; [left; reflexivity|right].
    apply last_addr_In. discriminate. }
  assert (Hnxt : head_addr l2 0 = 0 \/ exists s0, In (head_addr l2 0, s0) l2).
  { destruct l2 as [|[c sc] l2']; [left; reflexivity|right].
    exists sc. left. reflexivity. }
  split.
  - intros y Hy Hrec. apply Hbytes.
    + destruct Hy as [Hy|Hy]; [left; exact Hy|right].
      destruct ((16 <? s - total) && (s - total <? 24)) eqn:E; [|exact Hy].
      apply andb_true_iff in E. destruct E as [E1 E2].
      apply Z.ltb_lt in E1, E2. lia.
    + destruct Hprv as [|[s0 H0]]; [left; assumption|].
      pose proof (Hrec _ s0 ltac:(apply in_or_app; left; exact H0)). lia.
    + destruct Hnxt as [|[s0 H0]]; [left; assumption|].
      pose proof (Hrec _ s0
                    ltac:(apply in_or_app; right; right; exact H0)). lia.
    + intros Hsplit. apply Z.leb_gt in Hsplit.
      destruct Hy as [Hy|Hy]; [left; lia|].
      destruct (Z.ltb_spec 16 (s - total)); [|lia].
      destruct (Z.ltb_spec (s - total) 24); cbn [andb] in Hy; lia.
  - intros E y Hy.
    apply andb_true_iff in E. destruct E as [E1 E2].
    apply Z.ltb_lt in E1, E2.
    destruct (Z.leb_spec (s - total) 16) as [|_]; [lia|].
    destruct Hwf' as [Hl' _]. unfold linked in Hl'.
    apply lseg_app in Hl'. destruct Hl' as [_ Hl']. cbn [lseg] in Hl'.
    destruct Hl' as (_ & _ & _ & Fp & _).
    unfold FreeBlock.prev, load_u64, nullptr in Fp. rewrite <- Fp.
    replace y with (a + total + 16 + (y - (a + total + 16))) at 1 by lia.
    apply load_le_byte. cbn. lia.
Qed.

Lemma Allocate_changes_only_its_block_witness :
  let r := Allocate 4 example_allocator example_memory 48 8 in
  let ptr := returned_pointer r in
  let self' := allocator_after r in
  let m' := memory_after r in
  well_formed example_allocator example_memory example_blocks /\
  valid_request 48 8 /\
  r = Some (Returned ptr, self', m') /\
  exists l1 a s l2,
    example_blocks = l1 ++ (a, s) :: l2 /\
    ptr = a + adjustment_for 8 a /\
    let totalSize := 48 + adjustment_for 8 a + sizeof_AllocationHeader in
    let overrun :=
      (sizeof_AllocationHeader <? s - totalSize)
      && (s - totalSize <? sizeof_FreeBlock) in
    (forall y,
       y < a \/
       (if overrun then a + totalSize + sizeof_FreeBlock else a + s) <= y ->
       (forall x sx, In (x, sx) example_blocks ->
          y < x \/ x + sizeof_FreeBlock <= y) ->
       m' y mod 256 = example_memory y mod 256) /\
    (overrun = true ->
     forall y, a + s <= y < a + totalSize + sizeof_FreeBlock ->
       m' y mod 256
       = (last_addr l1 nullptr
          / 256 ^ (y - (a + totalSize + sizeof_AllocationHeader))) mod 256).
Proof.
  intros r ptr self' m'.
  pose proof example_well_formed as Hwf.
  assert (Hreq : valid_request 48 8).
  { split; [lia|]. exists 3. split; [lia|reflexivity]. }
  assert (Hrun : r = Some (Returned ptr, self', m')).
  { apply returned_eta. vm_compute. reflexivity. }
  split; [exact Hwf|]. split; [exact Hreq|]. split; [exact Hrun|].
  apply (Allocate_changes_only_its_block example_allocator example_memory
           example_blocks 48 8 4 ptr self' m' Hwf Hreq).
  - cbn [length example_blocks]. lia.
  - exact Hrun.
Defined.

(** ** Adaptors typed over the base class *)

(** X26.  For an allocator class that does not have [FixedAllocator] as a
    base, [operator==] returns [false], and [operator!=] returns [true],
    as soon as one of the two allocators is not a [DynamicAllocator]; no
    chain is walked.  This includes the comparison of an adaptor with
    itself, for instance an adaptor typed over the abstract class
    [Allocator] and bound to a [FreeListAllocator]. *)
Theorem STLAdaptor_eq_without_casts
    (Alloc : Type) (C : AllocatorClass Alloc)
    (fuel : nat) (m : memory) (lhs rhs : STLAdaptor Alloc) :
  @is_base_of_FixedAllocator Alloc C = false ->
  @dynamic_cast_DynamicAllocator Alloc C (m_allocator lhs) = None \/
  @dynamic_cast_DynamicAllocator Alloc C (m_allocator rhs) = None ->
  @STLAdaptor_eq Alloc C fuel m lhs rhs = Some false /\
  @STLAdaptor_neq Alloc C fuel m lhs rhs = Some true.
Proof.
  intros Hbase Hcast. unfold STLAdaptor_neq, STLAdaptor_eq. rewrite Hbase.
  destruct (dynamic_cast_DynamicAllocator (m_allocator lhs)) as [dl|];
    destruct (dynamic_cast_DynamicAllocator (m_allocator rhs)) as [dr|];
    try (split; reflexivity).
  destruct Hcast; discriminate.
Qed.

Lemma STLAdaptor_eq_without_casts_witness :
  let a := mkSTLAdaptor arena_one in
  @is_base_of_FixedAllocator FreeListAllocator through_Allocator = false /\
  (@dynamic_cast_DynamicAllocator FreeListAllocator through_Allocator
     (m_allocator a) = None \/
   @dynamic_cast_DynamicAllocator FreeListAllocator through_Allocator
     (m_allocator a) = None) /\
  @STLAdaptor_eq FreeListAllocator through_Allocator 0 (fun _ => 0) a a
  = Some false /\
  @STLAdaptor_neq FreeListAllocator through_Allocator 0 (fun _ => 0) a a
  = Some true.
Proof.
  intros a.
  assert (Hbase : @is_base_of_FixedAllocator FreeListAllocator
                    through_Allocator = false) by reflexivity.
  assert (Hcast :
            @dynamic_cast_DynamicAllocator FreeListAllocator through_Allocator
              (m_allocator a) = None \/
            @dynamic_cast_DynamicAllocator FreeListAllocator through_Allocator
              (m_allocator a) = None) by (left; reflexivity).
  split; [exact Hbase|]. split; [exact Hcast|].
  apply (STLAdaptor_eq_without_casts FreeListAllocator through_Allocator
           0 (fun _ => 0) a a Hbase Hcast).
Defined.

(** ** Two allocations *)

(** X27.  Two successive calls of [Allocate] that return pointers: header
    and payload of the two allocations do not overlap, the bytes of the
    first payload are unchanged by the second call, and so is the first
    header when its adjustment is at least 24 or the second pointer is the
    higher one.  (Otherwise the record written for the remainder of the
    second split may run into the first header.) *)
Theorem Allocate_twice
    self m l size1 alignment1 size2 alignment2 fuel
    p1 self1 m1 p2 self2 m2 :
  well_formed self m l ->
  valid_request size1 alignment1 ->
  valid_request size2 alignment2 ->
  (length l < fuel)%nat ->
  Allocate fuel self m size1 alignment1 = Some (Returned p1, self1, m1) ->
  Allocate fuel self1 m1 size2 alignment2 = Some (Returned p2, self2, m2) ->
  (p1 + size1 <= p2 - sizeof_AllocationHeader \/
   p2 + size2 <= p1 - sizeof_AllocationHeader) /\
  (forall y, p1 <= y < p1 + size1 -> m2 y mod 256 = m1 y mod 256) /\
  (sizeof_FreeBlock
   <= AllocationHeader.adjustment m1 (p1 - sizeof_AllocationHeader) \/
   p1 < p2 ->
   AllocationHeader.size m2 (p1 - sizeof_AllocationHeader)
   = AllocationHeader.size m1 (p1 - sizeof_AllocationHeader) /\
   AllocationHeader.adjustment m2 (p1 - sizeof_AllocationHeader)
   = AllocationHeader.adjustment m1 (p1 - sizeof_AllocationHeader)).
Proof.
  intros Hwf Hreq1 Hreq2 Hfuel Hrun1 Hrun2.
  destruct (Allocate_allocated self m l size1 alignment1 fuel p1 self1 m1
              Hwf Hreq1 Hfuel Hrun1)
    as (a1 & s1 & f1 & l' & Hin1 & -> & Hf1 & Hwf1 & Hlen & Halloc & _ & _
        & _ & _).
  destruct (Allocate_post self1 m1 l' size2 alignment2 fuel p2 self2 m2
              Hwf1 Hreq2 ltac:(lia) Hrun2)
    as (l1 & a2 & s2 & l2 & El' & _ & Hpost).
  cbv zeta in Hpost.
  destruct Hpost as (-> & Hadj2 & Hq2 & _ & _ & _ & _ & _ & Hbytes).
  destruct Halloc as (Ha1 & Hae1 & Hadj1 & Hfa1 & _ & Hha1 & Hsep).
  pose proof (proj1 Hreq1) as Hsz1. pose proof (proj1 Hreq2) as Hsz2.
  set (adj1 := adjustment_for alignment1 a1) in *.
  set (adj2 := adjustment_for alignment2 a2) in *.
  set (total2 := size2 + adj2 + sizeof_AllocationHeader) in *.
  unfold sizeof_AllocationHeader, sizeof_FreeBlock, nullptr in *.
  assert (Hin2 : In (a2, s2) l')
    by (rewrite El'; apply in_or_app; right; left; reflexivity).
  pose proof (ascending_In _ _ _ _ (proj2 Hwf1) Hin2) as (Ha2 & Hs2 & Hae2).
  unfold sizeof_AllocationHeader in Hs2.
  pose proof (Hsep a2 s2 Hin2) as Hsep2.
  assert (Hprv : last_addr l1 0 = 0 \/ exists s0, In (last_addr l1 0, s0) l').
  { destruct l1 as [|c l1']; [left; reflexivity|right].
    destruct (last_addr_In (c :: l1') 0 ltac:(discriminate)) as [s0 H0].
    exists s0. rewrite El'. apply in_or_app. left. exact H0. }
  assert (Hnxt : head_addr l2 0 = 0 \/ exists s0, In (head_addr l2 0, s0) l').
  { destruct l2 as [|[c sc] l2']; [left; reflexivity|right].
    exists sc. rewrite El'. apply in_or_app. right. right. left.
    reflexivity. }
  assert (Hframe : forall y,
            a1 + adj1 - 16 <= y < a1 + f1 ->
            (a1 + adj1 <= y \/ 24 <= adj1 \/ a1 + adj1 < a2 + adj2) ->
            m2 y mod 256 = m1 y mod 256).
  { intros y Hy Hok. apply Hbytes.
    - lia.
    - destruct Hprv as [|[s0 H0]]; [left; assumption|].
      pose proof (Hsep _ _ H0).
      pose proof (ascending_In _ _ _ _ (proj2 Hwf1) H0).
      unfold sizeof_AllocationHeader in *. lia.
    - destruct Hnxt as [|[s0 H0]]; [left; assumption|].
      pose proof (Hsep _ _ H0).
      pose proof (ascending_In _ _ _ _ (proj2 Hwf1) H0).
      unfold sizeof_AllocationHeader in *. lia.
    - intros Hsplit. apply Z.leb_gt in Hsplit. lia. }
  split; [lia|]. split.
  - intros y Hy. apply Hframe; lia.
  - intros Hok. rewrite Hha1 in Hok.
    unfold AllocationHeader.size, AllocationHeader.adjustment, load_int,
      load_u64.
    split; [f_equal|]; apply load_le_ext; intros y Hy; apply Hframe;
      cbn in Hy; lia.
Qed.

Lemma Allocate_twice_witness :
  let r1 := Allocate 4 example_allocator example_memory 40 8 in
  let p1 := returned_pointer r1 in
  let self1 := allocator_after r1 in
  let m1 := memory_after r1 in
  let r2 := Allocate 4 self1 m1 100 8 in
  let p2 := returned_pointer r2 in
  let self2 := allocator_after r2 in
  let m2 := memory_after r2 in
  well_formed example_allocator example_memory example_blocks /\
  valid_request 40 8 /\ valid_request 100 8 /\
  r1 = Some (Returned p1, self1, m1) /\
  r2 = Some (Returned p2, self2, m2) /\
  (p1 + 40 <= p2 - sizeof_AllocationHeader \/
   p2 + 100 <= p1 - sizeof_AllocationHeader) /\
  (forall y, p1 <= y < p1 + 40 -> m2 y mod 256 = m1 y mod 256) /\
  (sizeof_FreeBlock
   <= AllocationHeader.adjustment m1 (p1 - sizeof_AllocationHeader) \/
   p1 < p2 ->
   AllocationHeader.size m2 (p1 - sizeof_AllocationHeader)
   = AllocationHeader.size m1 (p1 - sizeof_AllocationHeader) /\
   AllocationHeader.adjustment m2 (p1 - sizeof_AllocationHeader)
   = AllocationHeader.adjustment m1 (p1 - sizeof_AllocationHeader)).
Proof.
  intros r1 p1 self1 m1 r2 p2 self2 m2.
  pose proof example_well_formed as Hwf.
  assert (Hreq1 : valid_request 40 8).
  { split; [lia|]. exists 3. split; [lia|reflexivity]. }
  assert (Hreq2 : valid_request 100 8).
  { split; [lia|]. exists 3. split; [lia|reflexivity]. }
  assert (Hrun1 : r1 = Some (Returned p1, self1, m1)).
  { apply returned_eta. vm_compute. reflexivity. }
  assert (Hrun2 : r2 = Some (Returned p2, self2, m2)).
  { apply returned_eta. vm_compute. reflexivity. }
  split; [exact Hwf|]. split; [exact Hreq1|]. split; [exact Hreq2|].
  split; [exact Hrun1|]. split; [exact Hrun2|].
  apply (Allocate_twice example_allocator example_memory example_blocks
           40 8 100 8 4 p1 self1 m1 p2 self2 m2 Hwf Hreq1 Hreq2).
  - cbn [length example_blocks]. lia.
  - exact Hrun1.
  - exact Hrun2.
Defined.
